(** * TextQL playbooks client: a shallow embedding of the TypeScript sources

    The development follows the three source modules:
    - [config.ts]         (ConfigManager: the persisted settings file),
    - [textql-client.ts]  (TextQLClient: the request contract and the
                           composite create-then-update workflow),
    - [cli.ts]            (TextQLCLI: argument parsing and exit codes).

    JavaScript values are modelled untyped, the way the program handles them
    at run time: what comes back from [JSON.parse] (server bodies, the
    settings file) is not validated by the sources, so the embedding does not
    validate it either.  Statements about well-typed inputs say so. *)

From Stdlib Require Import String Ascii List ZArith Bool Lia DecimalString.
Import ListNotations.
Open Scope string_scope.
Open Scope Z_scope.

Set Warnings "-register-all".

(* ===================================================================== *)
(** ** JavaScript values *)
(* ===================================================================== *)

(** Numbers: the program only handles integer identifiers, HTTP status codes
    and what [parseInt] returns: an integer-valued double, [NaN], or an
    infinity when the digits denote more than a double holds.  Non-integer
    numbers are outside the model, and so is the sign of zero, which nothing
    in the sources can observe. *)
Inductive number : Type :=
| NaN
| Int (z : Z)
| Infinity (negative : bool).

(** An object is its list of own properties in insertion order, which is the
    order [JSON.stringify] prints. *)
Inductive JSValue : Type :=
| JUndefined
| JNull
| JBool (b : bool)
| JNumber (n : number)
| JString (s : string)
| JArray (elements : list JSValue)
| JObject (properties : list (string * JSValue)).

(** What a [throw] carries: an [Error] instance (its [name] and [message]) or
    any other value. *)
Inductive Thrown : Type :=
| JSError (name message : string)
| ThrownValue (v : JSValue).

Definition TypeError (message : string) : Thrown := JSError "TypeError" message.

(** [ToBoolean]. *)
Definition truthy (v : JSValue) : bool :=
  match v with
  | JUndefined | JNull => false
  | JBool b => b
  | JNumber NaN => false
  | JNumber (Int z) => negb (z =? 0)
  | JNumber (Infinity _) => true
  | JString s => negb (s =? "")%string
  | JArray _ | JObject _ => true
  end.

(** [a || b]. *)
Definition js_or (a b : JSValue) : JSValue := if truthy a then a else b.

Definition string_of_Z (z : Z) : string := NilZero.string_of_int (Z.to_int z).

(** The Number value of a mathematical integer: the nearest double, ties to
    the even significand; an infinity from [2^1024 - 2^970] on. *)
Definition to_double (z : Z) : number :=
  let a := Z.abs z in
  if a <? 2 ^ 53 then Int z
  else
    let e := Z.log2 a - 52 in
    let q := a / 2 ^ e in
    let r := a mod 2 ^ e in
    let half := 2 ^ (e - 1) in
    let q' := if (half <? r) || ((r =? half) && Z.odd q) then q + 1 else q in
    let v := q' * 2 ^ e in
    if 2 ^ 1024 <=? v then Infinity (z <? 0) else Int (Z.sgn z * v).

Definition digit_count (a : Z) : Z := Z.of_nat (String.length (string_of_Z a)).

Definition rounds_to (a c : Z) : bool :=
  match to_double c with
  | Int v => v =? a
  | _ => false
  end.

(** A decimal of [k] significant digits whose Number value is [a], the one
    nearest to [a] if there are two. *)
Definition shortest_with (a k : Z) : option Z :=
  let n := digit_count a in
  if n <=? k then Some a
  else
    let p := 10 ^ (n - k) in
    let lo := (a / p) * p in
    let hi := lo + p in
    match rounds_to a lo, rounds_to a hi with
    | true, true =>
        Some (if a - lo <? hi - a then lo
              else if hi - a <? a - lo then hi
              else if Z.even (lo / p) then lo else hi)
    | true, false => Some lo
    | false, true => Some hi
    | false, false => None
    end.

Fixpoint first_shortest (a : Z) (ks : list Z) : Z :=
  match ks with
  | [] => a
  | k :: r => match shortest_with a k with
              | Some c => c
              | None => first_shortest a r
              end
  end.

(** Seventeen significant digits tell any two doubles apart. *)
Definition shortest_decimal (a : Z) : Z :=
  first_shortest a [1; 2; 3; 4; 5; 6; 7; 8; 9; 10; 11; 12; 13; 14; 15; 16; 17].

Fixpoint strip_zeros (fuel : nat) (c : Z) : Z :=
  match fuel with
  | O => c
  | S f => if (c mod 10 =? 0) && negb (c =? 0) then strip_zeros f (c / 10)
           else c
  end.

(** [Number::toString] of a positive integer-valued double: the fewest
    significant digits that read back as the same double, written out in
    full up to 21 digits and with an exponent beyond. *)
Definition positive_to_string (a : Z) : string :=
  let c := shortest_decimal a in
  let n := digit_count c in
  if n <=? 21 then string_of_Z c
  else
    let s := string_of_Z (strip_zeros (Z.to_nat n) c) in
    match s with
    | String d EmptyString => String d EmptyString ++ "e+" ++ string_of_Z (n - 1)
    | String d rest => String d ("." ++ rest) ++ "e+" ++ string_of_Z (n - 1)
    | EmptyString => s
    end.

Definition number_to_string (n : number) : string :=
  match n with
  | NaN => "NaN"
  | Int z => if z <? 0 then "-" ++ positive_to_string (- z)
             else positive_to_string z
  | Infinity false => "Infinity"
  | Infinity true => "-Infinity"
  end.

(** [Array.prototype.join(",")] over already converted elements. *)
Fixpoint join_comma (l : list string) : string :=
  match l with
  | [] => ""
  | [s] => s
  | s :: r => s ++ "," ++ join_comma r
  end.

(** [ToString], as used by template literals and by [new Error(x)]. *)
Fixpoint ToString (v : JSValue) : string :=
  match v with
  | JUndefined => "undefined"
  | JNull => "null"
  | JBool true => "true"
  | JBool false => "false"
  | JNumber n => number_to_string n
  | JString s => s
  | JArray l =>
      join_comma
        (map (fun e => match e with
                       | JUndefined | JNull => ""
                       | _ => ToString e
                       end) l)
  | JObject _ => "[object Object]"
  end.

(** [`${error}`] for a caught value: [Error.prototype.toString]. *)
Definition thrown_to_string (e : Thrown) : string :=
  match e with
  | JSError name message =>
      if (name =? "")%string then message
      else if (message =? "")%string then name
      else name ++ ": " ++ message
  | ThrownValue v => ToString v
  end.

Fixpoint assoc_get (k : string) (o : list (string * JSValue)) : JSValue :=
  match o with
  | [] => JUndefined
  | (k', v) :: r => if (k' =? k)%string then v else assoc_get k r
  end.

(** Assignment [o.k = v] on an ordinary object: an existing property keeps its
    place, a new one goes last. *)
Fixpoint assoc_set (k : string) (v : JSValue) (o : list (string * JSValue))
  : list (string * JSValue) :=
  match o with
  | [] => [(k, v)]
  | (k', v') :: r =>
      if (k' =? k)%string then (k', v) :: r else (k', v') :: assoc_set k v r
  end.

(** Strings are kept as their UTF-8 bytes.  The [length] of a string counts
    its UTF-16 code units: one for each character of up to three bytes, two
    for each character of four. *)
Fixpoint utf16_length (s : string) : Z :=
  match s with
  | EmptyString => 0
  | String c r =>
      let b := Z.of_nat (nat_of_ascii c) in
      (if b <? 128 then 1
       else if b <? 192 then 0
       else if b <? 240 then 1
       else 2) + utf16_length r
  end.

(** Property read [v.k] for the property names the sources use: data
    properties of objects, and [length] of strings and arrays.  Reading a
    property of [null] or [undefined] throws. *)
Definition get_prop (v : JSValue) (k : string) : Thrown + JSValue :=
  match v with
  | JUndefined | JNull =>
      inl (TypeError ("Cannot read properties of " ++ ToString v
                      ++ " (reading '" ++ k ++ "')"))
  | JObject o => inr (assoc_get k o)
  | JString s =>
      if (k =? "length")%string
      then inr (JNumber (Int (utf16_length s)))
      else inr JUndefined
  | JArray l =>
      if (k =? "length")%string
      then inr (JNumber (Int (Z.of_nat (List.length l))))
      else inr JUndefined
  | JBool _ | JNumber _ => inr JUndefined
  end.

(** Property write [v.k = x] in strict mode (the sources are ES modules).
    On [null], [undefined] and primitives it throws.  On an array the named
    property is set on the array object, where nothing the sources do
    afterwards ([JSON.stringify]) can see it. *)
Definition set_prop (v : JSValue) (k : string) (x : JSValue) : Thrown + JSValue :=
  match v with
  | JObject o => inr (JObject (assoc_set k x o))
  | JArray l => inr (JArray l)
  | JUndefined | JNull =>
      inl (TypeError ("Cannot set properties of " ++ ToString v
                      ++ " (setting '" ++ k ++ "')"))
  | JBool _ | JNumber _ | JString _ =>
      inl (TypeError ("Cannot create property '" ++ k ++ "' on "
                      ++ ToString v))
  end.

(** [e?.k]. *)
Definition opt_chain_prop (v : JSValue) (k : string) : JSValue :=
  match get_prop v k with
  | inl _ => JUndefined
  | inr x => x
  end.

(* ===================================================================== *)
(** ** String built-ins *)
(* ===================================================================== *)

(** The built-ins below work on the UTF-8 bytes of a string; the sources
    search and split on ASCII characters only, which no multi-byte character
    contains. *)

(** [s.startsWith(p)]. *)
Definition startsWith (s p : string) : bool := String.prefix p s.

(** [s.includes(t)]: [t] occurs in [s] at some offset. *)
Fixpoint includes (s t : string) : bool :=
  String.prefix t s ||
  match s with
  | EmptyString => false
  | String _ s' => includes s' t
  end.

(** [s.split(sep)] for a one-character separator (the sources split on '='
    and on ','). *)
Fixpoint split (sep : ascii) (s : string) : list string :=
  match s with
  | EmptyString => [EmptyString]
  | String c r =>
      if Ascii.eqb c sep then EmptyString :: split sep r
      else match split sep r with
           | [] => [String c EmptyString]
           | p :: ps => String c p :: ps
           end
  end.

Definition is_StrWhiteSpace (c : ascii) : bool :=
  let n := nat_of_ascii c in
  (Nat.eqb n 9 || Nat.eqb n 10 || Nat.eqb n 11 || Nat.eqb n 12
   || Nat.eqb n 13 || Nat.eqb n 32)%bool.

(** The white space and line terminators that take more than one byte:
    U+00A0 in two, U+1680, U+2000 to U+200A, U+2028, U+2029, U+202F, U+205F,
    U+3000 and U+FEFF in three. *)
Definition is_NBSP (b0 b1 : Z) : bool := (b0 =? 194) && (b1 =? 160).

Definition is_wide_StrWhiteSpace (b0 b1 b2 : Z) : bool :=
  ((b0 =? 225) && (b1 =? 154) && (b2 =? 128))
  || ((b0 =? 226) && (b1 =? 128)
      && (((128 <=? b2) && (b2 <=? 138)) || (b2 =? 168) || (b2 =? 169)
          || (b2 =? 175)))
  || ((b0 =? 226) && (b1 =? 129) && (b2 =? 159))
  || ((b0 =? 227) && (b1 =? 128) && (b2 =? 128))
  || ((b0 =? 239) && (b1 =? 187) && (b2 =? 191)).

Definition byte_value (c : ascii) : Z := Z.of_nat (nat_of_ascii c).

Fixpoint trim_start (s : string) : string :=
  match s with
  | String c r =>
      if is_StrWhiteSpace c then trim_start r
      else
        match r with
        | String c1 r1 =>
            if is_NBSP (byte_value c) (byte_value c1) then trim_start r1
            else
              match r1 with
              | String c2 r2 =>
                  if is_wide_StrWhiteSpace (byte_value c) (byte_value c1)
                       (byte_value c2)
                  then trim_start r2
                  else s
              | EmptyString => s
              end
        | EmptyString => s
        end
  | EmptyString => s
  end.

(** Value of a digit character in radixes up to 36. *)
Definition digit_value (c : ascii) : option Z :=
  let n := Z.of_nat (nat_of_ascii c) in
  if (48 <=? n) && (n <=? 57) then Some (n - 48)
  else if (97 <=? n) && (n <=? 122) then Some (n - 87)
  else if (65 <=? n) && (n <=? 90) then Some (n - 55)
  else None.

(** Longest prefix of radix-[R] digits, as the number it denotes. *)
Fixpoint parse_digits (R : Z) (s : string) (acc : option Z) : option Z :=
  match s with
  | EmptyString => acc
  | String c r =>
      match digit_value c with
      | Some d =>
          if d <? R
          then parse_digits R r (Some (match acc with
                                       | Some a => a * R + d
                                       | None => d
                                       end))
          else acc
      | None => acc
      end
  end.

(** [parseInt(string, radix)]; [radix = 0] stands for an omitted radix.  The
    result is the Number value of the integer the digits denote. *)
Definition parseInt (input : string) (radix : Z) : number :=
  let S0 := trim_start input in
  let '(sign, S1) :=
    match S0 with
    | String "-" r => (-1, r)
    | String "+" r => (1, r)
    | _ => (1, S0)
    end in
  if negb (radix =? 0) && ((radix <? 2) || (36 <? radix)) then NaN
  else
    let stripPrefix := (radix =? 0) || (radix =? 16) in
    let R0 := if radix =? 0 then 10 else radix in
    let '(R, S2) :=
      if stripPrefix then
        match S1 with
        | String "0" (String "x" r) => (16, r)
        | String "0" (String "X" r) => (16, r)
        | _ => (R0, S1)
        end
      else (R0, S1) in
    match parse_digits R S2 None with
    | None => NaN
    | Some n => to_double (sign * n)
    end.

Definition Number_isNaN (n : number) : bool :=
  match n with NaN => true | Int _ | Infinity _ => false end.

(* ===================================================================== *)
(** ** A reference JSON reader and printer *)
(* ===================================================================== *)

(** [JSON.parse], [JSON.stringify] and [String.prototype.toLowerCase] belong
    to the platform, not to the repository: the embedding of the sources
    takes them as parameters (see [Section Platform]).  The definitions of
    this part are one instance, used to run the model on concrete documents.
    The reader covers JSON whose numbers are integer literals. *)

Definition dquote : ascii := ascii_of_nat 34.
Definition backslash : ascii := ascii_of_nat 92.

Definition is_json_ws (c : ascii) : bool :=
  let n := nat_of_ascii c in
  (Nat.eqb n 32 || Nat.eqb n 9 || Nat.eqb n 10 || Nat.eqb n 13)%bool.

Fixpoint skip_ws (s : string) : string :=
  match s with
  | String c r => if is_json_ws c then skip_ws r else s
  | EmptyString => s
  end.

Definition hex_digit (c : ascii) : option Z :=
  match digit_value c with
  | Some d => if d <? 16 then Some d else None
  | None => None
  end.

Definition byte_of_Z (z : Z) : ascii := ascii_of_nat (Z.to_nat z).

(** UTF-8 bytes of a code point below 0x10000. *)
Definition utf8_encode (cp : Z) : string :=
  if cp <? 128 then String (byte_of_Z cp) EmptyString
  else if cp <? 2048 then
    String (byte_of_Z (192 + cp / 64))
      (String (byte_of_Z (128 + cp mod 64)) EmptyString)
  else
    String (byte_of_Z (224 + cp / 4096))
      (String (byte_of_Z (128 + (cp / 64) mod 64))
         (String (byte_of_Z (128 + cp mod 64)) EmptyString)).

Definition simple_escape (c : ascii) : option ascii :=
  let n := nat_of_ascii c in
  if Nat.eqb n 34 then Some dquote
  else if Nat.eqb n 92 then Some backslash
  else if Nat.eqb n 47 then Some "/"%char
  else if Nat.eqb n 98 then Some (ascii_of_nat 8)
  else if Nat.eqb n 102 then Some (ascii_of_nat 12)
  else if Nat.eqb n 110 then Some (ascii_of_nat 10)
  else if Nat.eqb n 114 then Some (ascii_of_nat 13)
  else if Nat.eqb n 116 then Some (ascii_of_nat 9)
  else None.

(** The characters of a string literal after its opening quote, and what
    follows the closing quote. *)
Fixpoint read_string_body (s : string) : option (string * string) :=
  match s with
  | EmptyString => None
  | String c r =>
      if Ascii.eqb c dquote then Some (EmptyString, r)
      else if Ascii.eqb c backslash then
        match r with
        | String e r1 =>
            match simple_escape e with
            | Some ch =>
                match read_string_body r1 with
                | Some (body, rest) => Some (String ch body, rest)
                | None => None
                end
            | None =>
                match e, r1 with
                | "u"%char, String h1 (String h2 (String h3 (String h4 r2))) =>
                    match hex_digit h1, hex_digit h2, hex_digit h3, hex_digit h4 with
                    | Some d1, Some d2, Some d3, Some d4 =>
                        match read_string_body r2 with
                        | Some (body, rest) =>
                            Some (utf8_encode (((d1 * 16 + d2) * 16 + d3) * 16 + d4)
                                  ++ body, rest)
                        | None => None
                        end
                    | _, _, _, _ => None
                    end
                | _, _ => None
                end
            end
        | EmptyString => None
        end
      else if (nat_of_ascii c <? 32)%nat then None
      else
        match read_string_body r with
        | Some (body, rest) => Some (String c body, rest)
        | None => None
        end
  end.

Definition is_digit (c : ascii) : bool :=
  let n := nat_of_ascii c in (Nat.leb 48 n && Nat.leb n 57)%bool.

Fixpoint read_digits (s : string) (acc : Z) : Z * string :=
  match s with
  | String c r =>
      if is_digit c then read_digits r (acc * 10 + (Z.of_nat (nat_of_ascii c) - 48))
      else (acc, s)
  | EmptyString => (acc, s)
  end.

(** An integer literal: [0] or a non-zero digit followed by digits; a
    fraction or an exponent after it is not read. *)
Definition read_natural (s : string) : option (Z * string) :=
  match s with
  | String c r =>
      if Ascii.eqb c "0"%char then Some (0, r)
      else if is_digit c then Some (read_digits s 0)
      else None
  | EmptyString => None
  end.

Definition no_fraction (s : string) : bool :=
  match s with
  | String c _ =>
      negb (Ascii.eqb c "."%char || Ascii.eqb c "e"%char || Ascii.eqb c "E"%char)
  | EmptyString => true
  end.

Definition read_number (s : string) : option (JSValue * string) :=
  let '(sign, s1) :=
    match s with
    | String "-" r => (-1, r)
    | _ => (1, s)
    end in
  match read_natural s1 with
  | Some (n, rest) =>
      if no_fraction rest then Some (JNumber (to_double (sign * n)), rest)
      else None
  | None => None
  end.

Definition read_literal (lit : string) (v : JSValue) (s : string)
  : option (JSValue * string) :=
  if String.prefix lit s
  then Some (v, String.substring (String.length lit)
                                 (String.length s - String.length lit) s)
  else None.

Fixpoint read_value (fuel : nat) (s : string) {struct fuel}
  : option (JSValue * string) :=
  match fuel with
  | O => None
  | S fuel' =>
      match skip_ws s with
      | EmptyString => None
      | String c r as s1 =>
          if Ascii.eqb c "{"%char then
            match skip_ws r with
            | String "}" r1 => Some (JObject [], r1)
            | _ => read_members fuel' r []
            end
          else if Ascii.eqb c "["%char then
            match skip_ws r with
            | String "]" r1 => Some (JArray [], r1)
            | _ => read_elements fuel' r []
            end
          else if Ascii.eqb c dquote then
            match read_string_body r with
            | Some (str, rest) => Some (JString str, rest)
            | None => None
            end
          else if Ascii.eqb c "t"%char then read_literal "true" (JBool true) s1
          else if Ascii.eqb c "f"%char then read_literal "false" (JBool false) s1
          else if Ascii.eqb c "n"%char then read_literal "null" JNull s1
          else read_number s1
      end
  end

with read_elements (fuel : nat) (s : string) (acc : list JSValue) {struct fuel}
  : option (JSValue * string) :=
  match fuel with
  | O => None
  | S fuel' =>
      match read_value fuel' s with
      | Some (v, r) =>
          match skip_ws r with
          | String "," r1 => read_elements fuel' r1 (acc ++ [v])
          | String "]" r1 => Some (JArray (acc ++ [v]), r1)
          | _ => None
          end
      | None => None
      end
  end

with read_members (fuel : nat) (s : string) (acc : list (string * JSValue))
  {struct fuel} : option (JSValue * string) :=
  match fuel with
  | O => None
  | S fuel' =>
      match skip_ws s with
      | String c r =>
          if Ascii.eqb c dquote then
            match read_string_body r with
            | Some (key, r1) =>
                match skip_ws r1 with
                | String ":" r2 =>
                    match read_value fuel' r2 with
                    | Some (v, r3) =>
                        match skip_ws r3 with
                        | String "," r4 => read_members fuel' r4 (assoc_set key v acc)
                        | String "}" r4 => Some (JObject (assoc_set key v acc), r4)
                        | _ => None
                        end
                    | None => None
                    end
                | _ => None
                end
            | None => None
            end
          else None
      | EmptyString => None
      end
  end.

Definition SyntaxError (message : string) : Thrown := JSError "SyntaxError" message.

(** The reference [JSON.parse]: the value, or the [SyntaxError] thrown. *)
Definition json_parse (text : string) : Thrown + JSValue :=
  match read_value (2 * String.length text + 2) text with
  | Some (v, rest) =>
      match skip_ws rest with
      | EmptyString => inr v
      | _ => inl (SyntaxError "Unexpected non-whitespace character after JSON")
      end
  | None => inl (SyntaxError "Unexpected token in JSON")
  end.

Definition hex_char (d : Z) : ascii :=
  if d <? 10 then byte_of_Z (48 + d) else byte_of_Z (87 + d).

Definition escape_char (c : ascii) : string :=
  let n := nat_of_ascii c in
  let bs x := String backslash (String x EmptyString) in
  if Nat.eqb n 34 then bs dquote
  else if Nat.eqb n 92 then bs backslash
  else if Nat.eqb n 8 then bs "b"%char
  else if Nat.eqb n 12 then bs "f"%char
  else if Nat.eqb n 10 then bs "n"%char
  else if Nat.eqb n 13 then bs "r"%char
  else if Nat.eqb n 9 then bs "t"%char
  else if (n <? 32)%nat then
    String backslash
      ("u00" ++ String (hex_char (Z.of_nat n / 16))
                  (String (hex_char (Z.of_nat n mod 16)) EmptyString))
  else String c EmptyString.

Fixpoint escape_string (s : string) : string :=
  match s with
  | EmptyString => EmptyString
  | String c r => escape_char c ++ escape_string r
  end.

Definition quote_json_string (s : string) : string :=
  String dquote (escape_string s ++ String dquote EmptyString).

Fixpoint join_with (sep : string) (l : list string) : string :=
  match l with
  | [] => ""
  | [s] => s
  | s :: r => s ++ sep ++ join_with sep r
  end.

Definition newline : string := String (ascii_of_nat 10) EmptyString.

(** Brackets around the serialised parts, with the line breaks and
    indentation [JSON.stringify] inserts when [gap] is not empty. *)
Definition wrap_parts (opening closing gap indent : string) (parts : list string)
  : string :=
  match parts with
  | [] => opening ++ closing
  | _ =>
      if (gap =? "")%string then opening ++ join_with "," parts ++ closing
      else
        opening ++ newline ++ (indent ++ gap)
        ++ join_with ("," ++ newline ++ indent ++ gap) parts
        ++ newline ++ indent ++ closing
  end.

(** [None] is the [undefined] that [JSON.stringify(undefined)] returns. *)
Fixpoint stringify (gap indent : string) (v : JSValue) {struct v} : option string :=
  match v with
  | JUndefined => None
  | JNull => Some "null"
  | JBool true => Some "true"
  | JBool false => Some "false"
  | JNumber NaN | JNumber (Infinity _) => Some "null"
  | JNumber (Int z) => Some (number_to_string (Int z))
  | JString s => Some (quote_json_string s)
  | JArray l =>
      Some (wrap_parts "[" "]" gap indent
              (map (fun e => match stringify gap (indent ++ gap) e with
                             | Some str => str
                             | None => "null"
                             end) l))
  | JObject o =>
      Some (wrap_parts "{" "}" gap indent
              ((fix members (o : list (string * JSValue)) : list string :=
                  match o with
                  | [] => []
                  | (k, x) :: r =>
                      match stringify gap (indent ++ gap) x with
                      | Some str =>
                          (quote_json_string k
                           ++ (if (gap =? "")%string then ":" else ": ") ++ str)
                          :: members r
                      | None => members r
                      end
                  end) o))
  end.

Fixpoint spaces (n : nat) : string :=
  match n with
  | O => EmptyString
  | S k => String " " (spaces k)
  end.

(** The reference [JSON.stringify(v, null, indent)]. *)
Definition json_stringify (indent : nat) (v : JSValue) : option string :=
  stringify (spaces indent) "" v.

Definition ascii_lower (c : ascii) : ascii :=
  let n := nat_of_ascii c in
  if (Nat.leb 65 n && Nat.leb n 90)%bool then ascii_of_nat (n + 32) else c.

(** The reference [toLowerCase]: ASCII letters only. *)
Fixpoint ascii_toLowerCase (s : string) : string :=
  match s with
  | EmptyString => EmptyString
  | String c r => String (ascii_lower c) (ascii_toLowerCase r)
  end.

(* ===================================================================== *)
(** ** The world the program runs in *)
(* ===================================================================== *)

(** The settings file at [~/.textql/config.json]. *)
Inductive File : Type :=
| NoFile
| Unreadable (e : Thrown)
| Content (text : string).

(** The argument of one [fetch] call. *)
Record Request : Type := {
  req_url : string;
  req_method : string;
  req_headers : list (string * string);
  req_body : option string
}.

(** What the sources read of a [Response]: [ok], [status], [statusText] and
    the body, whose reading can fail. *)
Record Response : Type := {
  resp_ok : bool;
  resp_status : Z;
  resp_statusText : string;
  resp_text : Thrown + string
}.

Inductive FetchOutcome : Type :=
| Rejects (e : Thrown)
| Resolves (r : Response).

Inductive ConsoleArg : Type :=
| CText (s : string)
| CValue (v : JSValue)
| CThrown (e : Thrown).

Inductive ConsoleCall : Type :=
| console_log_call (args : list ConsoleArg)
| console_warn_call (args : list ConsoleArg)
| console_error_call (args : list ConsoleArg).

Record TextQLConfig : Type := {
  apiKey : JSValue;
  baseUrl : JSValue
}.

(** The two private fields of a [TextQLClient]. *)
Record TextQLClient : Type := {
  config : TextQLConfig;
  client_baseUrl : JSValue
}.

Record World : Type := {
  (** the settings file *)
  config_file : File;
  (** what creating the directory or writing the file throws, if it fails *)
  fs_failure : option Thrown;
  (** [process.env.TEXTQL_API_KEY] *)
  TEXTQL_API_KEY : option string;
  (** the transport: the outcome of a [fetch], given the calls made before *)
  network : list Request -> Request -> FetchOutcome;
  (** the [fetch] calls made so far, oldest first *)
  requests : list Request;
  (** the console calls made so far, oldest first *)
  console : list ConsoleCall;
  (** the [client] field of the [TextQLCLI] instance *)
  cli_client : option TextQLClient
}.

Definition with_config_file (f : File) (w : World) : World :=
  {| config_file := f; fs_failure := fs_failure w;
     TEXTQL_API_KEY := TEXTQL_API_KEY w; network := network w;
     requests := requests w; console := console w;
     cli_client := cli_client w |}.

Definition with_requests (r : list Request) (w : World) : World :=
  {| config_file := config_file w; fs_failure := fs_failure w;
     TEXTQL_API_KEY := TEXTQL_API_KEY w; network := network w;
     requests := r; console := console w;
     cli_client := cli_client w |}.

Definition with_console (c : list ConsoleCall) (w : World) : World :=
  {| config_file := config_file w; fs_failure := fs_failure w;
     TEXTQL_API_KEY := TEXTQL_API_KEY w; network := network w;
     requests := requests w; console := c;
     cli_client := cli_client w |}.

Definition with_cli_client (c : option TextQLClient) (w : World) : World :=
  {| config_file := config_file w; fs_failure := fs_failure w;
     TEXTQL_API_KEY := TEXTQL_API_KEY w; network := network w;
     requests := requests w; console := console w;
     cli_client := c |}.

(** How a computation ends: it returns, it throws, or the process exits. *)
Inductive Outcome (A : Type) : Type :=
| Return (a : A)
| Throw (e : Thrown)
| Exit (code : Z).

Arguments Return {A} a.
Arguments Throw {A} e.
Arguments Exit {A} code.

Definition M (A : Type) : Type := World -> Outcome A * World.

Definition ret {A : Type} (a : A) : M A := fun w => (Return a, w).

Definition bind {A B : Type} (m : M A) (k : A -> M B) : M B :=
  fun w =>
    match m w with
    | (Return a, w') => k a w'
    | (Throw e, w') => (Throw e, w')
    | (Exit c, w') => (Exit c, w')
    end.

Definition throw {A : Type} (e : Thrown) : M A := fun w => (Throw e, w).

(** [process.exit(code)]: nothing runs after it, and no [catch] sees it. *)
Definition process_exit {A : Type} (code : Z) : M A := fun w => (Exit code, w).

(** [try { m } catch (error) { handler error }]. *)
Definition try_catch {A : Type} (m : M A) (handler : Thrown -> M A) : M A :=
  fun w =>
    match m w with
    | (Throw e, w') => handler e w'
    | r => r
    end.

Definition lift {A : Type} (r : Thrown + A) : M A :=
  match r with
  | inl e => throw e
  | inr a => ret a
  end.

Declare Scope js_scope.
Delimit Scope js_scope with js.
Notation "x <- m ;; k" := (bind m (fun x => k))
  (at level 61, m at next level, right associativity) : js_scope.
Notation "m ;; k" := (bind m (fun _ => k))
  (at level 61, right associativity) : js_scope.
Open Scope js_scope.

Definition console_log (args : list ConsoleArg) : M unit :=
  fun w => (Return tt, with_console (console w ++ [console_log_call args]) w).

Definition console_warn (args : list ConsoleArg) : M unit :=
  fun w => (Return tt, with_console (console w ++ [console_warn_call args]) w).

Definition console_error (args : list ConsoleArg) : M unit :=
  fun w => (Return tt, with_console (console w ++ [console_error_call args]) w).

Definition existsSync : M bool :=
  fun w => (Return (match config_file w with NoFile => false | _ => true end), w).

Definition readFileSync : M string :=
  fun w =>
    match config_file w with
    | Content text => (Return text, w)
    | Unreadable e => (Throw e, w)
    | NoFile => (Throw (JSError "Error" "ENOENT: no such file or directory"), w)
    end.

Definition mkdirSync : M unit :=
  fun w =>
    match fs_failure w with
    | Some e => (Throw e, w)
    | None => (Return tt, w)
    end.

(** [writeFileSync(path, data)]: [data = None] is the [undefined] that
    [JSON.stringify] can return, which [writeFileSync] refuses. *)
Definition writeFileSync (data : option string) : M unit :=
  fun w =>
    match data with
    | None =>
        (Throw (TypeError "The data argument must be of type string"), w)
    | Some text =>
        match fs_failure w with
        | Some e => (Throw e, w)
        | None => (Return tt, with_config_file (Content text) w)
        end
    end.

Definition process_env_TEXTQL_API_KEY : M JSValue :=
  fun w =>
    (Return (match TEXTQL_API_KEY w with
             | Some s => JString s
             | None => JUndefined
             end), w).

(** One [fetch] call: it is recorded, and the transport decides its outcome
    from the calls made before it. *)
Definition fetch (r : Request) : M Response :=
  fun w =>
    let w' := with_requests (requests w ++ [r]) w in
    match network w (requests w) r with
    | Rejects e => (Throw e, w')
    | Resolves resp => (Return resp, w')
    end.

Definition response_text (r : Response) : M string := lift (resp_text r).

(** [TextQLResponse<T>]: absent [data] and [error] are [JUndefined]. *)
Record TextQLResponse : Type := {
  success : bool;
  data : JSValue;
  error : JSValue
}.

(** The parameter object of [createCompletePlaybook]; an absent optional
    property is [JUndefined]. *)
Record CompleteParams : Type := {
  playbookId : JSValue;
  prompt : JSValue;
  name : JSValue;
  emailAddresses : JSValue;
  connectorId : JSValue;
  cronString : JSValue;
  status : JSValue
}.

(** A [Connector] as [types.ts] declares it. *)
Record Connector : Type := {
  connector_id : Z;
  connector_name : string;
  connector_type : string;
  connector_status : string;
  connector_createdAt : string;
  connector_updatedAt : string
}.

Definition Connector_to_js (c : Connector) : JSValue :=
  JObject
    [("id", JNumber (Int (connector_id c)));
     ("name", JString (connector_name c));
     ("type", JString (connector_type c));
     ("status", JString (connector_status c));
     ("createdAt", JString (connector_createdAt c));
     ("updatedAt", JString (connector_updatedAt c))].

Definition dq : string := String dquote EmptyString.

Definition HELP_TEXT : string :=
  "
🚀 TextQL CLI - TextQL Playbooks Management

USAGE:
  textql <command> [options]

COMMANDS:
  config                    Manage configuration
    set-api-key <key>       Set API key
    set-connector <id>      Set default connector ID
    set-cron <string>       Set default cron string
    show                    Show current configuration

  connectors                List available connectors

  create                    Create a new playbook
    --id=<id>              Playbook ID (required)
    --prompt=" ++ dq ++ "<query>" ++ dq ++ "     SQL query or instruction (required)
    --name=" ++ dq ++ "<name>" ++ dq ++ "        Human-readable name (required)
    --emails=" ++ dq ++ "<emails>" ++ dq ++ "    Comma-separated email addresses (required)
    --connector=<id>       Connector ID (optional, uses default if set)
    --cron=" ++ dq ++ "<string>" ++ dq ++ "      Cron schedule (optional, defaults to " ++ dq ++ "0 13 * * *" ++ dq ++ ")

  update                    Update an existing playbook
    --id=<id>              Playbook ID (required)
    --prompt=" ++ dq ++ "<query>" ++ dq ++ "     SQL query or instruction (optional)
    --name=" ++ dq ++ "<name>" ++ dq ++ "        Human-readable name (optional)
    --emails=" ++ dq ++ "<emails>" ++ dq ++ "    Comma-separated email addresses (optional)
    --connector=<id>       Connector ID (optional)
    --cron=" ++ dq ++ "<string>" ++ dq ++ "      Cron schedule (optional)
    --status=<status>      STATUS_ACTIVE or STATUS_INACTIVE (optional)

  help                      Show this help message

EXAMPLES:
  # Set up API key
  textql config set-api-key your-api-key-here

  # List connectors
  textql connectors

  # Set default connector
  textql config set-connector 213

  # Create a playbook
  textql create --id=" ++ dq ++ "my-playbook-123" ++ dq ++ " --prompt=" ++ dq ++ "SELECT * FROM users WHERE created_at > NOW() - INTERVAL 7 DAY" ++ dq ++ " --name=" ++ dq ++ "Weekly Active Users" ++ dq ++ " --emails=" ++ dq ++ "admin@company.com,analyst@company.com" ++ dq ++ "

  # Update a playbook
  textql update --id=" ++ dq ++ "my-playbook-123" ++ dq ++ " --status=STATUS_INACTIVE

ENVIRONMENT VARIABLES:
  TEXTQL_API_KEY           API key (alternative to config file)
".

(* ===================================================================== *)
(** ** Sample data *)
(* ===================================================================== *)

(** A client as [new TextQLClient({apiKey: 'key-1'})] constructs it. *)
Definition sample_client : TextQLClient :=
  {| config := {| apiKey := JString "key-1"; baseUrl := JUndefined |};
     client_baseUrl := JString "https://app.textql.com" |}.

(** A transport that answers every request the same way. *)
Definition always (out : FetchOutcome) : list Request -> Request -> FetchOutcome :=
  fun _ _ => out.

Definition http_response (status : Z) (statusText body : string) : FetchOutcome :=
  Resolves {| resp_ok := (200 <=? status) && (status <=? 299);
              resp_status := status;
              resp_statusText := statusText;
              resp_text := inr body |}.

(** A fresh process: nothing requested, nothing printed, no client yet. *)
Definition sample_world (file : File) (env : option string)
  (net : list Request -> Request -> FetchOutcome) : World :=
  {| config_file := file;
     fs_failure := None;
     TEXTQL_API_KEY := env;
     network := net;
     requests := [];
     console := [];
     cli_client := None |}.

(** The text [JSON.stringify] gives for a value, for building sample bodies
    and sample files. *)
Definition json_text (indent : nat) (v : JSValue) : string :=
  match json_stringify indent v with
  | Some text => text
  | None => EmptyString
  end.

Definition sample_params : CompleteParams :=
  {| playbookId := JString "weekly-users";
     prompt := JString "SELECT COUNT(*) FROM users";
     name := JString "Weekly User Count Report";
     emailAddresses := JArray [JString "admin@example.com"];
     connectorId := JNumber (Int 213);
     cronString := JUndefined;
     status := JUndefined |}.

Definition postgres_prod : Connector :=
  {| connector_id := 1; connector_name := "Postgres-Prod";
     connector_type := "postgres"; connector_status := "ACTIVE";
     connector_createdAt := "2024-01-01T00:00:00Z";
     connector_updatedAt := "2024-01-02T00:00:00Z" |}.

Definition mysql : Connector :=
  {| connector_id := 2; connector_name := "MySQL";
     connector_type := "mysql"; connector_status := "ACTIVE";
     connector_createdAt := "2024-01-01T00:00:00Z";
     connector_updatedAt := "2024-01-02T00:00:00Z" |}.

Definition sample_connectors : list Connector := [postgres_prod; mysql].

(** A server that lists the sample connectors. *)
Definition connectors_world : World :=
  sample_world NoFile None
    (always (http_response 200 "OK"
               (json_text 0
                  (JObject [("connectors",
                             JArray (map Connector_to_js sample_connectors))])))).

(** A server that answers 500 with the body [{}]. *)
Definition empty_error_world : World :=
  sample_world NoFile None
    (always (http_response 500 "Internal Server Error" "{}")).

(** A server that answers 500 with an error whose message is empty. *)
Definition empty_message_world : World :=
  sample_world NoFile None
    (always (http_response 500 "Internal Server Error"
               (json_text 0 (JObject [("message", JString "")])))).

(** A server that answers 503 with a body that is not JSON. *)
Definition plain_error_world : World :=
  sample_world NoFile None
    (always (http_response 503 "Service Unavailable" "upstream timeout")).

(** A server that answers 401 with a structured error. *)
Definition unauthorized_world : World :=
  sample_world NoFile None
    (always (http_response 401 "Unauthorized"
               (json_text 0 (JObject [("message", JString "invalid API key");
                                      ("code", JString "unauthenticated")])))).

(** A server that accepts everything. *)
Definition accepting_world (file : File) (env : option string) : World :=
  sample_world file env (always (http_response 200 "OK" "{}")).

(** Settings with a default cron string only. *)
Definition cron_settings : list (string * JSValue) :=
  [("defaultCronString", JString "0 9 * * *")].

(** Settings with a key and a default connector. *)
Definition full_settings : list (string * JSValue) :=
  [("apiKey", JString "file-key");
   ("baseUrl", JString "https://staging.textql.com");
   ("defaultConnectorId", JNumber (Int 213));
   ("defaultCronString", JString "0 13 * * 1")].

(** Settings whose default connector is 0. *)
Definition zero_connector_settings : list (string * JSValue) :=
  [("apiKey", JString "file-key"); ("defaultConnectorId", JNumber (Int 0))].

Definition settings_file (o : list (string * JSValue)) : File :=
  Content (json_text 2 (JObject o)).

(** A settings file that is not JSON. *)
Definition broken_file_world : World :=
  accepting_world (Content "not json at all") None.

(** A settings file that holds the JSON document [null], and a key in the
    environment. *)
Definition null_file_world : World :=
  accepting_world (Content "null") (Some "env-key").

(** A server that answers 200 with an empty body. *)
Definition empty_ok_world : World :=
  sample_world NoFile None (always (http_response 200 "OK" "")).

(** Well-formed settings, and a server that lists the sample connectors. *)
Definition listing_world : World :=
  sample_world (settings_file full_settings) None
    (always (http_response 200 "OK"
               (json_text 0
                  (JObject [("connectors",
                             JArray (map Connector_to_js sample_connectors))])))).

(** A server whose connector list ends with a [null]. *)
Definition trailing_null_world : World :=
  sample_world NoFile None
    (always (http_response 200 "OK"
               (json_text 0
                  (JObject [("connectors",
                             JArray (map Connector_to_js sample_connectors
                                     ++ [JNull]))])))).

(** The arguments of an [update] invocation that leaves the prompt, the
    name and the schedule to the defaults. *)
Definition update_args : list string :=
  ["--id=weekly-users"; "--connector=7";
   "--emails=ann@example.com,bob@example.com"; "--status=STATUS_INACTIVE"].

(** A [create] invocation whose [--emails] flag has an empty value. *)
Definition empty_emails_args : list string :=
  ["--id=weekly-users"; "--prompt=SELECT 1"; "--name=Weekly users"; "--emails="].

(** The arguments of a complete [create] invocation. *)
Definition create_args : list string :=
  ["--id=weekly-users"; "--prompt=SELECT COUNT(*) FROM users";
   "--name=Weekly users"; "--emails=admin@example.com,ops@example.com"].

Section Platform.

(** [JSON.parse]: the value read, or what it throws. *)
Variable JSON_parse : string -> Thrown + JSValue.
(** [JSON.stringify(v, null, indent)]; [None] when the result is [undefined]. *)
Variable JSON_stringify : nat -> JSValue -> option string.
(** [String.prototype.toLowerCase]. *)
Variable toLowerCase : string -> string.

(** [response.json()]: the body, read and parsed. *)
Definition response_json (r : Response) : M JSValue :=
  text <- response_text r ;;
  lift (JSON_parse text).

(* ===================================================================== *)
(** ** config.ts: ConfigManager *)
(* ===================================================================== *)

Definition loadConfig : M JSValue :=
  try_catch
    (present <- existsSync ;;
     if negb present then ret (JObject [])
     else
       configData <- readFileSync ;;
       lift (JSON_parse configData))
    (fun error =>
       console_warn [CText "Failed to load config file:"; CThrown error] ;;
       ret (JObject [])).

Definition saveConfig (config : JSValue) : M unit :=
  try_catch
    (mkdirSync ;;
     writeFileSync (JSON_stringify 2 config))
    (fun error =>
       throw (JSError "Error" ("Failed to save config: " ++ thrown_to_string error))).

Definition getApiKey : M JSValue :=
  config <- loadConfig ;;
  key <- lift (get_prop config "apiKey") ;;
  env <- process_env_TEXTQL_API_KEY ;;
  ret (js_or (js_or key env) JNull).

Definition setApiKey (apiKey : string) : M unit :=
  config <- loadConfig ;;
  config' <- lift (set_prop config "apiKey" (JString apiKey)) ;;
  saveConfig config'.

Definition getBaseUrl : M JSValue :=
  config <- loadConfig ;;
  url <- lift (get_prop config "baseUrl") ;;
  ret (js_or url (JString "https://app.textql.com")).

Definition getDefaultConnectorId : M JSValue :=
  config <- loadConfig ;;
  id <- lift (get_prop config "defaultConnectorId") ;;
  ret (js_or id JNull).

Definition setDefaultConnectorId (connectorId : number) : M unit :=
  config <- loadConfig ;;
  config' <- lift (set_prop config "defaultConnectorId" (JNumber connectorId)) ;;
  saveConfig config'.

Definition getDefaultCronString : M JSValue :=
  config <- loadConfig ;;
  cron <- lift (get_prop config "defaultCronString") ;;
  ret (js_or cron (JString "0 13 * * *")).

Definition setDefaultCronString (cronString : string) : M unit :=
  config <- loadConfig ;;
  config' <- lift (set_prop config "defaultCronString" (JString cronString)) ;;
  saveConfig config'.

(* ===================================================================== *)
(** ** textql-client.ts: TextQLClient *)
(* ===================================================================== *)

Definition new_TextQLClient (config : TextQLConfig) : TextQLClient :=
  {| config := config;
     client_baseUrl := js_or (baseUrl config) (JString "https://app.textql.com") |}.

Definition makeRequest (this : TextQLClient) (endpoint method : string)
  (body : JSValue) : M TextQLResponse :=
  try_catch
    (let url := ToString (client_baseUrl this) ++ endpoint in
     let headers :=
       [("Authorization", "ApiKey " ++ ToString (apiKey (config this)));
        ("Content-Type", "application/json")] in
     response <- fetch {| req_url := url;
                          req_method := method;
                          req_headers := headers;
                          req_body := if truthy body
                                      then JSON_stringify 0 body
                                      else None |} ;;
     if negb (resp_ok response) then
       errorText <- response_text response ;;
       errorData <-
         try_catch
           (lift (JSON_parse errorText))
           (fun _ =>
              ret (JObject
                     [("message",
                       js_or (JString errorText)
                         (JString ("HTTP " ++ string_of_Z (resp_status response)
                                   ++ ": " ++ resp_statusText response)));
                      ("status", JNumber (Int (resp_status response)))])) ;;
       ret {| success := false; data := JUndefined; error := errorData |}
     else
       data <- response_json response ;;
       ret {| success := true; data := data; error := JUndefined |})
    (fun error =>
       ret {| success := false;
              data := JUndefined;
              error :=
                JObject
                  [("message",
                    JString (match error with
                             | JSError _ message => message
                             | ThrownValue _ => "Unknown error occurred"
                             end))] |}).

Definition CreatePlaybook_endpoint : string :=
  "/rpc/public/textql.rpc.public.playbook.PlaybookService/CreatePlaybook".
Definition UpdatePlaybook_endpoint : string :=
  "/rpc/public/textql.rpc.public.playbook.PlaybookService/UpdatePlaybook".
Definition GetConnectors_endpoint : string :=
  "/rpc/public/textql.rpc.public.connector.ConnectorService/GetConnectors".

Definition createPlaybook (this : TextQLClient) (playbookId : JSValue)
  : M TextQLResponse :=
  let request := JObject [("playbook", JObject [("id", playbookId)])] in
  makeRequest this CreatePlaybook_endpoint "POST" request.

Definition updatePlaybook (this : TextQLClient) (playbook : JSValue)
  : M TextQLResponse :=
  makeRequest this UpdatePlaybook_endpoint "POST" playbook.

Definition getConnectors (this : TextQLClient) : M TextQLResponse :=
  makeRequest this GetConnectors_endpoint "POST" (JObject []).

(** A destructuring default [x = d]: it applies to [undefined] only. *)
Definition default_to (d v : JSValue) : JSValue :=
  match v with
  | JUndefined => d
  | _ => v
  end.

(** The object literal [updateRequest] of [createCompletePlaybook]. *)
Definition updateRequest_of (params : CompleteParams) : JSValue :=
  JObject
    [("prompt", prompt params);
     ("name", name params);
     ("playbookId", playbookId params);
     ("emailAddresses", emailAddresses params);
     ("status", default_to (JString "STATUS_ACTIVE") (status params));
     ("paradigmType", JString "TYPE_SQL");
     ("paradigmOptions", JObject [("connectorId", connectorId params)]);
     ("triggerType", JString "TRIGGER_TYPE_CRON");
     ("cronString", default_to (JString "0 13 * * *") (cronString params))].

Definition createCompletePlaybook (this : TextQLClient) (params : CompleteParams)
  : M TextQLResponse :=
  createResult <- createPlaybook this (playbookId params) ;;
  if negb (success createResult) then
    ret {| success := false; data := JUndefined; error := error createResult |}
  else
    updatePlaybook this (updateRequest_of params).

Definition new_Error (message : JSValue) : Thrown :=
  JSError "Error" (ToString message).

Definition listConnectors (this : TextQLClient) : M JSValue :=
  result <- getConnectors this ;;
  if negb (success result) || negb (truthy (data result)) then
    throw (new_Error (js_or (opt_chain_prop (error result) "message")
                            (JString "Failed to fetch connectors")))
  else
    lift (get_prop (data result) "connectors").

(** [value.toLowerCase()]: a method of strings only. *)
Definition call_toLowerCase (value : JSValue) : Thrown + string :=
  match value with
  | JString s => inr (toLowerCase s)
  | JUndefined | JNull =>
      inl (TypeError ("Cannot read properties of " ++ ToString value
                      ++ " (reading 'toLowerCase')"))
  | _ => inl (TypeError "toLowerCase is not a function")
  end.

(** [Array.prototype.find]: the first element the callback accepts, in index
    order; a callback that throws ends the search. *)
Fixpoint array_find (callback : JSValue -> Thrown + bool) (elements : list JSValue)
  : Thrown + JSValue :=
  match elements with
  | [] => inr JUndefined
  | x :: rest =>
      match callback x with
      | inl e => inl e
      | inr true => inr x
      | inr false => array_find callback rest
      end
  end.

(** [connectors.find(callback)]: only arrays have the method. *)
Definition call_find (connectors : JSValue) (callback : JSValue -> Thrown + bool)
  : Thrown + JSValue :=
  match connectors with
  | JArray elements => array_find callback elements
  | JUndefined | JNull =>
      inl (TypeError ("Cannot read properties of " ++ ToString connectors
                      ++ " (reading 'find')"))
  | _ => inl (TypeError "find is not a function")
  end.

(** The arrow function [connector =>
    connector.name.toLowerCase().includes(name.toLowerCase())]. *)
Definition name_matches (name : string) (connector : JSValue) : Thrown + bool :=
  match get_prop connector "name" with
  | inl e => inl e
  | inr connector_name =>
      match call_toLowerCase connector_name with
      | inl e => inl e
      | inr lowered => inr (includes lowered (toLowerCase name))
      end
  end.

Definition findConnectorByName (this : TextQLClient) (name : string) : M JSValue :=
  connectors <- listConnectors this ;;
  found <- lift (call_find connectors (name_matches name)) ;;
  ret (js_or found JNull).

(* ===================================================================== *)
(** ** cli.ts: TextQLCLI *)
(* ===================================================================== *)

Definition get_cli_client : M (option TextQLClient) :=
  fun w => (Return (cli_client w), w).

Definition set_cli_client (c : option TextQLClient) : M unit :=
  fun w => (Return tt, with_cli_client c w).

(** [new TextQLCLI()]: the [client] field starts as [null]. *)
Definition new_TextQLCLI : M unit := set_cli_client None.

Definition no_api_key_message : string :=
  "❌ No API key found. Please set it using: textql config set-api-key <your-key>".

Definition initializeClient : M unit :=
  apiKey <- getApiKey ;;
  if negb (truthy apiKey) then
    console_error [CText no_api_key_message] ;;
    process_exit 1
  else
    baseUrl <- getBaseUrl ;;
    set_cli_client (Some (new_TextQLClient {| apiKey := apiKey; baseUrl := baseUrl |})).

(** Returns [this.client!]: the assertion checks nothing at run time. *)
Definition ensureClient : M (option TextQLClient) :=
  client <- get_cli_client ;;
  match client with
  | None => initializeClient
  | Some _ => ret tt
  end ;;
  get_cli_client.

(** A method call [client.method(...)] on what [ensureClient] returned. *)
Definition call_on {A : Type} (client : option TextQLClient)
  (method : TextQLClient -> M A) : M A :=
  match client with
  | Some this => method this
  | None => throw (TypeError "null is not an object")
  end.

(** [args.find(arg => arg.startsWith(prefix))?.split('=')[1]]. *)
Definition flag (args : list string) (prefix : string) : JSValue :=
  match find (fun arg => startsWith arg prefix) args with
  | Some arg =>
      match nth_error (split "=" arg) 1 with
      | Some value => JString value
      | None => JUndefined
      end
  | None => JUndefined
  end.

(** [value?.split(',')] on a flag value. *)
Definition split_commas (value : JSValue) : JSValue :=
  match value with
  | JString s => JArray (map JString (split "," s))
  | _ => JUndefined
  end.

(** [args[i]]. *)
Definition arg_at (args : list string) (i : nat) : JSValue :=
  match nth_error args i with
  | Some a => JString a
  | None => JUndefined
  end.

Definition stringified (indent : nat) (v : JSValue) : ConsoleArg :=
  match JSON_stringify indent v with
  | Some text => CText text
  | None => CValue JUndefined
  end.

Definition showHelp : M unit := console_log [CText HELP_TEXT].

Definition handleConfig (args : list string) : M unit :=
  let subcommand := arg_at args 0 in
  match subcommand with
  | JString "set-api-key" =>
      match arg_at args 1 with
      | JString apiKey =>
          if negb (truthy (JString apiKey)) then
            console_error [CText "❌ Please provide an API key"] ;;
            process_exit 1
          else
            setApiKey apiKey ;;
            console_log [CText "✅ API key saved successfully"]
      | _ =>
          console_error [CText "❌ Please provide an API key"] ;;
          process_exit 1
      end
  | JString "set-connector" =>
      match arg_at args 1 with
      | JString idArg =>
          if negb (truthy (JString idArg)) then
            console_error [CText "❌ Please provide a connector ID"] ;;
            process_exit 1
          else
            let connectorId := parseInt idArg 10 in
            if Number_isNaN connectorId then
              console_error [CText "❌ Please provide a valid connector ID"] ;;
              process_exit 1
            else
              setDefaultConnectorId connectorId ;;
              console_log [CText ("✅ Default connector ID set to "
                                  ++ number_to_string connectorId)]
      | _ =>
          console_error [CText "❌ Please provide a connector ID"] ;;
          process_exit 1
      end
  | JString "set-cron" =>
      match arg_at args 1 with
      | JString cronString =>
          if negb (truthy (JString cronString)) then
            console_error [CText "❌ Please provide a cron string"] ;;
            process_exit 1
          else
            setDefaultCronString cronString ;;
            console_log [CText ("✅ Default cron string set to " ++ cronString)]
      | _ =>
          console_error [CText "❌ Please provide a cron string"] ;;
          process_exit 1
      end
  | JString "show" =>
      config <- loadConfig ;;
      console_log [CText "📋 Current configuration:"] ;;
      console_log [stringified 2 config]
  | _ =>
      console_error [CText ("❌ Unknown config command: " ++ ToString subcommand)] ;;
      console_log [CText "Available config commands: set-api-key, set-connector, set-cron, show"] ;;
      process_exit 1
  end.

(** [x === 0]. *)
Definition is_zero (v : JSValue) : bool :=
  match v with
  | JNumber (Int 0) => true
  | _ => false
  end.

Fixpoint forEach (callback : JSValue -> M unit) (elements : list JSValue) : M unit :=
  match elements with
  | [] => ret tt
  | x :: rest => callback x ;; forEach callback rest
  end.

Definition call_forEach (value : JSValue) (callback : JSValue -> M unit) : M unit :=
  match value with
  | JArray elements => forEach callback elements
  | JUndefined | JNull =>
      throw (TypeError ("Cannot read properties of " ++ ToString value
                        ++ " (reading 'forEach')"))
  | _ => throw (TypeError "forEach is not a function")
  end.

Definition handleConnectors (args : list string) : M unit :=
  client <- ensureClient ;;
  try_catch
    (connectors <- call_on client listConnectors ;;
     length <- lift (get_prop connectors "length") ;;
     if is_zero length then
       console_log [CText "📭 No connectors found"]
     else
       console_log [CText "🔌 Available connectors:"] ;;
       call_forEach connectors
         (fun connector =>
            id <- lift (get_prop connector "id") ;;
            name <- lift (get_prop connector "name") ;;
            type <- lift (get_prop connector "type") ;;
            status <- lift (get_prop connector "status") ;;
            console_log
              [CText ("  ID: " ++ ToString id ++ " | Name: " ++ ToString name
                      ++ " | Type: " ++ ToString type
                      ++ " | Status: " ++ ToString status)]))
    (fun error =>
       console_error [CText "❌ Failed to fetch connectors:"; CThrown error] ;;
       process_exit 1).

Definition create_usage : string :=
  "textql create --id=<playbook-id> --prompt=" ++ dq ++ "<sql-query>" ++ dq ++ " --name=" ++ dq ++ "<playbook-name>" ++ dq ++ " --emails=" ++ dq ++ "email1@example.com,email2@example.com" ++ dq ++ " [--connector=<id>] [--cron=" ++ dq ++ "0 13 * * *" ++ dq ++ "]".

Definition update_usage : string :=
  "textql update --id=<playbook-id> [--prompt=" ++ dq ++ "<sql-query>" ++ dq ++ "] [--name=" ++ dq ++ "<playbook-name>" ++ dq ++ "] [--emails=" ++ dq ++ "email1@example.com,email2@example.com" ++ dq ++ "] [--connector=<id>] [--cron=" ++ dq ++ "0 13 * * *" ++ dq ++ "] [--status=STATUS_ACTIVE|STATUS_INACTIVE]".

Definition no_connector_message : string :=
  "❌ No connector ID provided and no default set. Use --connector=<id> or set a default with: textql config set-connector <id>".

(** [connectorId ? parseInt(connectorId) : this.configManager.getDefaultConnectorId()]. *)
Definition resolve_connectorId (connectorId : JSValue) : M JSValue :=
  if truthy connectorId
  then ret (JNumber (parseInt (ToString connectorId) 0))
  else getDefaultConnectorId.

(** [cronString || this.configManager.getDefaultCronString()]. *)
Definition resolve_cronString (cronString : JSValue) : M JSValue :=
  if truthy cronString then ret cronString else getDefaultCronString.

Definition handleCreate (args : list string) : M unit :=
  client <- ensureClient ;;
  let playbookId := flag args "--id=" in
  let prompt := flag args "--prompt=" in
  let name := flag args "--name=" in
  let emails := split_commas (flag args "--emails=") in
  let connectorId := flag args "--connector=" in
  let cronString := flag args "--cron=" in
  if negb (truthy playbookId) || negb (truthy prompt) || negb (truthy name)
     || negb (truthy emails) then
    console_error [CText "❌ Missing required parameters. Usage:"] ;;
    console_log [CText create_usage] ;;
    process_exit 1
  else
    connectorIdNum <- resolve_connectorId connectorId ;;
    if negb (truthy connectorIdNum) then
      console_error [CText no_connector_message] ;;
      process_exit 1
    else
      try_catch
        (cron <- resolve_cronString cronString ;;
         result <- call_on client
                     (fun this =>
                        createCompletePlaybook this
                          {| playbookId := playbookId;
                             prompt := prompt;
                             name := name;
                             emailAddresses := emails;
                             connectorId := connectorIdNum;
                             cronString := cron;
                             status := JUndefined |}) ;;
         if success result then
           console_log [CText "✅ Playbook created successfully!"] ;;
           console_log [CText "📋 Playbook details:"] ;;
           console_log [stringified 2 (data result)]
         else
           console_error [CText "❌ Failed to create playbook:";
                          CValue (opt_chain_prop (error result) "message")] ;;
           process_exit 1)
        (fun error =>
           console_error [CText "❌ Error creating playbook:"; CThrown error] ;;
           process_exit 1).

(** The [--status=] value, kept only when it is one of the two enum names. *)
Definition checked_status (statusArg : JSValue) : JSValue :=
  match statusArg with
  | JString "STATUS_ACTIVE" | JString "STATUS_INACTIVE" => statusArg
  | _ => JUndefined
  end.

(** The object literal [updateRequest] of [handleUpdate]. *)
Definition cli_updateRequest
  (playbookId prompt name emails status connectorIdNum cron : JSValue) : JSValue :=
  JObject
    [("prompt", js_or prompt (JString "SELECT 1;"));
     ("name", js_or name (JString "Updated Playbook"));
     ("playbookId", playbookId);
     ("emailAddresses", js_or emails (JArray [JString "admin@example.com"]));
     ("status", js_or status (JString "STATUS_ACTIVE"));
     ("paradigmType", JString "TYPE_SQL");
     ("paradigmOptions", JObject [("connectorId", connectorIdNum)]);
     ("triggerType", JString "TRIGGER_TYPE_CRON");
     ("cronString", cron)].

Definition handleUpdate (args : list string) : M unit :=
  client <- ensureClient ;;
  let playbookId := flag args "--id=" in
  let prompt := flag args "--prompt=" in
  let name := flag args "--name=" in
  let emails := split_commas (flag args "--emails=") in
  let connectorId := flag args "--connector=" in
  let cronString := flag args "--cron=" in
  let statusArg := flag args "--status=" in
  let status := checked_status statusArg in
  if negb (truthy playbookId) then
    console_error [CText "❌ Playbook ID is required. Usage:"] ;;
    console_log [CText update_usage] ;;
    process_exit 1
  else
    connectorIdNum <- resolve_connectorId connectorId ;;
    if negb (truthy connectorIdNum) then
      console_error [CText no_connector_message] ;;
      process_exit 1
    else
      try_catch
        (cron <- resolve_cronString cronString ;;
         let updateRequest :=
           cli_updateRequest playbookId prompt name emails status
                             connectorIdNum cron in
         result <- call_on client (fun this => updatePlaybook this updateRequest) ;;
         if success result then
           console_log [CText "✅ Playbook updated successfully!"] ;;
           console_log [CText "📋 Updated playbook details:"] ;;
           console_log [stringified 2 (data result)]
         else
           console_error [CText "❌ Failed to update playbook:";
                          CValue (opt_chain_prop (error result) "message")] ;;
           process_exit 1)
        (fun error =>
           console_error [CText "❌ Error updating playbook:"; CThrown error] ;;
           process_exit 1).

Definition run (args : list string) : M unit :=
  let command := arg_at args 0 in
  match command with
  | JString "config" => handleConfig (tl args)
  | JString "connectors" => handleConnectors (tl args)
  | JString "create" => handleCreate (tl args)
  | JString "update" => handleUpdate (tl args)
  | JString "help" | JString "--help" | JString "-h" => showHelp
  | _ =>
      console_error [CText ("❌ Unknown command: " ++ ToString command)] ;;
      showHelp ;;
      process_exit 1
  end.

(** [main] with [process.argv.slice(2)] as [args]. *)
Definition main (args : list string) : M unit :=
  try_catch
    (new_TextQLCLI ;;
     run args)
    (fun error =>
       console_error [CText "❌ Unexpected error:"; CThrown error] ;;
       process_exit 1).


(* ===================================================================== *)
(** ** Notions used to state the properties *)
(* ===================================================================== *)

(** The [fetch] argument that [makeRequest] builds. *)
Definition request_of (this : TextQLClient) (endpoint method : string)
  (body : JSValue) : Request :=
  {| req_url := ToString (client_baseUrl this) ++ endpoint;
     req_method := method;
     req_headers :=
       [("Authorization", "ApiKey " ++ ToString (apiKey (config this)));
        ("Content-Type", "application/json")];
     req_body := if truthy body then JSON_stringify 0 body else None |}.

Definition create_request (this : TextQLClient) (playbookId : JSValue) : Request :=
  request_of this CreatePlaybook_endpoint "POST"
    (JObject [("playbook", JObject [("id", playbookId)])]).

Definition update_request (this : TextQLClient) (playbook : JSValue) : Request :=
  request_of this UpdatePlaybook_endpoint "POST" playbook.

(** The error object built from a caught transport failure. *)
Definition caught_error (e : Thrown) : JSValue :=
  JObject [("message",
            JString (match e with
                     | JSError _ message => message
                     | ThrownValue _ => "Unknown error occurred"
                     end))].

(** The error object synthesised when an error body is not JSON. *)
Definition fallback_error (r : Response) (errorText : string) : JSValue :=
  JObject
    [("message",
      JString (if (errorText =? "")%string
               then "HTTP " ++ string_of_Z (resp_status r) ++ ": " ++ resp_statusText r
               else errorText));
     ("status", JNumber (Int (resp_status r)))].

Definition failure (e : JSValue) : TextQLResponse :=
  {| success := false; data := JUndefined; error := e |}.

(** An error value carries a message: its [message] is a non-empty string. *)
Definition has_message (e : JSValue) : bool :=
  match opt_chain_prop e "message" with
  | JString m => negb (m =? "")%string
  | _ => false
  end.

(** The requests a computation adds when started in [w]. *)
Definition requests_after {A : Type} (m : M A) (w : World) : list Request :=
  requests (snd (m w)).

(** The manual two-step path: a create call followed by an update call. *)
Definition manual_create_then_update (this : TextQLClient) (params : CompleteParams)
  : M TextQLResponse :=
  createPlaybook this (playbookId params) ;;
  updatePlaybook this (updateRequest_of params).

(** [t] occurs in [s]. *)
Definition is_substring (t s : string) : Prop :=
  exists before after, s = before ++ t ++ after.

(** [s] contains [t] as a substring when case is ignored, that is, after
    both are lower-cased. *)
Definition contains_ignoring_case (s t : string) : Prop :=
  is_substring (toLowerCase t) (toLowerCase s).

(** What reading and parsing the settings file gives. *)
Definition read_settings (f : File) : Thrown + JSValue :=
  match f with
  | NoFile => inr (JObject [])
  | Unreadable e => inl e
  | Content text => JSON_parse text
  end.

(** The persisted settings are the record [o]: the file parses to it, or
    there is no file and the record is empty. *)
Definition persisted (w : World) (o : list (string * JSValue)) : Prop :=
  read_settings (config_file w) = inr (JObject o).

Definition env_value (w : World) : JSValue :=
  match TEXTQL_API_KEY w with
  | Some s => JString s
  | None => JUndefined
  end.

(** An optional string property of a record. *)
Definition optional_string (v : option string) : JSValue :=
  match v with
  | Some s => JString s
  | None => JUndefined
  end.

(** The Result that [makeRequest] resolves to, as a function of what the
    transport did. *)
Definition response_result (out : FetchOutcome) : TextQLResponse :=
  match out with
  | Rejects e => failure (caught_error e)
  | Resolves r =>
      match resp_text r with
      | inl e => failure (caught_error e)
      | inr text =>
          if resp_ok r then
            match JSON_parse text with
            | inr v => {| success := true; data := v; error := JUndefined |}
            | inl e => failure (caught_error e)
            end
          else
            match JSON_parse text with
            | inr v => failure v
            | inl _ => failure (fallback_error r text)
            end
      end
  end.

(** The message of the failure [listConnectors] raises for a Result. *)
Definition connectors_failure_message (result : TextQLResponse) : string :=
  ToString (js_or (opt_chain_prop (error result) "message")
                  (JString "Failed to fetch connectors")).

(** The test of the search, on a typed connector. *)
Definition connector_matches (name : string) (c : Connector) : bool :=
  includes (toLowerCase (connector_name c)) (toLowerCase name).

(** The three set-operations of [ConfigManager], the field each one
    assigns and the value it assigns. *)
Inductive SetOperation : Type :=
| SetApiKey (apiKey : string)
| SetDefaultConnectorId (connectorId : number)
| SetDefaultCronString (cronString : string).

Definition perform (op : SetOperation) : M unit :=
  match op with
  | SetApiKey apiKey => setApiKey apiKey
  | SetDefaultConnectorId connectorId => setDefaultConnectorId connectorId
  | SetDefaultCronString cronString => setDefaultCronString cronString
  end.

Definition field_of (op : SetOperation) : string :=
  match op with
  | SetApiKey _ => "apiKey"
  | SetDefaultConnectorId _ => "defaultConnectorId"
  | SetDefaultCronString _ => "defaultCronString"
  end.

Definition value_of (op : SetOperation) : JSValue :=
  match op with
  | SetApiKey apiKey => JString apiKey
  | SetDefaultConnectorId connectorId => JNumber connectorId
  | SetDefaultCronString cronString => JString cronString
  end.

(** The first of two optional strings that is present and not empty. *)
Definition first_nonempty (a b : option string) : JSValue :=
  match a with
  | Some (String c s) => JString (String c s)
  | _ =>
      match b with
      | Some (String c s) => JString (String c s)
      | _ => JNull
      end
  end.

(** What [loadConfig] returns: the parsed file, or the empty record when
    the file is missing, unreadable or not JSON. *)
Definition loaded_config (w : World) : JSValue :=
  match read_settings (config_file w) with
  | inr v => v
  | inl _ => JObject []
  end.

(** The persisted settings carry no API key. *)
Definition no_persisted_apiKey (w : World) : Prop :=
  match get_prop (loaded_config w) "apiKey" with
  | inr key => truthy key = false
  | inl _ => True
  end.

(** The commands that need the client. *)
Definition requires_client (command : string) : Prop :=
  command = "connectors" \/ command = "create" \/ command = "update".

(** The API key, from the record [o] of persisted settings or from the
    environment. *)
Definition resolved_apiKey (o : list (string * JSValue)) (w : World) : JSValue :=
  js_or (js_or (assoc_get "apiKey" o) (env_value w)) JNull.

(** The client the CLI constructs from the persisted settings [o]. *)
Definition configured_client (o : list (string * JSValue)) (w : World)
  : TextQLClient :=
  new_TextQLClient
    {| apiKey := resolved_apiKey o w;
       baseUrl := js_or (assoc_get "baseUrl" o) (JString "https://app.textql.com") |}.

(** The connector id of an invocation: the [--connector=] flag when given,
    the persisted default otherwise. *)
Definition resolved_connector (connectorFlag : JSValue)
  (o : list (string * JSValue)) : JSValue :=
  if truthy connectorFlag
  then JNumber (parseInt (ToString connectorFlag) 0)
  else js_or (assoc_get "defaultConnectorId" o) JNull.

(** The cron string of an invocation: the [--cron=] flag when given, the
    persisted default otherwise, the hardcoded default last. *)
Definition resolved_cron (cronFlag : JSValue) (o : list (string * JSValue))
  : JSValue :=
  if truthy cronFlag
  then cronFlag
  else js_or (assoc_get "defaultCronString" o) (JString "0 13 * * *").

(** The connector id of an invocation is 0, from the flag or from the
    persisted default. *)
Definition connector_resolves_to_zero (connectorFlag : JSValue)
  (o : list (string * JSValue)) : Prop :=
  (truthy connectorFlag = true
   /\ parseInt (ToString connectorFlag) 0 = Int 0)
  \/ (truthy connectorFlag = false
      /\ assoc_get "defaultConnectorId" o = JNumber (Int 0)).

(** The payload the [update] command submits for [args] under the persisted
    settings [o]. *)
Definition update_payload (args : list string) (o : list (string * JSValue))
  : JSValue :=
  cli_updateRequest
    (flag args "--id=") (flag args "--prompt=") (flag args "--name=")
    (split_commas (flag args "--emails="))
    (checked_status (flag args "--status="))
    (resolved_connector (flag args "--connector=") o)
    (resolved_cron (flag args "--cron=") o).

(** The property names of an [UpdatePlaybookRequest]. *)
Definition UpdatePlaybookRequest_fields : list string :=
  ["prompt"; "name"; "playbookId"; "emailAddresses"; "status"; "paradigmType";
   "paradigmOptions"; "triggerType"; "cronString"].

(** A computation that issues no request, however it ends. *)
Definition quiet {A : Type} (m : M A) : Prop :=
  forall w, requests (snd (m w)) = requests w.

(** A computation that leaves the settings file as it is. *)
Definition keeps_file {A : Type} (m : M A) : Prop :=
  forall w, config_file (snd (m w)) = config_file w.

(** The [default] branch of [run]. *)
Definition unknown_command (command : JSValue) : M unit :=
  console_error [CText ("❌ Unknown command: " ++ ToString command)] ;;
  showHelp ;;
  process_exit 1.

(** The console call [loadConfig] makes when the file cannot be loaded. *)
Definition load_warning (e : Thrown) : ConsoleCall :=
  console_warn_call [CText "Failed to load config file:"; CThrown e].

(** What is left of a stored value once the settings file has been written
    and read again: JSON has no notation for [NaN] and the infinities, which
    [JSON.stringify] writes as [null]. *)
Definition as_stored (v : JSValue) : JSValue :=
  match v with
  | JNumber NaN | JNumber (Infinity _) => JNull
  | _ => v
  end.

(** What the getter of the field of a set-operation returns, and its value
    once that operation has stored its argument: an empty string, a zero or a
    number that is not finite reads back as the fallback of the getter. *)
Definition getter_of (op : SetOperation) : M JSValue :=
  match op with
  | SetApiKey _ => getApiKey
  | SetDefaultConnectorId _ => getDefaultConnectorId
  | SetDefaultCronString _ => getDefaultCronString
  end.

Definition read_back (op : SetOperation) (w : World) : JSValue :=
  match op with
  | SetApiKey apiKey => first_nonempty (Some apiKey) (TEXTQL_API_KEY w)
  | SetDefaultConnectorId NaN | SetDefaultConnectorId (Infinity _) => JNull
  | SetDefaultConnectorId (Int z) => if z =? 0 then JNull else JNumber (Int z)
  | SetDefaultCronString cronString =>
      JString (if (cronString =? "")%string then "0 13 * * *" else cronString)
  end.

(** A request as the client sends them: a [POST] to one of the three service
    endpoints under the client's base URL, with the API key and the JSON
    content type in its headers. *)
Definition client_request (this : TextQLClient) (r : Request) : Prop :=
  req_method r = "POST"
  /\ req_headers r
     = [("Authorization", "ApiKey " ++ ToString (apiKey (config this)));
        ("Content-Type", "application/json")]
  /\ exists endpoint,
       In endpoint [CreatePlaybook_endpoint; UpdatePlaybook_endpoint;
                    GetConnectors_endpoint]
       /\ req_url r = ToString (client_baseUrl this) ++ endpoint.

(** The request of [getConnectors]. *)
Definition connectors_request (this : TextQLClient) : Request :=
  request_of this GetConnectors_endpoint "POST" (JObject []).

(** A computation that only adds such requests to the log, between [least]
    and [most] of them. *)
Definition sends_client_requests {A : Type} (this : TextQLClient)
  (least most : nat) (m : M A) : Prop :=
  forall w,
    exists sent,
      requests (snd (m w)) = (requests w ++ sent)%list
      /\ Forall (client_request this) sent
      /\ (least <= List.length sent <= most)%nat.

(** The line [handleConnectors] prints for a connector. *)
Definition connector_line (c : Connector) : ConsoleCall :=
  console_log_call
    [CText ("  ID: " ++ number_to_string (Int (connector_id c))
            ++ " | Name: " ++ connector_name c
            ++ " | Type: " ++ connector_type c
            ++ " | Status: " ++ connector_status c)].

(** What [handleConnectors] prints for a list of connectors. *)
Definition connectors_listing (cs : list Connector) : list ConsoleCall :=
  match cs with
  | [] => [console_log_call [CText "📭 No connectors found"]]
  | _ => console_log_call [CText "🔌 Available connectors:"] :: map connector_line cs
  end.

(** A command of the CLI that does not need the client. *)
Definition needs_no_client (args : list string) : Prop :=
  match args with
  | [] => True
  | command :: _ => ~ requires_client command
  end.

(** The argument of a [config set-...] subcommand is missing or empty. *)
Definition argument_missing (rest : list string) : Prop :=
  rest = [] \/ exists more, rest = "" :: more.

(** The parameter object [handleCreate] passes to [createCompletePlaybook]
    for [args] under the persisted settings [o]. *)
Definition create_params (args : list string) (o : list (string * JSValue))
  : CompleteParams :=
  {| playbookId := flag args "--id=";
     prompt := flag args "--prompt=";
     name := flag args "--name=";
     emailAddresses := split_commas (flag args "--emails=");
     connectorId := resolved_connector (flag args "--connector=") o;
     cronString := resolved_cron (flag args "--cron=") o;
     status := JUndefined |}.

(** All four flags that [create] requires are there. *)
Definition required_flags_given (args : list string) : bool :=
  truthy (flag args "--id=") && truthy (flag args "--prompt=")
  && truthy (flag args "--name=")
  && truthy (split_commas (flag args "--emails=")).

(** The decimal numeral of a sequence of digits, most significant first, and
    the integer it denotes. *)
Fixpoint numeral (digits : list Z) : string :=
  match digits with
  | [] => EmptyString
  | d :: r => String (ascii_of_nat (Z.to_nat (48 + d))) (numeral r)
  end.



(** A flag that is not among the arguments, or that has nothing after its
    [=]. *)
Definition missing_or_empty (args : list string) (prefix : string) : Prop :=
  flag args prefix = JUndefined \/ flag args prefix = JString "".

(** The characters of [s] before the first [sep]. *)
Fixpoint take_until (sep : ascii) (s : string) : string :=
  match s with
  | EmptyString => EmptyString
  | String c r => if Ascii.eqb c sep then EmptyString else String c (take_until sep r)
  end.

(** [s] has no character [c]. *)
Fixpoint lacks (c : ascii) (s : string) : bool :=
  match s with
  | EmptyString => true
  | String d r => negb (Ascii.eqb d c) && lacks c r
  end.

(* ===================================================================== *)
(** ** Basic facts *)
(* ===================================================================== *)

(** A [match] on string literals, taken apart character by character. *)
Ltac destruct_matched_string :=
  repeat match goal with
         | |- context [match ?s with EmptyString => _ | String _ _ => _ end] =>
             is_var s; destruct s
         | |- context [match ?a with Ascii _ _ _ _ _ _ _ _ => _ end] =>
             is_var a; destruct a
         | |- context [match ?b with true => _ | false => _ end] =>
             is_var b; destruct b
         end.

Lemma with_console_same (w : World) : with_console (console w) w = w.
Proof. destruct w; reflexivity. Qed.

Lemma js_or_text_fallback (text alt : string) :
  js_or (JString text) (JString alt)
  = JString (if (text =? "")%string then alt else text).
Proof.
  unfold js_or; simpl. destruct (text =? "")%string; reflexivity.
Qed.

(** [makeRequest] issues exactly one [fetch], always resolves to a Result,
    and that Result is [response_result] of the transport's outcome. *)
Lemma makeRequest_spec (this : TextQLClient) (endpoint method : string)
  (body : JSValue) (w : World) :
  makeRequest this endpoint method body w =
  (Return (response_result
             (network w (requests w) (request_of this endpoint method body))),
   with_requests (requests w ++ [request_of this endpoint method body]) w).
Proof.
  unfold makeRequest, try_catch, bind, fetch, response_json, response_text,
    request_of, response_result, failure, fallback_error, caught_error.
  destruct (network w (requests w) _) as [e | r]; simpl; [reflexivity |].
  destruct (resp_ok r); simpl.
  - destruct (resp_text r) as [e | text]; simpl; [reflexivity |].
    unfold bind; simpl. destruct (JSON_parse text); reflexivity.
  - destruct (resp_text r) as [e | text]; simpl; [reflexivity |].
    destruct (JSON_parse text); simpl; [| reflexivity].
    rewrite js_or_text_fallback. reflexivity.
Qed.

Lemma createPlaybook_spec (this : TextQLClient) (playbookId : JSValue) (w : World) :
  createPlaybook this playbookId w =
  (Return (response_result
             (network w (requests w) (create_request this playbookId))),
   with_requests (requests w ++ [create_request this playbookId]) w).
Proof. unfold createPlaybook, create_request. apply makeRequest_spec. Qed.

Lemma updatePlaybook_spec (this : TextQLClient) (playbook : JSValue) (w : World) :
  updatePlaybook this playbook w =
  (Return (response_result
             (network w (requests w) (update_request this playbook))),
   with_requests (requests w ++ [update_request this playbook]) w).
Proof. unfold updatePlaybook, update_request. apply makeRequest_spec. Qed.

Lemma getConnectors_spec (this : TextQLClient) (w : World) :
  getConnectors this w =
  (Return (response_result
             (network w (requests w)
                (request_of this GetConnectors_endpoint "POST" (JObject [])))),
   with_requests
     (requests w ++ [request_of this GetConnectors_endpoint "POST" (JObject [])]) w).
Proof. unfold getConnectors. apply makeRequest_spec. Qed.

(* ===================================================================== *)
(** ** The composite workflow *)
(* ===================================================================== *)

(** C1.  [createCompletePlaybook] first calls [createPlaybook] with
    [params.playbookId], which issues the create request and resolves to a
    Result.  If that Result has [success: false], the composite returns a
    failure Result carrying the creation error and the create request is the
    only request issued: [updatePlaybook] is not invoked.  If it has
    [success: true], the composite is the [updatePlaybook] call on the
    payload built from [params], and returns that call's Result as it is.
    The payload takes [cronString] from [params] or ['0 13 * * *'] when
    absent, [status] from [params] or [STATUS_ACTIVE] when absent,
    [paradigmType] [TYPE_SQL], [triggerType] [TRIGGER_TYPE_CRON], and
    [connectorId] inside [paradigmOptions]. *)
Theorem createCompletePlaybook_create_then_update
  (this : TextQLClient) (params : CompleteParams) (w : World) :
  exists (createResult : TextQLResponse) (w1 : World),
    createPlaybook this (playbookId params) w = (Return createResult, w1)
    /\ requests w1 = (requests w ++ [create_request this (playbookId params)])%list
    /\ createCompletePlaybook this params w =
       (if success createResult
        then updatePlaybook this (updateRequest_of params) w1
        else (Return {| success := false;
                        data := JUndefined;
                        error := error createResult |}, w1))
    /\ requests_after (createCompletePlaybook this params) w =
       (requests w
        ++ create_request this (playbookId params)
           :: (if success createResult
               then [update_request this (updateRequest_of params)]
               else []))%list
    /\ updateRequest_of params =
       JObject
         [("prompt", prompt params);
          ("name", name params);
          ("playbookId", playbookId params);
          ("emailAddresses", emailAddresses params);
          ("status", match status params with
                     | JUndefined => JString "STATUS_ACTIVE"
                     | given => given
                     end);
          ("paradigmType", JString "TYPE_SQL");
          ("paradigmOptions", JObject [("connectorId", connectorId params)]);
          ("triggerType", JString "TRIGGER_TYPE_CRON");
          ("cronString", match cronString params with
                         | JUndefined => JString "0 13 * * *"
                         | given => given
                         end)].
Proof.
  pose (createResult :=
          response_result
            (network w (requests w) (create_request this (playbookId params)))).
  exists createResult,
    (with_requests (requests w ++ [create_request this (playbookId params)]) w).
  split; [apply createPlaybook_spec |].
  split; [reflexivity |].
  unfold requests_after, createCompletePlaybook, bind.
  rewrite createPlaybook_spec. fold createResult.
  repeat split.
  - destruct (success createResult); reflexivity.
  - destruct (success createResult); simpl.
    + rewrite updatePlaybook_spec; simpl. rewrite <- app_assoc. reflexivity.
    + reflexivity.
  - unfold updateRequest_of, default_to.
    destruct (status params), (cronString params); reflexivity.
Qed.

(** C3.  When the create step succeeds, [createCompletePlaybook] and the
    manual two-step path (a [createPlaybook] call followed by an
    [updatePlaybook] call with the same field values, the composite's
    defaults applied) are the same computation: same requests in the same
    order, same Result, same final state; as the transport is a function of
    the requests it has received, the server sees the same thing.  When the
    create step fails, the composite issues the create request only, and the
    manual path issues the update request after it. *)
Theorem composite_matches_manual_after_successful_create
  (this : TextQLClient) (params : CompleteParams) (w : World) :
  exists (createResult : TextQLResponse) (w1 : World),
    createPlaybook this (playbookId params) w = (Return createResult, w1)
    /\ (success createResult = true ->
        createCompletePlaybook this params w
        = manual_create_then_update this params w
        /\ requests_after (createCompletePlaybook this params) w
           = (requests w ++ [create_request this (playbookId params);
                             update_request this (updateRequest_of params)])%list)
    /\ (success createResult = false ->
        requests_after (createCompletePlaybook this params) w
        = (requests w ++ [create_request this (playbookId params)])%list
        /\ requests_after (manual_create_then_update this params) w
           = (requests w ++ [create_request this (playbookId params);
                             update_request this (updateRequest_of params)])%list).
Proof.
  pose (createResult :=
          response_result
            (network w (requests w) (create_request this (playbookId params)))).
  exists createResult,
    (with_requests (requests w ++ [create_request this (playbookId params)]) w).
  split; [apply createPlaybook_spec |].
  unfold requests_after, createCompletePlaybook, manual_create_then_update, bind.
  rewrite createPlaybook_spec. fold createResult.
  split; intros Hsuccess; rewrite Hsuccess; simpl.
  - rewrite updatePlaybook_spec; simpl. rewrite <- app_assoc.
    split; reflexivity.
  - rewrite updatePlaybook_spec; simpl. rewrite <- app_assoc.
    split; reflexivity.
Qed.

(* ===================================================================== *)
(** ** The request contract *)
(* ===================================================================== *)

Lemma has_message_fallback_error (r : Response) (text : string) :
  has_message (fallback_error r text) = true.
Proof.
  unfold has_message, fallback_error, opt_chain_prop; simpl.
  destruct text; reflexivity.
Qed.

Lemma has_message_caught_error (e : Thrown) :
  has_message (caught_error e)
  = match e with
    | JSError _ message => negb (message =? "")%string
    | ThrownValue _ => true
    end.
Proof. destruct e; reflexivity. Qed.

(** C2.  [makeRequest], and so [createPlaybook],
    [updatePlaybook] and [getConnectors], never raises: it issues one
    request and resolves to a Result.  For a response with a non-success
    status, whatever the status code, the Result is [{success: false, error}]:
    when the body is not valid JSON (malformed or empty), [error.message] is
    a non-empty string, the body text or ['HTTP <status>: <statusText>'] for
    an empty body; when the body is valid JSON, [error] is the parsed value
    as it is, with whatever [message] the server put in it.  For a transport
    exception (a rejected [fetch], a body that cannot be read, a success
    body that does not parse), the Result is [{success: false, error}] with
    [error.message] the message of the [Error] caught, which is non-empty
    exactly when that message is, or ['Unknown error occurred'] when the
    value caught is not an [Error]. *)
Theorem makeRequest_failures_become_results
  (this : TextQLClient) (endpoint method : string) (body : JSValue) (w : World) :
  exists result : TextQLResponse,
    makeRequest this endpoint method body w
    = (Return result,
       with_requests (requests w ++ [request_of this endpoint method body]) w)
    /\ (forall r text,
          network w (requests w) (request_of this endpoint method body) = Resolves r ->
          resp_ok r = false ->
          resp_text r = inr text ->
          match JSON_parse text with
          | inl _ =>
              result = failure (fallback_error r text)
              /\ has_message (error result) = true
          | inr parsed => result = failure parsed
          end)
    /\ (forall e,
          network w (requests w) (request_of this endpoint method body) = Rejects e
          \/ (exists r,
                network w (requests w) (request_of this endpoint method body)
                = Resolves r
                /\ (resp_text r = inl e
                    \/ exists text, resp_ok r = true /\ resp_text r = inr text
                                    /\ JSON_parse text = inl e)) ->
          result = failure (caught_error e)
          /\ has_message (error result)
             = match e with
               | JSError _ message => negb (message =? "")%string
               | ThrownValue _ => true
               end)
    /\ (forall playbookId,
          createPlaybook this playbookId
          = makeRequest this CreatePlaybook_endpoint "POST"
              (JObject [("playbook", JObject [("id", playbookId)])]))
    /\ (forall playbook,
          updatePlaybook this playbook
          = makeRequest this UpdatePlaybook_endpoint "POST" playbook)
    /\ getConnectors this
       = makeRequest this GetConnectors_endpoint "POST" (JObject []).
Proof.
  eexists. split; [apply makeRequest_spec |].
  split; [| split; [| repeat split]].
  - intros r text Hnet Hok Htext.
    rewrite Hnet; unfold response_result; rewrite Htext, Hok.
    destruct (JSON_parse text); [| reflexivity].
    split; [reflexivity | apply has_message_fallback_error].
  - intros e [Hnet | (r & Hnet & [Htext | (text & Hok & Htext & Hparse)])];
      rewrite Hnet; unfold response_result.
    + split; [reflexivity | apply has_message_caught_error].
    + rewrite Htext. split; [reflexivity | apply has_message_caught_error].
    + rewrite Htext, Hok, Hparse.
      split; [reflexivity | apply has_message_caught_error].
Qed.

(* ===================================================================== *)
(** ** Connectors *)
(* ===================================================================== *)

Lemma listConnectors_spec (this : TextQLClient) (w : World) :
  listConnectors this w =
  let result :=
    response_result
      (network w (requests w)
         (request_of this GetConnectors_endpoint "POST" (JObject []))) in
  let w1 :=
    with_requests
      (requests w ++ [request_of this GetConnectors_endpoint "POST" (JObject [])]) w in
  if negb (success result) || negb (truthy (data result))
  then (Throw (JSError "Error" (connectors_failure_message result)), w1)
  else lift (get_prop (data result) "connectors") w1.
Proof.
  unfold listConnectors, bind. rewrite getConnectors_spec. cbv zeta.
  destruct (negb _ || negb _); reflexivity.
Qed.

Lemma prefix_is_append (t s : string) :
  String.prefix t s = true <-> exists after, s = t ++ after.
Proof.
  revert s; induction t as [| c t IH]; intros s; simpl.
  - split; [intros _; exists s; reflexivity | intros _; destruct s; reflexivity].
  - destruct s as [| d s]; simpl.
    + split; [discriminate | intros [after H]; discriminate].
    + destruct (Ascii.ascii_dec c d) as [-> | Hne].
      * rewrite IH. split; intros [after H]; exists after.
        -- rewrite H; reflexivity.
        -- injection H as H; exact H.
      * split; [discriminate |].
        intros [after H]. injection H as Hc _. congruence.
Qed.

(** [includes] decides occurrence as a substring. *)
Lemma includes_is_substring (s t : string) :
  includes s t = true <-> is_substring t s.
Proof.
  unfold is_substring.
  induction s as [| c s IH]; cbn [includes].
  - rewrite orb_false_r. rewrite prefix_is_append.
    split.
    + intros [after H]. exists EmptyString, after. exact H.
    + intros (before & after & H).
      destruct before; simpl in H; [exists after; exact H | discriminate].
  - rewrite orb_true_iff. rewrite prefix_is_append. rewrite IH.
    split.
    + intros [[after H] | (before & after & H)].
      * exists EmptyString, after. exact H.
      * exists (String c before), after. simpl. rewrite H. reflexivity.
    + intros (before & after & H).
      destruct before as [| b before]; simpl in H.
      * left. exists after. exact H.
      * right. injection H as _ H. exists before, after. exact H.
Qed.

Lemma connector_matches_spec (name : string) (c : Connector) :
  connector_matches name c = true
  <-> contains_ignoring_case (connector_name c) name.
Proof. apply includes_is_substring. Qed.

Lemma name_matches_typed (name : string) (c : Connector) :
  name_matches name (Connector_to_js c) = inr (connector_matches name c).
Proof. reflexivity. Qed.

(** On a well-typed connector array the search does not throw, and it is the
    first-match search of the typed list. *)
Lemma array_find_typed (name : string) (cs : list Connector) :
  array_find (name_matches name) (map Connector_to_js cs)
  = inr (match find (connector_matches name) cs with
         | Some c => Connector_to_js c
         | None => JUndefined
         end).
Proof.
  induction cs as [| c cs IH]; cbn [array_find map find]; [reflexivity |].
  rewrite name_matches_typed.
  destruct (connector_matches name c); [reflexivity | exact IH].
Qed.

Lemma find_first (A : Type) (p : A -> bool) (l : list A) :
  match find p l with
  | Some x =>
      exists before after,
        l = (before ++ x :: after)%list
        /\ p x = true
        /\ Forall (fun y => p y = false) before
  | None => Forall (fun y => p y = false) l
  end.
Proof.
  induction l as [| a l IH]; simpl; [constructor |].
  destruct (p a) eqn:Ha.
  - exists [], l. repeat split; [exact Ha | constructor].
  - destruct (find p l) as [x |].
    + destruct IH as (before & after & -> & Hx & Hbefore).
      exists (a :: before), after.
      repeat split; [exact Hx | constructor; assumption].
    + constructor; assumption.
Qed.

Lemma findConnectorByName_typed (this : TextQLClient) (name : string)
  (cs : list Connector) (w w1 : World) :
  listConnectors this w = (Return (JArray (map Connector_to_js cs)), w1) ->
  findConnectorByName this name w
  = (Return (match find (connector_matches name) cs with
             | Some c => Connector_to_js c
             | None => JNull
             end), w1).
Proof.
  intros Hlist. unfold findConnectorByName, bind. rewrite Hlist.
  unfold call_find. rewrite array_find_typed. simpl.
  destruct (find (connector_matches name) cs); reflexivity.
Qed.

Lemma array_find_app_typed (name : string) (cs : list Connector)
  (rest : list JSValue) :
  array_find (name_matches name) (map Connector_to_js cs ++ rest)
  = match find (connector_matches name) cs with
    | Some c => inr (Connector_to_js c)
    | None => array_find (name_matches name) rest
    end.
Proof.
  induction cs as [| c cs IH]; cbn [array_find map find app]; [reflexivity |].
  rewrite name_matches_typed.
  destruct (connector_matches name c); [reflexivity | exact IH].
Qed.

Lemma find_all_rejected (A : Type) (p : A -> bool) (l : list A) :
  Forall (fun y => p y = false) l -> find p l = None.
Proof.
  intros Hl. induction Hl as [| y l Hy _ IH]; simpl; [reflexivity |].
  rewrite Hy. exact IH.
Qed.

Lemma findConnectorByName_propagates (this : TextQLClient) (name : string)
  (e : Thrown) (w w1 : World) :
  listConnectors this w = (Throw e, w1) ->
  findConnectorByName this name w = (Throw e, w1).
Proof.
  intros Hlist. unfold findConnectorByName, bind. rewrite Hlist. reflexivity.
Qed.

(** C4.  [listConnectors] calls [getConnectors], which resolves to a Result.
    Whenever that Result has [success: false] or carries no data,
    [listConnectors] raises an [Error] whose message is the Result's error
    message, or the fixed message ['Failed to fetch connectors'] when the
    Result has no (or an empty) error message.  On a successful Result it
    returns the [connectors] property of the data as it is: the bare
    sequence of connectors when the server sent one, [undefined] when the
    data has no such property.  It never ends the process.
    [findConnectorByName] raises the same failure whenever [listConnectors]
    raises, and returns whenever [listConnectors] returns a sequence of
    connectors.  It also raises where [listConnectors] does not: a
    [TypeError] of its own when what [listConnectors] returned is not an
    array, or when the array holds a [null] or [undefined] that the search
    reaches before a connector that matches. *)
Theorem listConnectors_raises_where_Result_fails
  (this : TextQLClient) (w : World) :
  exists (result : TextQLResponse) (w1 : World),
    getConnectors this w = (Return result, w1)
    /\ (success result = false \/ truthy (data result) = false ->
        listConnectors this w
        = (Throw (JSError "Error" (connectors_failure_message result)), w1)
        /\ (forall m, opt_chain_prop (error result) "message" = JString m ->
                      m <> "" -> connectors_failure_message result = m)
        /\ (truthy (opt_chain_prop (error result) "message") = false ->
            connectors_failure_message result = "Failed to fetch connectors"))
    /\ (forall o, success result = true -> data result = JObject o ->
        listConnectors this w = (Return (assoc_get "connectors" o), w1))
    /\ (success result = true -> truthy (data result) = true ->
        listConnectors this w
        = (Return (opt_chain_prop (data result) "connectors"), w1))
    /\ (forall code w', listConnectors this w <> (Exit code, w'))
    /\ (forall name,
          (forall e w', listConnectors this w = (Throw e, w') ->
                        findConnectorByName this name w = (Throw e, w'))
          /\ (forall cs w',
                listConnectors this w
                = (Return (JArray (map Connector_to_js cs)), w') ->
                exists found,
                  findConnectorByName this name w = (Return found, w'))
          /\ (forall v w',
                listConnectors this w = (Return v, w') ->
                (forall elements, v <> JArray elements) ->
                exists message,
                  findConnectorByName this name w
                  = (Throw (TypeError message), w'))
          /\ (forall cs hole rest w',
                listConnectors this w
                = (Return (JArray (map Connector_to_js cs ++ hole :: rest)), w') ->
                hole = JNull \/ hole = JUndefined ->
                Forall (fun c => ~ contains_ignoring_case (connector_name c) name)
                       cs ->
                exists message,
                  findConnectorByName this name w
                  = (Throw (TypeError message), w'))).
Proof.
  eexists. eexists. split; [apply getConnectors_spec |].
  pose proof (listConnectors_spec this w) as Hspec. cbv zeta in Hspec.
  set (result := response_result _) in *.
  set (w1 := with_requests _ w) in *.
  split; [| split; [| split; [| split; [| intros name0; split; [| split; [| split]]]]]].
  - intros Hfail. rewrite Hspec. repeat split.
    + destruct Hfail as [H | H]; rewrite H; simpl; [reflexivity |].
      rewrite orb_true_r. reflexivity.
    + intros m Hm Hne. unfold connectors_failure_message, js_or.
      rewrite Hm. simpl.
      destruct (m =? "")%string eqn:E; [| reflexivity].
      apply String.eqb_eq in E. contradiction.
    + intros Hm. unfold connectors_failure_message, js_or. rewrite Hm.
      reflexivity.
  - intros o Hs Hd. rewrite Hspec, Hs, Hd. reflexivity.
  - intros Hs Hd. rewrite Hspec, Hs, Hd. cbn [negb orb].
    destruct (data result); try discriminate Hd; reflexivity.
  - intros code w'. rewrite Hspec.
    destruct (negb _ || negb _); [discriminate |].
    unfold lift. destruct (get_prop _ _); discriminate.
  - intros e w'. apply findConnectorByName_propagates.
  - intros cs w' Hlist. eexists. apply findConnectorByName_typed. exact Hlist.
  - intros v w' Hlist Hshape. unfold findConnectorByName, bind. rewrite Hlist.
    destruct v; try (eexists; reflexivity).
    exfalso. exact (Hshape _ eq_refl).
  - intros cs hole rest w' Hlist Hhole Hnone.
    unfold findConnectorByName, bind. rewrite Hlist.
    cbn [call_find]. rewrite array_find_app_typed.
    rewrite (find_all_rejected _ (connector_matches name0) cs).
    + destruct Hhole as [-> | ->]; eexists; reflexivity.
    + eapply Forall_impl; [| exact Hnone].
      intros c Hc. destruct (connector_matches name0 c) eqn:E; [| reflexivity].
      exfalso. apply Hc. apply connector_matches_spec. exact E.
Qed.

(** C5.  For every [name] and every connector list that [listConnectors]
    returns, [findConnectorByName(name)] returns the first connector in list
    order whose name contains [name] as a substring when case is ignored: no
    connector before it in the list matches, whatever comes after it.  When
    no connector matches it returns [null]. *)
Theorem findConnectorByName_returns_first_match
  (this : TextQLClient) (name : string) (cs : list Connector) (w w1 : World)
  (Hlist : listConnectors this w
           = (Return (JArray (map Connector_to_js cs)), w1)) :
  (exists before c after,
      cs = (before ++ c :: after)%list
      /\ contains_ignoring_case (connector_name c) name
      /\ Forall (fun c' => ~ contains_ignoring_case (connector_name c') name)
                before
      /\ findConnectorByName this name w = (Return (Connector_to_js c), w1))
  \/ (Forall (fun c' => ~ contains_ignoring_case (connector_name c') name) cs
      /\ findConnectorByName this name w = (Return JNull, w1)).
Proof.
  rewrite (findConnectorByName_typed this name cs w w1 Hlist).
  assert (Hno : forall l,
             Forall (fun y => connector_matches name y = false) l ->
             Forall (fun c' => ~ contains_ignoring_case (connector_name c') name) l).
  { intros l Hl. eapply Forall_impl; [| exact Hl].
    intros c' Hc' Hcontains. apply connector_matches_spec in Hcontains.
    congruence. }
  pose proof (find_first _ (connector_matches name) cs) as Hfind.
  destruct (find (connector_matches name) cs) as [c |].
  - left. destruct Hfind as (before & after & Hcs & Hc & Hbefore).
    exists before, c, after.
    repeat split; [exact Hcs | | apply Hno; exact Hbefore].
    apply connector_matches_spec; exact Hc.
  - right. split; [apply Hno; exact Hfind | reflexivity].
Qed.

(* ===================================================================== *)
(** ** The settings file *)
(* ===================================================================== *)

Lemma loadConfig_spec (w : World) :
  loadConfig w
  = match read_settings (config_file w) with
    | inr v => (Return v, w)
    | inl e =>
        (Return (JObject []),
         with_console
           (console w ++ [console_warn_call [CText "Failed to load config file:";
                                            CThrown e]]) w)
    end.
Proof.
  unfold loadConfig, try_catch, bind, existsSync, readFileSync, read_settings.
  destruct (config_file w) as [| e | text] eqn:Hfile; simpl;
    rewrite ?Hfile; simpl; try reflexivity.
  unfold lift. destruct (JSON_parse text); reflexivity.
Qed.

Lemma loadConfig_persisted (w : World) (o : list (string * JSValue)) :
  persisted w o -> loadConfig w = (Return (JObject o), w).
Proof. intros Hp. rewrite loadConfig_spec, Hp. reflexivity. Qed.

Lemma getApiKey_persisted (w : World) (o : list (string * JSValue)) :
  persisted w o ->
  getApiKey w
  = (Return (js_or (js_or (assoc_get "apiKey" o) (env_value w)) JNull), w).
Proof.
  intros Hp. unfold getApiKey, bind. rewrite (loadConfig_persisted w o Hp).
  reflexivity.
Qed.

Lemma getBaseUrl_persisted (w : World) (o : list (string * JSValue)) :
  persisted w o ->
  getBaseUrl w
  = (Return (js_or (assoc_get "baseUrl" o) (JString "https://app.textql.com")), w).
Proof.
  intros Hp. unfold getBaseUrl, bind. rewrite (loadConfig_persisted w o Hp).
  reflexivity.
Qed.

Lemma getDefaultConnectorId_persisted (w : World) (o : list (string * JSValue)) :
  persisted w o ->
  getDefaultConnectorId w
  = (Return (js_or (assoc_get "defaultConnectorId" o) JNull), w).
Proof.
  intros Hp. unfold getDefaultConnectorId, bind.
  rewrite (loadConfig_persisted w o Hp). reflexivity.
Qed.

Lemma getDefaultCronString_persisted (w : World) (o : list (string * JSValue)) :
  persisted w o ->
  getDefaultCronString w
  = (Return (js_or (assoc_get "defaultCronString" o) (JString "0 13 * * *")), w).
Proof.
  intros Hp. unfold getDefaultCronString, bind.
  rewrite (loadConfig_persisted w o Hp). reflexivity.
Qed.

(** C8.  The settings file has precedence over the environment.  For every
    pair of a persisted [apiKey] and a [TEXTQL_API_KEY] value, each present
    or absent, [getApiKey] returns the persisted key whenever the settings
    carry one (a non-empty string), whatever the environment holds; it
    returns the environment variable only when the settings carry none; and
    it returns [null] when both are absent or empty. *)
Theorem getApiKey_prefers_settings_over_environment
  (persistedKey environmentKey : option string)
  (w : World) (o : list (string * JSValue))
  (Hsettings : persisted w o)
  (Hkey : assoc_get "apiKey" o = optional_string persistedKey)
  (Henv : TEXTQL_API_KEY w = environmentKey) :
  getApiKey w = (Return (first_nonempty persistedKey environmentKey), w)
  /\ (forall k, persistedKey = Some k -> k <> "" ->
                getApiKey w = (Return (JString k), w))
  /\ (persistedKey = None \/ persistedKey = Some "" ->
      forall e, environmentKey = Some e -> e <> "" ->
                getApiKey w = (Return (JString e), w))
  /\ (persistedKey = None \/ persistedKey = Some "" ->
      environmentKey = None \/ environmentKey = Some "" ->
      getApiKey w = (Return JNull, w)).
Proof.
  assert (Hget : getApiKey w
                 = (Return (first_nonempty persistedKey environmentKey), w)).
  { rewrite (getApiKey_persisted w o Hsettings), Hkey.
    unfold env_value. rewrite Henv.
    destruct persistedKey as [[| c s] |], environmentKey as [[| d t] |];
      reflexivity. }
  rewrite Hget. repeat split.
  - intros k -> Hne. destruct k; [contradiction | reflexivity].
  - intros [-> | ->] e -> Hne; destruct e; try contradiction; reflexivity.
  - intros [-> | ->] [-> | ->]; reflexivity.
Qed.

Lemma assoc_get_set_same (k : string) (v : JSValue) (o : list (string * JSValue)) :
  assoc_get k (assoc_set k v o) = v.
Proof.
  induction o as [| [k' v'] o IH]; simpl.
  - rewrite String.eqb_refl. reflexivity.
  - destruct (k' =? k)%string eqn:E; simpl; rewrite E; [reflexivity | exact IH].
Qed.

Lemma assoc_get_set_other (k k0 : string) (v : JSValue)
  (o : list (string * JSValue)) :
  k0 <> k -> assoc_get k0 (assoc_set k v o) = assoc_get k0 o.
Proof.
  intros Hne. induction o as [| [k' v'] o IH]; simpl.
  - destruct (k =? k0)%string eqn:E; [| reflexivity].
    apply String.eqb_eq in E. congruence.
  - destruct (k' =? k)%string eqn:E; simpl.
    + apply String.eqb_eq in E. subst k'.
      destruct (k =? k0)%string eqn:E0; [| reflexivity].
      apply String.eqb_eq in E0. congruence.
    + rewrite IH. reflexivity.
Qed.

Lemma saveConfig_spec (config : JSValue) (w : World) :
  saveConfig config w
  = match fs_failure w with
    | Some e =>
        (Throw (JSError "Error" ("Failed to save config: " ++ thrown_to_string e)),
         w)
    | None =>
        match JSON_stringify 2 config with
        | Some text => (Return tt, with_config_file (Content text) w)
        | None =>
            (Throw (JSError "Error"
                      ("Failed to save config: "
                       ++ thrown_to_string
                            (TypeError "The data argument must be of type string"))),
             w)
        end
    end.
Proof.
  unfold saveConfig, try_catch, bind, mkdirSync, writeFileSync.
  destruct (fs_failure w) eqn:Hfs; simpl; [reflexivity |].
  destruct (JSON_stringify 2 config); simpl; [| reflexivity].
  rewrite Hfs. reflexivity.
Qed.

Lemma perform_persisted (op : SetOperation) (w : World)
  (o : list (string * JSValue)) :
  persisted w o ->
  perform op w = saveConfig (JObject (assoc_set (field_of op) (value_of op) o)) w.
Proof.
  intros Hp.
  destruct op; simpl;
    unfold setApiKey, setDefaultConnectorId, setDefaultCronString, bind;
    rewrite (loadConfig_persisted w o Hp); reflexivity.
Qed.

(** C9.  On a well-formed persisted settings record, each set-operation
    ([setApiKey], [setDefaultConnectorId], [setDefaultCronString]) rewrites
    the file with the serialisation of the record in which its own field has
    the new value and every other field, [apiKey], [baseUrl],
    [defaultConnectorId] and [defaultCronString] among them, has the value it
    had.  Nothing else in the world changes, and when the file cannot be
    written the operation raises and the file is as it was. *)
Theorem set_operation_rewrites_only_its_field
  (op : SetOperation) (w : World) (o : list (string * JSValue))
  (Hsettings : persisted w o) :
  let o' := assoc_set (field_of op) (value_of op) o in
  (forall text,
      fs_failure w = None ->
      JSON_stringify 2 (JObject o') = Some text ->
      perform op w = (Return tt, with_config_file (Content text) w)
      /\ (JSON_parse text = inr (JObject o') ->
          persisted (with_config_file (Content text) w) o'))
  /\ (forall e,
        fs_failure w = Some e ->
        exists failure,
          perform op w = (Throw failure, w))
  /\ assoc_get (field_of op) o' = value_of op
  /\ (forall field, field <> field_of op -> assoc_get field o' = assoc_get field o)
  /\ (forall field,
        In field ["apiKey"; "baseUrl"; "defaultConnectorId"; "defaultCronString"] ->
        field <> field_of op ->
        assoc_get field o' = assoc_get field o).
Proof.
  intros o'. rewrite (perform_persisted op w o Hsettings), saveConfig_spec.
  fold o'. repeat split.
  - rewrite H, H0. reflexivity.
  - intros Hparse. unfold persisted. simpl. exact Hparse.
  - intros e He. rewrite He. eexists. reflexivity.
  - apply assoc_get_set_same.
  - intros field Hne. apply assoc_get_set_other. exact Hne.
  - intros field _ Hne. apply assoc_get_set_other. exact Hne.
Qed.

(* ===================================================================== *)
(** ** The command line *)
(* ===================================================================== *)

Lemma initializeClient_persisted (w : World) (o : list (string * JSValue)) :
  persisted w o ->
  truthy (resolved_apiKey o w) = true ->
  initializeClient w
  = (Return tt, with_cli_client (Some (configured_client o w)) w).
Proof.
  intros Hp Hkey. unfold initializeClient, bind.
  rewrite (getApiKey_persisted w o Hp). fold (resolved_apiKey o w).
  rewrite Hkey. simpl.
  rewrite (getBaseUrl_persisted w o Hp). reflexivity.
Qed.

Lemma ensureClient_persisted (w : World) (o : list (string * JSValue)) :
  persisted w o ->
  cli_client w = None ->
  truthy (resolved_apiKey o w) = true ->
  ensureClient w
  = (Return (Some (configured_client o w)),
     with_cli_client (Some (configured_client o w)) w).
Proof.
  intros Hp Hnone Hkey. unfold ensureClient, bind, get_cli_client.
  rewrite Hnone. rewrite (initializeClient_persisted w o Hp Hkey). reflexivity.
Qed.

Lemma resolve_connectorId_persisted (connectorFlag : JSValue) (w : World)
  (o : list (string * JSValue)) :
  persisted w o ->
  resolve_connectorId connectorFlag w
  = (Return (resolved_connector connectorFlag o), w).
Proof.
  intros Hp. unfold resolve_connectorId, resolved_connector.
  destruct (truthy connectorFlag); [reflexivity |].
  apply getDefaultConnectorId_persisted. exact Hp.
Qed.

Lemma resolve_cronString_persisted (cronFlag : JSValue) (w : World)
  (o : list (string * JSValue)) :
  persisted w o ->
  resolve_cronString cronFlag w = (Return (resolved_cron cronFlag o), w).
Proof.
  intros Hp. unfold resolve_cronString, resolved_cron.
  destruct (truthy cronFlag); [reflexivity |].
  apply getDefaultCronString_persisted. exact Hp.
Qed.

Lemma connector_zero_is_falsy (connectorFlag : JSValue)
  (o : list (string * JSValue)) :
  connector_resolves_to_zero connectorFlag o ->
  truthy (resolved_connector connectorFlag o) = false.
Proof.
  unfold resolved_connector.
  intros [[Hflag Hzero] | [Hflag Hzero]]; rewrite Hflag.
  - rewrite Hzero. reflexivity.
  - rewrite Hzero. reflexivity.
Qed.

(** What [handleUpdate] does once the key, the id and the connector are
    there: one update request, then the report of its Result. *)
Lemma handleUpdate_submits (args : list string) (w : World)
  (o : list (string * JSValue)) :
  persisted w o ->
  cli_client w = None ->
  truthy (resolved_apiKey o w) = true ->
  truthy (flag args "--id=") = true ->
  truthy (resolved_connector (flag args "--connector=") o) = true ->
  let this := configured_client o w in
  let request := update_request this (update_payload args o) in
  let w1 := with_cli_client (Some this) w in
  let result := response_result (network w (requests w) request) in
  let w2 := with_requests (requests w ++ [request]) w1 in
  handleUpdate args w
  = if success result
    then (Return tt,
          with_console
            (((console w
               ++ [console_log_call [CText "✅ Playbook updated successfully!"]])
              ++ [console_log_call [CText "📋 Updated playbook details:"]])
             ++ [console_log_call [stringified 2 (data result)]]) w2)
    else (Exit 1,
          with_console
            (console w
             ++ [console_error_call
                   [CText "❌ Failed to update playbook:";
                    CValue (opt_chain_prop (error result) "message")]]) w2).
Proof.
  intros Hp Hnone Hkey Hid Hconn this request w1 result w2.
  unfold handleUpdate, bind.
  rewrite (ensureClient_persisted w o Hp Hnone Hkey). cbv zeta.
  rewrite Hid. cbn [negb]. cbv beta iota.
  rewrite (resolve_connectorId_persisted _ _ o) by exact Hp.
  rewrite Hconn. cbn [negb]. cbv beta iota.
  unfold try_catch, bind.
  rewrite (resolve_cronString_persisted _ _ o) by exact Hp.
  unfold call_on. rewrite updatePlaybook_spec.
  fold this. fold (update_payload args o).
  change (network (with_cli_client (Some this) w)) with (network w).
  change (requests (with_cli_client (Some this) w)) with (requests w).
  fold request. fold result. fold w1. fold w2.
  destruct (success result); reflexivity.
Qed.

Lemma handleUpdate_without_connector (args : list string) (w : World)
  (o : list (string * JSValue)) :
  persisted w o ->
  cli_client w = None ->
  truthy (resolved_apiKey o w) = true ->
  truthy (flag args "--id=") = true ->
  truthy (resolved_connector (flag args "--connector=") o) = false ->
  handleUpdate args w
  = (Exit 1,
     with_console (console w ++ [console_error_call [CText no_connector_message]])
       (with_cli_client (Some (configured_client o w)) w)).
Proof.
  intros Hp Hnone Hkey Hid Hconn.
  unfold handleUpdate, bind.
  rewrite (ensureClient_persisted w o Hp Hnone Hkey). cbv zeta.
  rewrite Hid. cbn [negb]. cbv beta iota.
  rewrite (resolve_connectorId_persisted _ _ o) by exact Hp.
  rewrite Hconn. reflexivity.
Qed.

Lemma handleCreate_without_connector (args : list string) (w : World)
  (o : list (string * JSValue)) :
  persisted w o ->
  cli_client w = None ->
  truthy (resolved_apiKey o w) = true ->
  truthy (flag args "--id=") = true ->
  truthy (flag args "--prompt=") = true ->
  truthy (flag args "--name=") = true ->
  truthy (split_commas (flag args "--emails=")) = true ->
  truthy (resolved_connector (flag args "--connector=") o) = false ->
  handleCreate args w
  = (Exit 1,
     with_console (console w ++ [console_error_call [CText no_connector_message]])
       (with_cli_client (Some (configured_client o w)) w)).
Proof.
  intros Hp Hnone Hkey Hid Hprompt Hname Hemails Hconn.
  unfold handleCreate, bind.
  rewrite (ensureClient_persisted w o Hp Hnone Hkey). cbv zeta.
  rewrite Hid, Hprompt, Hname, Hemails. cbn [negb orb]. cbv beta iota.
  rewrite (resolve_connectorId_persisted _ _ o) by exact Hp.
  rewrite Hconn. reflexivity.
Qed.

(** Without a key, [ensureClient] does not return, and issues no request. *)
Lemma ensureClient_without_key (w : World) :
  cli_client w = None ->
  TEXTQL_API_KEY w = None ->
  no_persisted_apiKey w ->
  exists w',
    requests w' = requests w
    /\ (ensureClient w = (Exit 1, w')
        \/ exists e, ensureClient w = (Throw e, w')).
Proof.
  intros Hnone Henv Hkey.
  unfold ensureClient, bind, get_cli_client. rewrite Hnone.
  unfold initializeClient, bind, getApiKey, bind.
  rewrite loadConfig_spec.
  unfold no_persisted_apiKey, loaded_config in Hkey.
  destruct (read_settings (config_file w)) as [e | v].
  - simpl. unfold process_env_TEXTQL_API_KEY, bind. simpl. rewrite Henv. simpl.
    eexists. split; [| left; reflexivity]. reflexivity.
  - destruct (get_prop v "apiKey") as [e | key]; simpl.
    + exists w. split; [reflexivity | right; exists e; reflexivity].
    + unfold process_env_TEXTQL_API_KEY. rewrite Henv.
      unfold js_or. rewrite Hkey. simpl.
      eexists. split; [| left; reflexivity]. reflexivity.
Qed.

(** A command that starts with [ensureClient] ends the way it does when it
    does not return. *)
Lemma run_stops_without_client (command : string) (args : list string)
  (w w' : World) :
  requires_client command ->
  (ensureClient w = (Exit 1, w') -> run (command :: args) w = (Exit 1, w'))
  /\ (forall e, ensureClient w = (Throw e, w') ->
                run (command :: args) w = (Throw e, w')).
Proof.
  intros Hcommand.
  destruct Hcommand as [-> | [-> | ->]];
    [ change (run ("connectors" :: args)) with (handleConnectors args)
    | change (run ("create" :: args)) with (handleCreate args)
    | change (run ("update" :: args)) with (handleUpdate args) ];
    unfold handleConnectors, handleCreate, handleUpdate, bind;
    (split; [intros -> | intros e ->]; reflexivity).
Qed.

Lemma main_after_run (args : list string) (w : World) :
  main args w
  = match run args (with_cli_client None w) with
    | (Throw e, w') =>
        (Exit 1,
         with_console
           (console w' ++ [console_error_call [CText "❌ Unexpected error:";
                                               CThrown e]]) w')
    | r => r
    end.
Proof.
  unfold main, try_catch, bind, new_TextQLCLI, set_cli_client.
  destruct (run args (with_cli_client None w)) as [[u | e | code] w'];
    reflexivity.
Qed.

(** The same steps when the settings file may also be unreadable or not
    JSON: [loadConfig] then warns on the console and goes on with the empty
    record, so only the console differs. *)
Lemma loadConfig_loaded (w : World) (o : list (string * JSValue)) :
  loaded_config w = JObject o ->
  exists c, loadConfig w = (Return (JObject o), with_console c w).
Proof.
  unfold loaded_config. intros Hl. rewrite loadConfig_spec.
  destruct (read_settings (config_file w)) as [e | v].
  - injection Hl as <-. eexists. reflexivity.
  - subst v. exists (console w). rewrite with_console_same. reflexivity.
Qed.

Lemma getApiKey_loaded (w : World) (o : list (string * JSValue)) :
  loaded_config w = JObject o ->
  exists c, getApiKey w = (Return (resolved_apiKey o w), with_console c w).
Proof.
  intros Hl. destruct (loadConfig_loaded w o Hl) as [c Hc].
  exists c. unfold getApiKey, bind. rewrite Hc. reflexivity.
Qed.

Lemma getBaseUrl_loaded (w : World) (o : list (string * JSValue)) :
  loaded_config w = JObject o ->
  exists c,
    getBaseUrl w
    = (Return (js_or (assoc_get "baseUrl" o) (JString "https://app.textql.com")),
       with_console c w).
Proof.
  intros Hl. destruct (loadConfig_loaded w o Hl) as [c Hc].
  exists c. unfold getBaseUrl, bind. rewrite Hc. reflexivity.
Qed.

Lemma resolve_connectorId_loaded (connectorFlag : JSValue) (w : World)
  (o : list (string * JSValue)) :
  loaded_config w = JObject o ->
  exists c,
    resolve_connectorId connectorFlag w
    = (Return (resolved_connector connectorFlag o), with_console c w).
Proof.
  intros Hl. unfold resolve_connectorId, resolved_connector.
  destruct (truthy connectorFlag).
  - exists (console w). rewrite with_console_same. reflexivity.
  - destruct (loadConfig_loaded w o Hl) as [c Hc].
    exists c. unfold getDefaultConnectorId, bind. rewrite Hc. reflexivity.
Qed.

Lemma resolve_cronString_loaded (cronFlag : JSValue) (w : World)
  (o : list (string * JSValue)) :
  loaded_config w = JObject o ->
  exists c,
    resolve_cronString cronFlag w
    = (Return (resolved_cron cronFlag o), with_console c w).
Proof.
  intros Hl. unfold resolve_cronString, resolved_cron.
  destruct (truthy cronFlag).
  - exists (console w). rewrite with_console_same. reflexivity.
  - destruct (loadConfig_loaded w o Hl) as [c Hc].
    exists c. unfold getDefaultCronString, bind. rewrite Hc. reflexivity.
Qed.

Lemma ensureClient_loaded (w : World) (o : list (string * JSValue)) :
  loaded_config w = JObject o ->
  cli_client w = None ->
  exists c,
    ensureClient w
    = if truthy (resolved_apiKey o w)
      then (Return (Some (configured_client o w)),
            with_console c (with_cli_client (Some (configured_client o w)) w))
      else (Exit 1,
            with_console (c ++ [console_error_call [CText no_api_key_message]]) w).
Proof.
  intros Hl Hnone. unfold ensureClient, bind, get_cli_client. rewrite Hnone.
  unfold initializeClient, bind.
  destruct (getApiKey_loaded w o Hl) as [c Hc]. rewrite Hc.
  destruct (truthy (resolved_apiKey o w)); cbn [negb]; cbv beta iota.
  - destruct (getBaseUrl_loaded (with_console c w) o Hl) as [c' Hc'].
    rewrite Hc'. exists c'. reflexivity.
  - eexists. reflexivity.
Qed.

(** The requests of [handleUpdate], for every argument list: the update
    request when the key, the id and the connector are there, none
    otherwise. *)
Lemma handleUpdate_requests (args : list string) (w : World)
  (o : list (string * JSValue)) :
  loaded_config w = JObject o ->
  cli_client w = None ->
  exists w',
    (handleUpdate args w = (Return tt, w') \/ handleUpdate args w = (Exit 1, w'))
    /\ requests w'
       = (requests w
          ++ if truthy (resolved_apiKey o w)
                && truthy (flag args "--id=")
                && truthy (resolved_connector (flag args "--connector=") o)
             then [update_request (configured_client o w) (update_payload args o)]
             else [])%list.
Proof.
  intros Hl Hnone. unfold handleUpdate, bind.
  destruct (ensureClient_loaded w o Hl Hnone) as [c Hc]. rewrite Hc.
  destruct (truthy (resolved_apiKey o w)); cbn [andb];
    [| eexists; split; [right; reflexivity | simpl; rewrite app_nil_r; reflexivity]].
  cbv zeta.
  destruct (truthy (flag args "--id=")); cbn [negb andb]; cbv beta iota;
    [| eexists; split; [right; reflexivity | simpl; rewrite app_nil_r; reflexivity]].
  match goal with
  | |- context [resolve_connectorId ?f ?w0] =>
      destruct (resolve_connectorId_loaded f w0 o Hl) as [c2 Hc2]; rewrite Hc2
  end.
  destruct (truthy (resolved_connector (flag args "--connector=") o));
    cbn [negb]; cbv beta iota;
    [| eexists; split; [right; reflexivity | simpl; rewrite app_nil_r; reflexivity]].
  unfold try_catch, bind.
  match goal with
  | |- context [resolve_cronString ?f ?w0] =>
      destruct (resolve_cronString_loaded f w0 o Hl) as [c3 Hc3]; rewrite Hc3
  end.
  unfold call_on. rewrite updatePlaybook_spec.
  fold (update_payload args o).
  destruct (success (response_result _));
    eexists; (split; [(left + right); reflexivity | reflexivity]).
Qed.

Lemma handleUpdate_zero_connector (args : list string) (w : World)
  (o : list (string * JSValue)) :
  loaded_config w = JObject o ->
  cli_client w = None ->
  truthy (resolved_apiKey o w) = true ->
  truthy (flag args "--id=") = true ->
  truthy (resolved_connector (flag args "--connector=") o) = false ->
  exists earlier w',
    handleUpdate args w = (Exit 1, w')
    /\ console w' = (earlier ++ [console_error_call [CText no_connector_message]])%list
    /\ requests w' = requests w.
Proof.
  intros Hl Hnone Hkey Hid Hconn. unfold handleUpdate, bind.
  destruct (ensureClient_loaded w o Hl Hnone) as [c Hc]. rewrite Hc, Hkey.
  cbv zeta. rewrite Hid. cbn [negb]. cbv beta iota.
  match goal with
  | |- context [resolve_connectorId ?f ?w0] =>
      destruct (resolve_connectorId_loaded f w0 o Hl) as [c2 Hc2]; rewrite Hc2
  end.
  rewrite Hconn. cbn [negb]. cbv beta iota.
  exists c2. eexists. split; [reflexivity |]. split; reflexivity.
Qed.

Lemma handleCreate_zero_connector (args : list string) (w : World)
  (o : list (string * JSValue)) :
  loaded_config w = JObject o ->
  cli_client w = None ->
  truthy (resolved_apiKey o w) = true ->
  truthy (flag args "--id=") = true ->
  truthy (flag args "--prompt=") = true ->
  truthy (flag args "--name=") = true ->
  truthy (split_commas (flag args "--emails=")) = true ->
  truthy (resolved_connector (flag args "--connector=") o) = false ->
  exists earlier w',
    handleCreate args w = (Exit 1, w')
    /\ console w' = (earlier ++ [console_error_call [CText no_connector_message]])%list
    /\ requests w' = requests w.
Proof.
  intros Hl Hnone Hkey Hid Hprompt Hname Hemails Hconn. unfold handleCreate, bind.
  destruct (ensureClient_loaded w o Hl Hnone) as [c Hc]. rewrite Hc, Hkey.
  cbv zeta. rewrite Hid, Hprompt, Hname, Hemails. cbn [negb orb]. cbv beta iota.
  match goal with
  | |- context [resolve_connectorId ?f ?w0] =>
      destruct (resolve_connectorId_loaded f w0 o Hl) as [c2 Hc2]; rewrite Hc2
  end.
  rewrite Hconn. cbn [negb]. cbv beta iota.
  exists c2. eexists. split; [reflexivity |]. split; reflexivity.
Qed.

(** C7.  For every invocation of a command that requires the client
    ([connectors], [create], [update]), whatever its other arguments and
    whatever the state of the settings file: if the persisted settings carry
    no [apiKey] and the [TEXTQL_API_KEY] environment variable is unset, the
    process terminates with exit status 1 and no request is issued.  The
    command itself, on a fresh [TextQLCLI], does not return: it ends the
    process with status 1 or raises before any request, and when the
    settings are a record it ends the process with status 1 after printing
    the missing-key error. *)
Theorem no_api_key_exits_before_any_request
  (command : string) (args : list string) (w : World)
  (Hcommand : requires_client command)
  (Hsettings : no_persisted_apiKey w)
  (Henv : TEXTQL_API_KEY w = None) :
  (exists w',
      main (command :: args) w = (Exit 1, w')
      /\ requests w' = requests w)
  /\ (cli_client w = None ->
      exists w',
        requests w' = requests w
        /\ (run (command :: args) w = (Exit 1, w')
            \/ exists e, run (command :: args) w = (Throw e, w')))
  /\ (forall o,
        loaded_config w = JObject o ->
        cli_client w = None ->
        exists earlier w',
          run (command :: args) w = (Exit 1, w')
          /\ console w'
             = (earlier ++ [console_error_call [CText no_api_key_message]])%list
          /\ requests w' = requests w).
Proof.
  split; [| split].
  - destruct (ensureClient_without_key (with_cli_client None w))
      as (w' & Hrequests & Hensure); try assumption; try reflexivity.
    destruct (run_stops_without_client command args (with_cli_client None w) w'
                Hcommand) as (Hexit & Hthrow).
    rewrite main_after_run.
    destruct Hensure as [Hensure | [e Hensure]].
    + rewrite (Hexit Hensure). exists w'. split; [reflexivity | exact Hrequests].
    + rewrite (Hthrow e Hensure). eexists. split; [reflexivity | exact Hrequests].
  - intros Hnone.
    destruct (ensureClient_without_key w Hnone Henv Hsettings)
      as (w' & Hrequests & Hensure).
    destruct (run_stops_without_client command args w w' Hcommand)
      as (Hexit & Hthrow).
    exists w'. split; [exact Hrequests |].
    destruct Hensure as [Hensure | [e Hensure]];
      [left; apply Hexit; exact Hensure
      | right; exists e; apply Hthrow; exact Hensure].
  - intros o Hl Hnone.
    destruct (ensureClient_loaded w o Hl Hnone) as [c Hc].
    assert (Hkey : truthy (resolved_apiKey o w) = false).
    { unfold no_persisted_apiKey in Hsettings. rewrite Hl in Hsettings.
      simpl in Hsettings. unfold resolved_apiKey, env_value, js_or.
      rewrite Hsettings, Henv. reflexivity. }
    rewrite Hkey in Hc.
    destruct (run_stops_without_client command args w
                (with_console
                   (c ++ [console_error_call [CText no_api_key_message]]) w)
                Hcommand) as (Hexit & _).
    exists c. eexists. split; [apply Hexit; exact Hc |].
    split; reflexivity.
Qed.

Lemma persisted_loaded (w : World) (o : list (string * JSValue)) :
  persisted w o -> loaded_config w = JObject o.
Proof. unfold persisted, loaded_config. intros ->. reflexivity. Qed.

Lemma truthy_js_or_default (a b : JSValue) :
  truthy b = true -> truthy (js_or a b) = true.
Proof.
  intros Hb. unfold js_or. destruct (truthy a) eqn:Ha; assumption.
Qed.

Lemma truthy_resolved_cron (cronFlag : JSValue) (o : list (string * JSValue)) :
  truthy (resolved_cron cronFlag o) = true.
Proof.
  unfold resolved_cron. destruct (truthy cronFlag) eqn:Hflag; [exact Hflag |].
  apply truthy_js_or_default. reflexivity.
Qed.

Lemma main_update (args : list string) (w : World) :
  main ("update" :: args) w
  = match handleUpdate args (with_cli_client None w) with
    | (Throw e, w') =>
        (Exit 1,
         with_console
           (console w' ++ [console_error_call [CText "❌ Unexpected error:";
                                               CThrown e]]) w')
    | r => r
    end.
Proof.
  unfold main, try_catch, bind, new_TextQLCLI, set_cli_client.
  change (run ("update" :: args)) with (handleUpdate args).
  destruct (handleUpdate args (with_cli_client None w)) as [[u | e | code] w'];
    reflexivity.
Qed.

Lemma main_create (args : list string) (w : World) :
  main ("create" :: args) w
  = match handleCreate args (with_cli_client None w) with
    | (Throw e, w') =>
        (Exit 1,
         with_console
           (console w' ++ [console_error_call [CText "❌ Unexpected error:";
                                               CThrown e]]) w')
    | r => r
    end.
Proof.
  unfold main, try_catch, bind, new_TextQLCLI, set_cli_client.
  change (run ("create" :: args)) with (handleCreate args).
  destruct (handleCreate args (with_cli_client None w)) as [[u | e | code] w'];
    reflexivity.
Qed.

(** The [--status=] value is kept when it is one of the two enum names, and
    dropped otherwise. *)
Lemma checked_status_spec (s : string) :
  checked_status (JString s)
  = if ((s =? "STATUS_ACTIVE") || (s =? "STATUS_INACTIVE"))%string
    then JString s else JUndefined.
Proof. unfold checked_status. destruct_matched_string; reflexivity. Qed.

Lemma submitted_status (statusArg : JSValue) :
  js_or (checked_status statusArg) (JString "STATUS_ACTIVE")
  = match statusArg with
    | JString s =>
        JString (if (s =? "STATUS_INACTIVE")%string
                 then "STATUS_INACTIVE" else "STATUS_ACTIVE")
    | _ => JString "STATUS_ACTIVE"
    end.
Proof.
  destruct statusArg as [| | b | n | s | l | o]; try reflexivity.
  rewrite checked_status_spec.
  destruct (s =? "STATUS_ACTIVE")%string eqn:Eactive.
  - apply String.eqb_eq in Eactive. subst s. reflexivity.
  - destruct (s =? "STATUS_INACTIVE")%string eqn:Einactive; [| reflexivity].
    apply String.eqb_eq in Einactive. subst s. reflexivity.
Qed.

Lemma submitted_emails (emailsArg : JSValue) :
  js_or (split_commas emailsArg) (JArray [JString "admin@example.com"])
  = match emailsArg with
    | JString addresses => JArray (map JString (split "," addresses))
    | _ => JArray [JString "admin@example.com"]
    end.
Proof. destruct emailsArg; reflexivity. Qed.

Lemma split_not_empty (sep : ascii) (s : string) : split sep s <> [].
Proof.
  destruct s as [| c s]; cbn [split]; [discriminate |].
  destruct (Ascii.eqb c sep); [discriminate |].
  destruct (split sep s); discriminate.
Qed.

(** The pieces of [split], joined with the separator, give the string back. *)
Lemma join_comma_split (s : string) : join_comma (split "," s) = s.
Proof.
  induction s as [| c s IH]; [reflexivity |].
  cbn [split]. pose proof (split_not_empty "," s) as Hpieces.
  destruct (split "," s) as [| piece pieces]; [contradiction |].
  destruct (Ascii.eqb c ",") eqn:Ec.
  - apply Ascii.eqb_eq in Ec. subst c.
    change (join_comma ("" :: piece :: pieces))
      with (String "," (join_comma (piece :: pieces))).
    rewrite IH. reflexivity.
  - destruct pieces as [| next pieces].
    + simpl in *. rewrite IH. reflexivity.
    + change (join_comma (String c piece :: next :: pieces))
        with (String c (piece ++ "," ++ join_comma (next :: pieces))).
      change (join_comma (piece :: next :: pieces))
        with (piece ++ "," ++ join_comma (next :: pieces)) in IH.
      rewrite IH. reflexivity.
Qed.

(** No piece of [split] holds the separator. *)
Lemma split_pieces_lack_separator (sep : ascii) (s : string) :
  Forall (fun piece => lacks sep piece = true) (split sep s).
Proof.
  induction s as [| c s IH]; cbn [split].
  - repeat constructor.
  - destruct (Ascii.eqb c sep) eqn:Ec.
    + constructor; [reflexivity | exact IH].
    + destruct (split sep s) as [| piece pieces].
      * repeat constructor. simpl. rewrite Ec. reflexivity.
      * inversion IH as [| ? ? Hpiece Hpieces]; subst.
        constructor; [| exact Hpieces].
        simpl. rewrite Ec, Hpiece. reflexivity.
Qed.

(** C6.  For every [update] invocation, whatever the state of the settings
    file (absent, unreadable, not JSON, or a record [o]): the only request
    it can issue is the update request, never one that reads from the
    server, and it issues it exactly when an API key, a non-empty [--id] and
    a connector id are available.  The payload submitted is a complete
    [UpdatePlaybookRequest]: each of the nine properties is present, and
    each omitted field is filled from the flag when given, from the
    persisted default ([defaultConnectorId], [defaultCronString]) or from a
    hardcoded default (['SELECT 1;'], ['Updated Playbook'],
    [['admin@example.com']], [STATUS_ACTIVE], ['0 13 * * *']).  The
    [emailAddresses] are the pieces of the [--emails] value between its
    commas, in order, an empty piece included.  The [status] is
    [STATUS_INACTIVE] when [--status] says so and [STATUS_ACTIVE] for any
    other value and when the flag is not given.  The [connectorId] of a
    [--connector] value is the number [parseInt] reads from it.  In
    particular, with a persisted [defaultCronString] (['0 9 * * *'], say) and
    no [--cron] flag, the submitted [cronString] is the persisted one. *)
Theorem update_submits_full_payload_from_local_defaults
  (args : list string) (w : World) (o : list (string * JSValue))
  (Hsettings : loaded_config w = JObject o) :
  requests_after (main ("update" :: args)) w
  = (requests w
     ++ if truthy (resolved_apiKey o w)
           && truthy (flag args "--id=")
           && truthy (resolved_connector (flag args "--connector=") o)
        then [update_request (configured_client o w) (update_payload args o)]
        else [])%list
  /\ update_payload args o
     = JObject
         [("prompt", if truthy (flag args "--prompt=")
                     then flag args "--prompt=" else JString "SELECT 1;");
          ("name", if truthy (flag args "--name=")
                   then flag args "--name=" else JString "Updated Playbook");
          ("playbookId", flag args "--id=");
          ("emailAddresses",
           match flag args "--emails=" with
           | JString addresses => JArray (map JString (split "," addresses))
           | _ => JArray [JString "admin@example.com"]
           end);
          ("status",
           match flag args "--status=" with
           | JString status =>
               JString (if (status =? "STATUS_INACTIVE")%string
                        then "STATUS_INACTIVE" else "STATUS_ACTIVE")
           | _ => JString "STATUS_ACTIVE"
           end);
          ("paradigmType", JString "TYPE_SQL");
          ("paradigmOptions",
           JObject
             [("connectorId",
               if truthy (flag args "--connector=")
               then JNumber (parseInt (ToString (flag args "--connector=")) 0)
               else if truthy (assoc_get "defaultConnectorId" o)
                    then assoc_get "defaultConnectorId" o else JNull)]);
          ("triggerType", JString "TRIGGER_TYPE_CRON");
          ("cronString",
           if truthy (flag args "--cron=")
           then flag args "--cron="
           else if truthy (assoc_get "defaultCronString" o)
                then assoc_get "defaultCronString" o
                else JString "0 13 * * *")]
  /\ (truthy (flag args "--id=") = true ->
      truthy (resolved_connector (flag args "--connector=") o) = true ->
      (forall field,
          In field UpdatePlaybookRequest_fields ->
          truthy (opt_chain_prop (update_payload args o) field) = true)
      /\ truthy (opt_chain_prop
                   (opt_chain_prop (update_payload args o) "paradigmOptions")
                   "connectorId") = true)
  /\ (forall cron,
        cron <> "" ->
        assoc_get "defaultCronString" o = JString cron ->
        truthy (flag args "--cron=") = false ->
        opt_chain_prop (update_payload args o) "cronString" = JString cron)
  /\ (forall addresses,
        flag args "--emails=" = JString addresses ->
        exists pieces,
          opt_chain_prop (update_payload args o) "emailAddresses"
          = JArray (map JString pieces)
          /\ join_comma pieces = addresses
          /\ Forall (fun piece => lacks "," piece = true) pieces).
Proof.
  split; [| split; [| split; [| split]]].
  - unfold requests_after. rewrite main_update.
    destruct (handleUpdate_requests args (with_cli_client None w) o
                Hsettings eq_refl) as (w' & [Hrun | Hrun] & Hrequests);
      rewrite Hrun; exact Hrequests.
  - unfold update_payload, cli_updateRequest.
    rewrite submitted_status, submitted_emails. reflexivity.
  - intros Hid Hconnector. split; [| exact Hconnector].
    intros field Hfield.
    unfold UpdatePlaybookRequest_fields in Hfield. simpl in Hfield.
    unfold update_payload, cli_updateRequest, opt_chain_prop.
    destruct Hfield as [<- | [<- | [<- | [<- | [<- | [<- | [<- | [<- | [<- | []]]]]]]]]];
      simpl; try reflexivity;
      try (apply truthy_js_or_default; reflexivity).
    + exact Hid.
    + apply truthy_resolved_cron.
  - intros cron Hne Hdefault Hflag.
    unfold update_payload, cli_updateRequest, opt_chain_prop. simpl.
    unfold resolved_cron. rewrite Hflag, Hdefault. unfold js_or. simpl.
    destruct (cron =? "")%string eqn:E; [| reflexivity].
    apply String.eqb_eq in E. contradiction.
  - intros addresses Hemails. exists (split "," addresses).
    unfold update_payload, cli_updateRequest, opt_chain_prop.
    cbn [get_prop assoc_get String.eqb Ascii.eqb Bool.eqb].
    rewrite submitted_emails, Hemails.
    split; [reflexivity |].
    split; [apply join_comma_split | apply split_pieces_lack_separator].
Qed.

(** C10.  A persisted [defaultConnectorId] equal to 0 is treated as absent:
    [getDefaultConnectorId] returns [null] for it.  A [create] or [update]
    invocation that gets as far as resolving its connector id (the API key
    and the required flags are there) and whose connector id resolves to 0,
    from the [--connector] flag or from the persisted default, terminates
    with exit status 1, the missing-connector error being the last thing it
    prints (the only thing, when the settings file could be read), and
    issues no request: [connectorId] 0 is not submitted. *)
Theorem zero_connector_id_is_treated_as_absent
  (w : World) (o : list (string * JSValue)) (args : list string)
  (Hsettings : loaded_config w = JObject o)
  (Hkey : truthy (resolved_apiKey o w) = true)
  (Hzero : connector_resolves_to_zero (flag args "--connector=") o) :
  (persisted w o ->
   assoc_get "defaultConnectorId" o = JNumber (Int 0) ->
   getDefaultConnectorId w = (Return JNull, w))
  /\ (truthy (flag args "--id=") = true ->
      truthy (flag args "--prompt=") = true ->
      truthy (flag args "--name=") = true ->
      truthy (split_commas (flag args "--emails=")) = true ->
      exists earlier w',
        main ("create" :: args) w = (Exit 1, w')
        /\ console w'
           = (earlier ++ [console_error_call [CText no_connector_message]])%list
        /\ requests w' = requests w
        /\ (persisted w o -> earlier = console w))
  /\ (truthy (flag args "--id=") = true ->
      exists earlier w',
        main ("update" :: args) w = (Exit 1, w')
        /\ console w'
           = (earlier ++ [console_error_call [CText no_connector_message]])%list
        /\ requests w' = requests w
        /\ (persisted w o -> earlier = console w)).
Proof.
  apply connector_zero_is_falsy in Hzero.
  split; [| split].
  - intros Hp Hdefault.
    rewrite (getDefaultConnectorId_persisted w o Hp), Hdefault. reflexivity.
  - intros Hid Hprompt Hname Hemails.
    destruct (handleCreate_zero_connector args (with_cli_client None w) o
                Hsettings eq_refl Hkey Hid Hprompt Hname Hemails Hzero)
      as (earlier & w' & Hrun & Hconsole & Hrequests).
    exists earlier, w'. rewrite main_create, Hrun.
    repeat split; [exact Hconsole | exact Hrequests |].
    intros Hp.
    rewrite (handleCreate_without_connector args (with_cli_client None w) o
               Hp eq_refl Hkey Hid Hprompt Hname Hemails Hzero) in Hrun.
    injection Hrun as Hw'. rewrite <- Hw' in Hconsole. simpl in Hconsole.
    apply app_inj_tail in Hconsole. symmetry. apply Hconsole.
  - intros Hid.
    destruct (handleUpdate_zero_connector args (with_cli_client None w) o
                Hsettings eq_refl Hkey Hid Hzero)
      as (earlier & w' & Hrun & Hconsole & Hrequests).
    exists earlier, w'. rewrite main_update, Hrun.
    repeat split; [exact Hconsole | exact Hrequests |].
    intros Hp.
    rewrite (handleUpdate_without_connector args (with_cli_client None w) o
               Hp eq_refl Hkey Hid Hzero) in Hrun.
    injection Hrun as Hw'. rewrite <- Hw' in Hconsole. simpl in Hconsole.
    apply app_inj_tail in Hconsole. symmetry. apply Hconsole.
Qed.

(* ===================================================================== *)
(** ** More on the settings file *)
(* ===================================================================== *)

(** X1.  [loadConfig] never raises and never ends the process, and it
    changes nothing but the console.  It returns the parsed file as it is;
    when there is no file it returns the empty record silently; when the
    file cannot be read or is not JSON it returns the empty record after one
    [console.warn]. *)
Theorem loadConfig_falls_back_to_empty_record (w : World) :
  exists v c,
    loadConfig w = (Return v, with_console c w)
    /\ match config_file w with
       | NoFile => v = JObject [] /\ c = console w
       | Unreadable e =>
           v = JObject [] /\ c = (console w ++ [load_warning e])%list
       | Content text =>
           match JSON_parse text with
           | inr parsed => v = parsed /\ c = console w
           | inl e => v = JObject [] /\ c = (console w ++ [load_warning e])%list
           end
       end.
Proof.
  rewrite loadConfig_spec. unfold read_settings, load_warning.
  destruct (config_file w) as [| e | text].
  - exists (JObject []), (console w). rewrite with_console_same. auto.
  - eexists. eexists. split; [reflexivity | auto].
  - destruct (JSON_parse text) as [e | parsed].
    + eexists. eexists. split; [reflexivity | auto].
    + exists parsed, (console w). rewrite with_console_same. auto.
Qed.

Lemma persisted_after_write (w : World) (o : list (string * JSValue))
  (text : string) :
  JSON_parse text = inr (JObject o) ->
  persisted (with_config_file (Content text) w) o.
Proof. intros Hread. unfold persisted. simpl. exact Hread. Qed.

(** X2.  Set, then get.  On a well-formed settings record and a writable
    file whose text reads back as the record written (with [null] where a
    number that is not finite was written, as JSON has it), a set-operation
    followed by the getter of the same field gives back the value set,
    provided it is one the getter does not take for absent: a non-empty key
    or cron string, a finite non-zero connector id.  An empty string reads
    back as the getter's fallback (the environment variable,
    ['0 13 * * *']); a connector id 0, [NaN] or infinite reads back as
    [null]. *)
Theorem set_then_get (op : SetOperation) (w : World)
  (o : list (string * JSValue)) (text : string)
  (Hsettings : persisted w o)
  (Hwritable : fs_failure w = None)
  (Hprint : JSON_stringify 2 (JObject (assoc_set (field_of op) (value_of op) o))
            = Some text)
  (Hread : JSON_parse text
           = inr (JObject (assoc_set (field_of op) (as_stored (value_of op)) o))) :
  bind (perform op) (fun _ => getter_of op) w
  = (Return (read_back op w), with_config_file (Content text) w).
Proof.
  unfold bind.
  rewrite (perform_persisted op w o Hsettings), saveConfig_spec, Hwritable, Hprint.
  pose proof (persisted_after_write w _ text Hread) as Hafter.
  destruct op as [apiKey | connectorId | cronString]; cbn [getter_of read_back].
  - rewrite (getApiKey_persisted _ _ Hafter).
    cbn [field_of value_of as_stored]. rewrite assoc_get_set_same.
    unfold env_value. cbn [TEXTQL_API_KEY with_config_file].
    destruct apiKey, (TEXTQL_API_KEY w) as [[| c s] |]; reflexivity.
  - rewrite (getDefaultConnectorId_persisted _ _ Hafter).
    cbn [field_of value_of]. rewrite assoc_get_set_same.
    destruct connectorId as [| z | negative]; [reflexivity | | reflexivity].
    unfold js_or. simpl. destruct (z =? 0); reflexivity.
  - rewrite (getDefaultCronString_persisted _ _ Hafter).
    cbn [field_of value_of as_stored]. rewrite assoc_get_set_same.
    rewrite js_or_text_fallback. reflexivity.
Qed.

(** X3.  A set-operation on a settings file that cannot be read or is not
    JSON does not fail: after the warning of [loadConfig] it replaces the
    file by a record that holds the one field set, and nothing of the old
    content. *)
Theorem set_operation_replaces_unloadable_file (op : SetOperation) (w : World)
  (e : Thrown) (text : string)
  (Hbroken : read_settings (config_file w) = inl e)
  (Hwritable : fs_failure w = None)
  (Hprint : JSON_stringify 2 (JObject [(field_of op, value_of op)]) = Some text) :
  perform op w
  = (Return tt,
     with_config_file (Content text)
       (with_console (console w ++ [load_warning e]) w)).
Proof.
  destruct op; cbn [perform];
    unfold setApiKey, setDefaultConnectorId, setDefaultCronString, bind;
    rewrite loadConfig_spec, Hbroken; cbn [lift set_prop assoc_set ret];
    rewrite saveConfig_spec; cbn [fs_failure with_console];
    rewrite Hwritable; cbn [field_of value_of] in Hprint; rewrite Hprint;
    reflexivity.
Qed.

(** X4.  [loadConfig] does not check what the file holds.  When the file is
    the JSON document [null], every getter and every set-operation raises a
    [TypeError] and changes nothing, and every command that needs the client
    ends the process with status 1 without a request, whether or not the
    environment variable holds a key. *)
Theorem null_settings_file_breaks_every_operation (w : World)
  (Hnull : read_settings (config_file w) = inr JNull) :
  (forall get,
      In get [getApiKey; getBaseUrl; getDefaultConnectorId; getDefaultCronString] ->
      exists message, get w = (Throw (TypeError message), w))
  /\ (forall op, exists message, perform op w = (Throw (TypeError message), w))
  /\ (forall command args,
        requires_client command ->
        exists w',
          main (command :: args) w = (Exit 1, w')
          /\ requests w' = requests w
          /\ config_file w' = config_file w).
Proof.
  assert (Hload : forall w0, config_file w0 = config_file w ->
                             loadConfig w0 = (Return JNull, w0)).
  { intros w0 Hfile. rewrite loadConfig_spec, Hfile, Hnull. reflexivity. }
  split; [| split].
  - intros get Hget. simpl in Hget.
    destruct Hget as [<- | [<- | [<- | [<- | []]]]];
      unfold getApiKey, getBaseUrl, getDefaultConnectorId, getDefaultCronString,
        bind; rewrite (Hload w eq_refl); eexists; reflexivity.
  - intros op. destruct op; cbn [perform];
      unfold setApiKey, setDefaultConnectorId, setDefaultCronString, bind;
      rewrite (Hload w eq_refl); eexists; reflexivity.
  - intros command args Hcommand.
    rewrite main_after_run.
    assert (Hensure : exists message,
               ensureClient (with_cli_client None w)
               = (Throw (TypeError message), with_cli_client None w)).
    { unfold ensureClient, bind, get_cli_client. cbn [cli_client with_cli_client].
      unfold initializeClient, getApiKey, bind.
      rewrite (Hload (with_cli_client None w) eq_refl). eexists. reflexivity. }
    destruct Hensure as [message Hensure].
    destruct (run_stops_without_client command args (with_cli_client None w)
                (with_cli_client None w) Hcommand) as (_ & Hthrow).
    rewrite (Hthrow _ Hensure).
    eexists. split; [reflexivity |]. split; reflexivity.
Qed.

(* ===================================================================== *)
(** ** More on the client *)
(* ===================================================================== *)

Lemma client_request_of (this : TextQLClient) (endpoint : string) (body : JSValue) :
  In endpoint [CreatePlaybook_endpoint; UpdatePlaybook_endpoint;
               GetConnectors_endpoint] ->
  client_request this (request_of this endpoint "POST" body).
Proof.
  intros Hendpoint. unfold client_request, request_of. simpl.
  split; [reflexivity |]. split; [reflexivity |].
  exists endpoint. split; [exact Hendpoint | reflexivity].
Qed.

Lemma listConnectors_requests (this : TextQLClient) (w : World) :
  requests (snd (listConnectors this w))
  = (requests w ++ [connectors_request this])%list.
Proof.
  rewrite listConnectors_spec. cbv zeta.
  destruct (negb _ || negb _); [reflexivity |].
  unfold lift. destruct (get_prop _ _); reflexivity.
Qed.

Lemma findConnectorByName_requests (this : TextQLClient) (name : string)
  (w : World) :
  requests (snd (findConnectorByName this name w))
  = (requests w ++ [connectors_request this])%list.
Proof.
  pose proof (listConnectors_requests this w) as Hlist.
  unfold findConnectorByName, bind.
  destruct (listConnectors this w) as [[connectors | e | code] w1];
    simpl in Hlist; [| exact Hlist | exact Hlist].
  unfold lift. destruct (call_find connectors (name_matches name)); exact Hlist.
Qed.

(** X5.  Whatever the transport answers, every operation of the client only
    appends to the request log, and what it appends are authenticated
    [POST] requests to the three service endpoints under the client's base
    URL: one request for [createPlaybook], [updatePlaybook],
    [getConnectors], [listConnectors] and [findConnectorByName], one or two
    for [createCompletePlaybook].  Nothing is retried. *)
Theorem client_operations_send_only_authenticated_posts (this : TextQLClient) :
  (forall playbookId, sends_client_requests this 1 1 (createPlaybook this playbookId))
  /\ (forall playbook, sends_client_requests this 1 1 (updatePlaybook this playbook))
  /\ sends_client_requests this 1 1 (getConnectors this)
  /\ sends_client_requests this 1 1 (listConnectors this)
  /\ (forall name, sends_client_requests this 1 1 (findConnectorByName this name))
  /\ (forall params,
        sends_client_requests this 1 2 (createCompletePlaybook this params)).
Proof.
  assert (Hone : forall endpoint body,
             In endpoint [CreatePlaybook_endpoint; UpdatePlaybook_endpoint;
                          GetConnectors_endpoint] ->
             Forall (client_request this) [request_of this endpoint "POST" body]).
  { intros endpoint body Hin. constructor; [| constructor].
    apply client_request_of. exact Hin. }
  repeat split.
  - intros playbookId w. rewrite createPlaybook_spec.
    eexists. split; [reflexivity |]. split; [| simpl; lia].
    apply Hone. simpl. auto.
  - intros playbook w. rewrite updatePlaybook_spec.
    eexists. split; [reflexivity |]. split; [| simpl; lia].
    apply Hone. simpl. auto.
  - intros w. rewrite getConnectors_spec.
    eexists. split; [reflexivity |]. split; [| simpl; lia].
    apply Hone. simpl. auto.
  - intros w. rewrite listConnectors_requests.
    eexists. split; [reflexivity |]. split; [| simpl; lia].
    apply Hone. simpl. auto.
  - intros name w. rewrite findConnectorByName_requests.
    eexists. split; [reflexivity |]. split; [| simpl; lia].
    apply Hone. simpl. auto.
  - intros params w. unfold createCompletePlaybook, bind.
    rewrite createPlaybook_spec.
    destruct (success (response_result _)); cbn [negb].
    + rewrite updatePlaybook_spec. cbn [snd requests with_requests].
      rewrite <- app_assoc.
      eexists. split; [reflexivity |]. split; [| simpl; lia].
      constructor; [apply client_request_of; simpl; auto |].
      apply Hone. simpl. auto.
    + eexists. split; [reflexivity |]. split; [| simpl; lia].
      apply Hone. simpl. auto.
Qed.

(** X6.  The Result of [makeRequest] has [success: true] exactly when the
    response is ok, its body can be read and the body is valid JSON; [data]
    is then the parsed body.  An ok response whose body is not JSON (an
    empty body, say) is a failure.  A Result never carries both: a success
    has no [error], a failure has no [data]. *)
Theorem makeRequest_succeeds_exactly_on_parsed_ok_response
  (this : TextQLClient) (endpoint method : string) (body : JSValue) (w : World) :
  exists result w',
    makeRequest this endpoint method body w = (Return result, w')
    /\ (success result = true <->
        exists r text,
          network w (requests w) (request_of this endpoint method body)
          = Resolves r
          /\ resp_ok r = true
          /\ resp_text r = inr text
          /\ JSON_parse text = inr (data result))
    /\ (success result = true -> error result = JUndefined)
    /\ (success result = false -> data result = JUndefined).
Proof.
  eexists. eexists. split; [apply makeRequest_spec |].
  unfold response_result, failure.
  destruct (network w (requests w) _) as [e | r].
  - simpl. repeat split; try discriminate.
    intros (r & text & Hnet & _). discriminate Hnet.
  - destruct (resp_text r) as [e | text] eqn:Htext.
    + simpl. repeat split; try discriminate.
      intros (r' & text & Hnet & _ & Htext' & _).
      injection Hnet as <-. congruence.
    + destruct (resp_ok r) eqn:Hok.
      * destruct (JSON_parse text) as [e | v] eqn:Hparse; simpl.
        -- repeat split; try discriminate.
           intros (r' & text' & Hnet & _ & Htext' & Hparse').
           injection Hnet as <-. rewrite Htext in Htext'.
           injection Htext' as <-. congruence.
        -- repeat split; try discriminate.
           intros _. exists r, text. auto.
      * destruct (JSON_parse text) as [e | v]; simpl;
          (repeat split; try discriminate;
           intros (r' & text' & Hnet & Hok' & _);
           injection Hnet as <-; congruence).
Qed.

(** X7.  [createCompletePlaybook] always resolves to a Result: it never
    raises and never ends the process.  The Result has [success: true]
    exactly when both the create call and the update call succeed, and it is
    then the Result of the update call: what the create call returned is
    dropped.  A failure carries no [data]. *)
Theorem createCompletePlaybook_succeeds_when_both_calls_do
  (this : TextQLClient) (params : CompleteParams) (w : World) :
  let createResult :=
    response_result
      (network w (requests w) (create_request this (playbookId params))) in
  let updateResult :=
    response_result
      (network w
         (requests w ++ [create_request this (playbookId params)])
         (update_request this (updateRequest_of params))) in
  exists result w',
    createCompletePlaybook this params w = (Return result, w')
    /\ (success result = true <->
        success createResult = true /\ success updateResult = true)
    /\ (success result = true -> result = updateResult)
    /\ (success result = false -> data result = JUndefined).
Proof.
  intros createResult updateResult.
  assert (Hnodata : forall out, success (response_result out) = false ->
                                data (response_result out) = JUndefined).
  { intros out. unfold response_result, failure.
    destruct out as [e | r]; [reflexivity |].
    destruct (resp_text r); [reflexivity |].
    destruct (resp_ok r), (JSON_parse _); simpl; (reflexivity || discriminate). }
  unfold createCompletePlaybook, bind. rewrite createPlaybook_spec.
  fold createResult.
  destruct (success createResult) eqn:Hcreate; cbn [negb].
  - rewrite updatePlaybook_spec. cbn [network requests with_requests].
    fold updateResult.
    eexists. eexists. split; [reflexivity |].
    split; [| split].
    + split; [intros H; split; [reflexivity | exact H] | intros [_ H]; exact H].
    + reflexivity.
    + apply Hnodata.
  - eexists. eexists. split; [reflexivity |]. simpl.
    split; [| split]; try discriminate; try reflexivity.
    split; [discriminate | intros [H _]; discriminate H].
Qed.

(* ===================================================================== *)
(** ** More on connectors *)
(* ===================================================================== *)

Lemma includes_empty (s : string) : includes s "" = true.
Proof. destruct s; reflexivity. Qed.

(** X8.  Edge cases of [findConnectorByName] on a connector list: on an
    empty list it returns [null] for every name, and for the empty name
    (lower-casing the empty string gives the empty string) it returns the
    first connector of a non-empty list, whatever its name. *)
Theorem findConnectorByName_on_empty_list_and_empty_name
  (this : TextQLClient) (cs : list Connector) (w w1 : World)
  (Hlist : listConnectors this w
           = (Return (JArray (map Connector_to_js cs)), w1)) :
  (cs = [] ->
   forall name, findConnectorByName this name w = (Return JNull, w1))
  /\ (toLowerCase "" = "" ->
      forall c rest,
        cs = c :: rest ->
        findConnectorByName this "" w = (Return (Connector_to_js c), w1)).
Proof.
  split.
  - intros -> name.
    rewrite (findConnectorByName_typed this name [] w w1 Hlist). reflexivity.
  - intros Hlower c rest ->.
    rewrite (findConnectorByName_typed this "" (c :: rest) w w1 Hlist).
    cbn [find]. unfold connector_matches. rewrite Hlower, includes_empty.
    reflexivity.
Qed.

Lemma array_find_ext (f g : JSValue -> Thrown + bool) (l : list JSValue) :
  (forall x, f x = g x) -> array_find f l = array_find g l.
Proof.
  intros Hfg. induction l as [| x l IH]; simpl; [reflexivity |].
  rewrite Hfg, IH. reflexivity.
Qed.

(** X9.  The search ignores the case of the query: two names with the same
    lower-casing give the same outcome of [findConnectorByName], whatever
    the server answers. *)
Theorem findConnectorByName_ignores_case_of_query
  (this : TextQLClient) (name1 name2 : string) (w : World)
  (Hsame : toLowerCase name1 = toLowerCase name2) :
  findConnectorByName this name1 w = findConnectorByName this name2 w.
Proof.
  unfold findConnectorByName, bind.
  destruct (listConnectors this w) as [[connectors | e | code] w1];
    try reflexivity.
  assert (Hfind : call_find connectors (name_matches name1)
                  = call_find connectors (name_matches name2)).
  { destruct connectors; try reflexivity.
    apply array_find_ext. intros x. unfold name_matches. rewrite Hsame.
    reflexivity. }
  rewrite Hfind. reflexivity.
Qed.

(** X10.  The data of a successful Result is not checked.  When the server
    answers a [getConnectors] call with a JSON object that has no
    [connectors] property, [listConnectors] returns [undefined] instead of a
    sequence, and [findConnectorByName] raises a [TypeError] for every
    name. *)
Theorem success_without_connectors_is_not_detected
  (this : TextQLClient) (w : World) (d : list (string * JSValue))
  (Hsuccess :
     success (response_result
                (network w (requests w) (connectors_request this))) = true)
  (Hdata :
     data (response_result
             (network w (requests w) (connectors_request this))) = JObject d)
  (Hmissing : assoc_get "connectors" d = JUndefined) :
  exists w1,
    listConnectors this w = (Return JUndefined, w1)
    /\ forall name,
         exists message,
           findConnectorByName this name w = (Throw (TypeError message), w1).
Proof.
  eexists. 
  assert (Hlist : listConnectors this w
                  = (Return JUndefined,
                     with_requests (requests w ++ [connectors_request this]) w)).
  { rewrite listConnectors_spec. cbv zeta.
    fold (connectors_request this). rewrite Hsuccess, Hdata. simpl.
    rewrite Hmissing. reflexivity. }
  split; [exact Hlist |].
  intros name. unfold findConnectorByName, bind. rewrite Hlist.
  eexists. reflexivity.
Qed.

Lemma forEach_connector_lines (cs : list Connector) (w : World) :
  forEach
    (fun connector =>
       id <- lift (get_prop connector "id") ;;
       name <- lift (get_prop connector "name") ;;
       type <- lift (get_prop connector "type") ;;
       status <- lift (get_prop connector "status") ;;
       console_log
         [CText ("  ID: " ++ ToString id ++ " | Name: " ++ ToString name
                 ++ " | Type: " ++ ToString type
                 ++ " | Status: " ++ ToString status)])
    (map Connector_to_js cs) w
  = (Return tt, with_console (console w ++ map connector_line cs) w).
Proof.
  revert w. induction cs as [| c cs IH]; intros w.
  - simpl. rewrite app_nil_r, with_console_same. reflexivity.
  - cbn [map forEach]. unfold bind at 1.
    cbn [Connector_to_js get_prop assoc_get lift ret bind console_log String.eqb
         Ascii.eqb Bool.eqb andb ToString number_to_string].
    rewrite IH. cbn [console with_console].
    rewrite <- app_assoc. reflexivity.
Qed.

(** X11.  [connectors], once the client is there (settings loaded, key
    found): it issues the one [getConnectors] request.  When the Result is a
    success carrying a list of connectors, it prints ['No connectors found']
    for an empty list, and otherwise a header followed by one line per
    connector, in the order of the list, and returns.  When the Result is a
    failure it prints the failure and ends the process with status 1. *)
Theorem handleConnectors_lists_in_order_or_exits
  (args : list string) (w : World) (o : list (string * JSValue))
  (Hsettings : loaded_config w = JObject o)
  (Hfresh : cli_client w = None)
  (Hkey : truthy (resolved_apiKey o w) = true) :
  let this := configured_client o w in
  let result :=
    response_result (network w (requests w) (connectors_request this)) in
  (forall d cs,
      success result = true ->
      data result = JObject d ->
      assoc_get "connectors" d = JArray (map Connector_to_js cs) ->
      exists earlier w',
        handleConnectors args w = (Return tt, w')
        /\ console w' = (earlier ++ connectors_listing cs)%list
        /\ requests w' = (requests w ++ [connectors_request this])%list)
  /\ (success result = false ->
      exists earlier w',
        handleConnectors args w = (Exit 1, w')
        /\ console w'
           = (earlier
              ++ [console_error_call
                    [CText "❌ Failed to fetch connectors:";
                     CThrown (JSError "Error" (connectors_failure_message result))]])%list
        /\ requests w' = (requests w ++ [connectors_request this])%list).
Proof.
  intros this result.
  destruct (ensureClient_loaded w o Hsettings Hfresh) as [c Hensure].
  rewrite Hkey in Hensure. fold this in Hensure.
  split.
  - intros d cs Hsuccess Hdata Hlist.
    unfold handleConnectors, bind. rewrite Hensure.
    unfold try_catch, bind, call_on. rewrite listConnectors_spec. cbv zeta.
    cbn [network requests with_console with_cli_client].
    fold (connectors_request this). fold result.
    rewrite Hsuccess, Hdata. cbn [negb orb truthy lift get_prop ret].
    rewrite Hlist.
    destruct cs as [| c0 cs].
    + exists c. eexists. split; [reflexivity |]. split; reflexivity.
    + cbn [map List.length get_prop String.eqb Ascii.eqb Bool.eqb andb lift ret
           is_zero Z.of_nat Pos.of_succ_nat].
      cbn [console_log bind]. unfold call_forEach.
      match goal with
      | |- context [forEach ?f ?l ?w0] =>
          replace (forEach f l w0)
            with (@Return unit tt,
                  with_console (console w0 ++ map connector_line (c0 :: cs)) w0)
            by (symmetry; exact (forEach_connector_lines (c0 :: cs) w0))
      end.
      exists c. eexists. split; [reflexivity |].
      split; [| reflexivity].
      cbn [console with_console with_requests connectors_listing].
      rewrite <- app_assoc. reflexivity.
  - intros Hfail.
    unfold handleConnectors, bind. rewrite Hensure.
    unfold try_catch, bind, call_on. rewrite listConnectors_spec. cbv zeta.
    cbn [network requests with_console with_cli_client].
    fold (connectors_request this). fold result.
    rewrite Hfail. cbn [negb orb].
    exists c. eexists. split; [reflexivity |]. split; reflexivity.
Qed.

(** X22.  The search stops at the first match.  When the sequence the
    server returned starts with well-formed connectors of which one
    matches, [findConnectorByName] returns the first that does, and what
    comes after it is not inspected, however malformed.  When none of them
    matches and the next element is [null], the search raises a
    [TypeError]. *)
Theorem findConnectorByName_does_not_look_past_the_first_match
  (this : TextQLClient) (name : string) (cs : list Connector)
  (rest : list JSValue) (w w1 : World)
  (Hlist : listConnectors this w
           = (Return (JArray (map Connector_to_js cs ++ rest)), w1)) :
  (forall c,
      find (connector_matches name) cs = Some c ->
      findConnectorByName this name w = (Return (Connector_to_js c), w1))
  /\ (find (connector_matches name) cs = None ->
      forall later,
        rest = JNull :: later ->
        exists message,
          findConnectorByName this name w = (Throw (TypeError message), w1)).
Proof.
  split.
  - intros c Hfind. unfold findConnectorByName, bind. rewrite Hlist.
    unfold call_find. rewrite array_find_app_typed, Hfind. reflexivity.
  - intros Hfind later ->. unfold findConnectorByName, bind. rewrite Hlist.
    unfold call_find. rewrite array_find_app_typed, Hfind.
    eexists. reflexivity.
Qed.

(* ===================================================================== *)
(** ** More on the command line *)
(* ===================================================================== *)

(** The [switch] of [run], as a chain of comparisons. *)
Lemma command_match (A : Type) (a b c d e f : A) (command : string) :
  match command with
  | "config" => a
  | "connectors" => b
  | "create" => c
  | "update" => d
  | "help" | "--help" | "-h" => e
  | _ => f
  end
  = if (command =? "config")%string then a
    else if (command =? "connectors")%string then b
    else if (command =? "create")%string then c
    else if (command =? "update")%string then d
    else if (command =? "help")%string || (command =? "--help")%string
            || (command =? "-h")%string then e
    else f.
Proof. destruct_matched_string; reflexivity. Qed.

(** The [switch] of [handleConfig], as a chain of comparisons. *)
Lemma subcommand_match (A : Type) (a b c d f : A) (subcommand : string) :
  match subcommand with
  | "set-api-key" => a
  | "set-connector" => b
  | "set-cron" => c
  | "show" => d
  | _ => f
  end
  = if (subcommand =? "set-api-key")%string then a
    else if (subcommand =? "set-connector")%string then b
    else if (subcommand =? "set-cron")%string then c
    else if (subcommand =? "show")%string then d
    else f.
Proof. destruct_matched_string; reflexivity. Qed.

Lemma run_dispatch (command : string) (rest : list string) :
  run (command :: rest)
  = if (command =? "config")%string then handleConfig rest
    else if (command =? "connectors")%string then handleConnectors rest
    else if (command =? "create")%string then handleCreate rest
    else if (command =? "update")%string then handleUpdate rest
    else if (command =? "help")%string || (command =? "--help")%string
            || (command =? "-h")%string then showHelp
    else unknown_command (JString command).
Proof.
  unfold run. cbn [arg_at nth_error tl]. apply command_match.
Qed.

Lemma quiet_ret (A : Type) (a : A) : quiet (ret a).
Proof. intros w. reflexivity. Qed.

Lemma quiet_throw (A : Type) (e : Thrown) : quiet (@throw A e).
Proof. intros w. reflexivity. Qed.

Lemma quiet_process_exit (A : Type) (code : Z) : quiet (@process_exit A code).
Proof. intros w. reflexivity. Qed.

Lemma quiet_lift (A : Type) (r : Thrown + A) : quiet (lift r).
Proof. destruct r; intros w; reflexivity. Qed.

Lemma quiet_bind (A B : Type) (m : M A) (k : A -> M B) :
  quiet m -> (forall a, quiet (k a)) -> quiet (bind m k).
Proof.
  intros Hm Hk w. unfold bind. specialize (Hm w).
  destruct (m w) as [[a | e | code] w']; simpl in *;
    [rewrite Hk; exact Hm | exact Hm | exact Hm].
Qed.

Lemma quiet_try_catch (A : Type) (m : M A) (handler : Thrown -> M A) :
  quiet m -> (forall e, quiet (handler e)) -> quiet (try_catch m handler).
Proof.
  intros Hm Hh w. unfold try_catch. specialize (Hm w).
  destruct (m w) as [[a | e | code] w']; simpl in *;
    [exact Hm | rewrite Hh; exact Hm | exact Hm].
Qed.

Lemma quiet_console_log (args : list ConsoleArg) : quiet (console_log args).
Proof. intros w. reflexivity. Qed.

Lemma quiet_console_warn (args : list ConsoleArg) : quiet (console_warn args).
Proof. intros w. reflexivity. Qed.

Lemma quiet_console_error (args : list ConsoleArg) : quiet (console_error args).
Proof. intros w. reflexivity. Qed.

Lemma quiet_existsSync : quiet existsSync.
Proof. intros w. reflexivity. Qed.

Lemma quiet_readFileSync : quiet readFileSync.
Proof. intros w. unfold readFileSync. destruct (config_file w); reflexivity. Qed.

Lemma quiet_mkdirSync : quiet mkdirSync.
Proof. intros w. unfold mkdirSync. destruct (fs_failure w); reflexivity. Qed.

Lemma quiet_writeFileSync (data : option string) : quiet (writeFileSync data).
Proof.
  intros w. unfold writeFileSync.
  destruct data; [destruct (fs_failure w) |]; reflexivity.
Qed.

Create HintDb quiet.

#[local] Hint Resolve quiet_ret quiet_throw quiet_process_exit quiet_lift
  quiet_console_log quiet_console_warn quiet_console_error quiet_existsSync
  quiet_readFileSync quiet_mkdirSync quiet_writeFileSync : quiet.

Ltac quiet_steps :=
  repeat first
    [ apply quiet_bind; [| intros ?]
    | apply quiet_try_catch; [| intros ?]
    | solve [auto with quiet]
    | match goal with
      | |- quiet (if ?b then _ else _) => destruct b
      | |- quiet (match ?x with _ => _ end) => destruct x
      end ].

Lemma quiet_loadConfig : quiet loadConfig.
Proof. unfold loadConfig. quiet_steps. Qed.

Lemma quiet_saveConfig (config : JSValue) : quiet (saveConfig config).
Proof. unfold saveConfig. quiet_steps. Qed.

#[local] Hint Resolve quiet_loadConfig quiet_saveConfig : quiet.

Lemma quiet_setApiKey (apiKey : string) : quiet (setApiKey apiKey).
Proof. unfold setApiKey. quiet_steps. Qed.

Lemma quiet_setDefaultConnectorId (n : number) : quiet (setDefaultConnectorId n).
Proof. unfold setDefaultConnectorId. quiet_steps. Qed.

Lemma quiet_setDefaultCronString (c : string) : quiet (setDefaultCronString c).
Proof. unfold setDefaultCronString. quiet_steps. Qed.

#[local] Hint Resolve quiet_setApiKey quiet_setDefaultConnectorId
  quiet_setDefaultCronString : quiet.

Lemma handleConfig_dispatch (subcommand : string) (rest : list string) :
  handleConfig (subcommand :: rest)
  = if (subcommand =? "set-api-key")%string then
      handleConfig ("set-api-key" :: rest)
    else if (subcommand =? "set-connector")%string then
      handleConfig ("set-connector" :: rest)
    else if (subcommand =? "set-cron")%string then
      handleConfig ("set-cron" :: rest)
    else if (subcommand =? "show")%string then
      handleConfig ("show" :: rest)
    else
      (console_error [CText ("❌ Unknown config command: " ++ subcommand)] ;;
       console_log [CText "Available config commands: set-api-key, set-connector, set-cron, show"] ;;
       process_exit 1).
Proof.
  unfold handleConfig at 1. cbn [arg_at nth_error ToString].
  rewrite subcommand_match.
  destruct (String.eqb_spec subcommand "set-api-key") as [-> | _]; [reflexivity |].
  destruct (String.eqb_spec subcommand "set-connector") as [-> | _]; [reflexivity |].
  destruct (String.eqb_spec subcommand "set-cron") as [-> | _]; [reflexivity |].
  destruct (String.eqb_spec subcommand "show") as [-> | _]; reflexivity.
Qed.

Lemma quiet_handleConfig (args : list string) : quiet (handleConfig args).
Proof.
  destruct args as [| subcommand rest].
  - unfold handleConfig. cbn [arg_at nth_error ToString]. quiet_steps.
  - rewrite handleConfig_dispatch.
    destruct (subcommand =? "set-api-key")%string;
      [| destruct (subcommand =? "set-connector")%string;
         [| destruct (subcommand =? "set-cron")%string;
            [| destruct (subcommand =? "show")%string]]];
      unfold handleConfig; cbn [arg_at nth_error];
      try (destruct rest as [| argument more]; cbn [nth_error]);
      quiet_steps.
Qed.

Lemma quiet_showHelp : quiet showHelp.
Proof. unfold showHelp. quiet_steps. Qed.

(** X12.  The commands that do not need the client ([config] with any
    subcommand and arguments, [help], [--help], [-h], an unknown command, no
    command at all) never issue a request, whatever they find in the
    settings file and however they end. *)
Theorem commands_without_client_issue_no_request (args : list string) (w : World)
  (Hcommand : needs_no_client args) :
  requests (snd (run args w)) = requests w
  /\ requests (snd (main args w)) = requests w.
Proof.
  assert (Hrun : quiet (run args)).
  { destruct args as [| command rest].
    - unfold run. cbn [arg_at nth_error]. quiet_steps.
    - rewrite run_dispatch. unfold needs_no_client, requires_client in Hcommand.
      destruct (String.eqb_spec command "config"); [apply quiet_handleConfig |].
      destruct (String.eqb_spec command "connectors");
        [exfalso; apply Hcommand; left; assumption |].
      destruct (String.eqb_spec command "create");
        [exfalso; apply Hcommand; right; left; assumption |].
      destruct (String.eqb_spec command "update");
        [exfalso; apply Hcommand; right; right; assumption |].
      destruct (_ || _); [apply quiet_showHelp |].
      unfold unknown_command. quiet_steps. }
  split; [apply Hrun |].
  rewrite main_after_run. specialize (Hrun (with_cli_client None w)).
  destruct (run args (with_cli_client None w)) as [[u | e | code] w'];
    exact Hrun.
Qed.

(** X13.  The validation failures of [config] end the process with status
    1 after printing one message each, and touch nothing else: the settings
    file is neither read nor written, whatever state it is in.  A
    [set-api-key], [set-connector] or [set-cron] whose argument is missing
    or empty asks for the argument; a [set-connector] whose argument does
    not start with a number asks for a valid connector id; an unknown
    subcommand, or none, is named in the message and followed by the list
    of the subcommands there are. *)
Theorem config_validation_failures_only_print (w : World) :
  (forall rest,
      argument_missing rest ->
      handleConfig ("set-api-key" :: rest) w
      = (Exit 1,
         with_console
           (console w
            ++ [console_error_call [CText "❌ Please provide an API key"]]) w)
      /\ handleConfig ("set-connector" :: rest) w
         = (Exit 1,
            with_console
              (console w
               ++ [console_error_call [CText "❌ Please provide a connector ID"]])
              w)
      /\ handleConfig ("set-cron" :: rest) w
         = (Exit 1,
            with_console
              (console w
               ++ [console_error_call [CText "❌ Please provide a cron string"]])
              w))
  /\ (forall idArg more,
        idArg <> "" ->
        parseInt idArg 10 = NaN ->
        handleConfig ("set-connector" :: idArg :: more) w
        = (Exit 1,
           with_console
             (console w
              ++ [console_error_call
                    [CText "❌ Please provide a valid connector ID"]]) w))
  /\ (forall subcommand rest,
        ~ In subcommand ["set-api-key"; "set-connector"; "set-cron"; "show"] ->
        handleConfig (subcommand :: rest) w
        = (Exit 1,
           with_console
             (console w
              ++ [console_error_call
                    [CText ("❌ Unknown config command: " ++ subcommand)];
                  console_log_call
                    [CText "Available config commands: set-api-key, set-connector, set-cron, show"]])
             w))
  /\ handleConfig [] w
     = (Exit 1,
        with_console
          (console w
           ++ [console_error_call [CText "❌ Unknown config command: undefined"];
               console_log_call
                 [CText "Available config commands: set-api-key, set-connector, set-cron, show"]])
          w).
Proof.
  split; [| split; [| split]].
  - intros rest [-> | [more ->]]; repeat split.
  - intros idArg more Hgiven Hnan.
    unfold handleConfig. cbn [arg_at nth_error].
    assert (Htruthy : truthy (JString idArg) = true).
    { simpl. destruct (String.eqb_spec idArg ""); [contradiction | reflexivity]. }
    rewrite Htruthy. cbn [negb]. rewrite Hnan. reflexivity.
  - intros subcommand rest Hsub. rewrite handleConfig_dispatch.
    destruct (String.eqb_spec subcommand "set-api-key");
      [exfalso; apply Hsub; simpl; auto |].
    destruct (String.eqb_spec subcommand "set-connector");
      [exfalso; apply Hsub; simpl; auto |].
    destruct (String.eqb_spec subcommand "set-cron");
      [exfalso; apply Hsub; simpl; auto |].
    destruct (String.eqb_spec subcommand "show");
      [exfalso; apply Hsub; simpl; auto |].
    unfold bind. simpl. rewrite <- app_assoc. reflexivity.
  - unfold handleConfig, bind. simpl. rewrite <- app_assoc. reflexivity.
Qed.

Lemma main_config_set_cron (cronString : string) (w : World)
  (o : list (string * JSValue)) (text : string) :
  persisted w o ->
  fs_failure w = None ->
  cronString <> "" ->
  JSON_stringify 2
    (JObject (assoc_set "defaultCronString" (JString cronString) o)) = Some text ->
  main ["config"; "set-cron"; cronString] w
  = (Return tt,
     with_console
       (console w
        ++ [console_log_call
              [CText ("✅ Default cron string set to " ++ cronString)]])
       (with_config_file (Content text) (with_cli_client None w))).
Proof.
  intros Hp Hfs Hne Hprint.
  rewrite main_after_run.
  change (run ["config"; "set-cron"; cronString])
    with (handleConfig ["set-cron"; cronString]).
  unfold handleConfig. cbn [arg_at nth_error truthy].
  destruct (String.eqb_spec cronString "") as [-> | _]; [contradiction |].
  cbn [negb]. unfold bind.
  change (setDefaultCronString cronString)
    with (perform (SetDefaultCronString cronString)).
  rewrite (perform_persisted _ (with_cli_client None w) o Hp), saveConfig_spec.
  cbn [fs_failure with_cli_client field_of value_of].
  rewrite Hfs, Hprint. reflexivity.
Qed.

(** X14.  From [config set-cron] to [update].  After [config set-cron c]
    has run on a well-formed, writable settings file and returned, an
    [update] without a [--cron] flag issues the update request built from
    the new settings, whose [cronString] is [c]. *)
Theorem set_cron_then_update_submits_the_new_default
  (cronString : string) (args : list string) (w : World)
  (o : list (string * JSValue)) (text : string)
  (Hsettings : persisted w o)
  (Hwritable : fs_failure w = None)
  (Hcron : cronString <> "")
  (Hprint : JSON_stringify 2
              (JObject (assoc_set "defaultCronString" (JString cronString) o))
            = Some text)
  (Hread : JSON_parse text
           = inr (JObject (assoc_set "defaultCronString" (JString cronString) o)))
  (Hflag : truthy (flag args "--cron=") = false) :
  let o' := assoc_set "defaultCronString" (JString cronString) o in
  exists w1,
    main ["config"; "set-cron"; cronString] w = (Return tt, w1)
    /\ requests w1 = requests w
    /\ requests_after (main ("update" :: args)) w1
       = (requests w
          ++ if truthy (resolved_apiKey o' w)
                && truthy (flag args "--id=")
                && truthy (resolved_connector (flag args "--connector=") o')
             then [update_request (configured_client o' w) (update_payload args o')]
             else [])%list
    /\ opt_chain_prop (update_payload args o') "cronString" = JString cronString.
Proof.
  intros o'. eexists.
  split; [apply (main_config_set_cron cronString w o text); assumption |].
  split; [reflexivity |].
  split.
  - unfold requests_after. rewrite main_update.
    match goal with
    | |- context [handleUpdate args ?w0] =>
        destruct (handleUpdate_requests args w0 o')
          as (w' & [Hrun | Hrun] & Hrequests);
          [unfold loaded_config; simpl; rewrite Hread; reflexivity
          | reflexivity | | ];
          rewrite Hrun; exact Hrequests
    end.
  - unfold update_payload, cli_updateRequest, opt_chain_prop. simpl.
    unfold resolved_cron. rewrite Hflag. unfold o'.
    rewrite assoc_get_set_same. unfold js_or. simpl.
    destruct (String.eqb_spec cronString ""); [contradiction | reflexivity].
Qed.

Lemma required_flags_given_true (args : list string) :
  required_flags_given args = true ->
  truthy (flag args "--id=") = true
  /\ truthy (flag args "--prompt=") = true
  /\ truthy (flag args "--name=") = true
  /\ truthy (split_commas (flag args "--emails=")) = true.
Proof.
  unfold required_flags_given. intros H.
  apply andb_prop in H. destruct H as [H Hemails].
  apply andb_prop in H. destruct H as [H Hname].
  apply andb_prop in H. destruct H as [Hid Hprompt]. auto.
Qed.

Lemma default_to_truthy (d v : JSValue) :
  truthy v = true -> default_to d v = v.
Proof. destruct v; simpl; intros H; (reflexivity || discriminate H). Qed.

Lemma js_or_truthy (a b : JSValue) : truthy a = true -> js_or a b = a.
Proof. unfold js_or. intros ->. reflexivity. Qed.

(** What [handleCreate] does once the key, the required flags and the
    connector are there. *)
Lemma handleCreate_runs (args : list string) (w : World)
  (o : list (string * JSValue)) :
  loaded_config w = JObject o ->
  cli_client w = None ->
  truthy (resolved_apiKey o w) = true ->
  required_flags_given args = true ->
  truthy (resolved_connector (flag args "--connector=") o) = true ->
  let this := configured_client o w in
  let create := create_request this (flag args "--id=") in
  let update := update_request this (updateRequest_of (create_params args o)) in
  let createResult := response_result (network w (requests w) create) in
  let updateResult :=
    response_result (network w (requests w ++ [create]) update) in
  exists earlier w',
    handleCreate args w
    = ((if success createResult && success updateResult
        then Return tt else Exit 1), w')
    /\ requests w'
       = (requests w ++ create :: (if success createResult then [update] else []))%list
    /\ console w'
       = (earlier
          ++ if success createResult
             then if success updateResult
                  then [console_log_call [CText "✅ Playbook created successfully!"];
                        console_log_call [CText "📋 Playbook details:"];
                        console_log_call [stringified 2 (data updateResult)]]
                  else [console_error_call
                          [CText "❌ Failed to create playbook:";
                           CValue (opt_chain_prop (error updateResult) "message")]]
             else [console_error_call
                     [CText "❌ Failed to create playbook:";
                      CValue (opt_chain_prop (error createResult) "message")]])%list.
Proof.
  intros Hl Hnone Hkey Hflags Hconn this create update createResult updateResult.
  destruct (required_flags_given_true args Hflags)
    as (Hid & Hprompt & Hname & Hemails).
  unfold handleCreate, bind.
  destruct (ensureClient_loaded w o Hl Hnone) as [c Hc]. rewrite Hc, Hkey.
  cbv zeta. rewrite Hid, Hprompt, Hname, Hemails. cbn [negb orb]. cbv beta iota.
  match goal with
  | |- context [resolve_connectorId ?f ?w0] =>
      destruct (resolve_connectorId_loaded f w0 o Hl) as [c2 Hc2]; rewrite Hc2
  end.
  rewrite Hconn. cbn [negb]. cbv beta iota.
  unfold try_catch, bind.
  match goal with
  | |- context [resolve_cronString ?f ?w0] =>
      destruct (resolve_cronString_loaded f w0 o Hl) as [c3 Hc3]; rewrite Hc3
  end.
  unfold call_on, createCompletePlaybook, bind.
  rewrite createPlaybook_spec.
  cbn [playbookId network requests with_console with_cli_client].
  fold this. fold create. fold createResult.
  destruct (success createResult); cbn [negb andb].
  - rewrite updatePlaybook_spec.
    cbn [network requests with_console with_cli_client with_requests].
    fold (create_params args o). fold this. fold update. fold updateResult.
    destruct (success updateResult).
    + exists c3. eexists. split; [reflexivity |].
      split; [simpl; rewrite <- app_assoc; reflexivity |].
      simpl. rewrite <- !app_assoc. reflexivity.
    + exists c3. eexists. split; [reflexivity |].
      split; [simpl; rewrite <- app_assoc; reflexivity | reflexivity].
  - exists c3. eexists. split; [reflexivity |]. split; reflexivity.
Qed.

(** X15.  The required flags of [create], the key being there.  When
    [--id], [--prompt] or [--name] is missing or empty, or when [--emails] is
    missing, the process ends with status 1 after the usage message, and no
    request is issued, whatever the other flags and the settings say.  An
    [--emails] flag that is there is never taken for missing, even with
    nothing after its [=]: with the three other flags and a connector id the
    invocation goes on to the create request, and the addresses it submits
    are the pieces of the value between its commas, the one empty address for
    an empty value. *)
Theorem create_without_a_required_flag_prints_usage
  (args : list string) (w : World) (o : list (string * JSValue))
  (Hsettings : loaded_config w = JObject o)
  (Hkey : truthy (resolved_apiKey o w) = true) :
  (missing_or_empty args "--id=" \/ missing_or_empty args "--prompt="
   \/ missing_or_empty args "--name=" \/ flag args "--emails=" = JUndefined ->
   exists earlier w',
     main ("create" :: args) w = (Exit 1, w')
     /\ console w'
        = (earlier
           ++ [console_error_call [CText "❌ Missing required parameters. Usage:"];
               console_log_call [CText create_usage]])%list
     /\ requests w' = requests w
     /\ config_file w' = config_file w)
  /\ (forall addresses,
        truthy (flag args "--id=") = true ->
        truthy (flag args "--prompt=") = true ->
        truthy (flag args "--name=") = true ->
        flag args "--emails=" = JString addresses ->
        truthy (resolved_connector (flag args "--connector=") o) = true ->
        let this := configured_client o w in
        let create := create_request this (flag args "--id=") in
        let createResult := response_result (network w (requests w) create) in
        requests_after (main ("create" :: args)) w
        = (requests w
           ++ create
              :: (if success createResult
                  then [update_request this
                          (updateRequest_of (create_params args o))]
                  else []))%list
        /\ emailAddresses (create_params args o)
           = JArray (map JString (split "," addresses))
        /\ (addresses = "" ->
            emailAddresses (create_params args o) = JArray [JString ""])).
Proof.
  split.
  - intros Hmissing.
    rewrite main_create. unfold handleCreate, bind.
    destruct (ensureClient_loaded (with_cli_client None w) o Hsettings eq_refl)
      as [c Hc].
    rewrite Hc. change (resolved_apiKey o (with_cli_client None w))
      with (resolved_apiKey o w). rewrite Hkey. cbv zeta.
    assert (Htest : negb (truthy (flag args "--id="))
                    || negb (truthy (flag args "--prompt="))
                    || negb (truthy (flag args "--name="))
                    || negb (truthy (split_commas (flag args "--emails=")))
                    = true).
    { destruct Hmissing as [[H | H] | [[H | H] | [[H | H] | H]]]; rewrite H;
        cbn [truthy split_commas String.eqb negb orb];
        rewrite ?orb_true_r; reflexivity. }
    rewrite Htest. cbv beta iota.
    exists c. eexists. split; [reflexivity |].
    split; [| split; reflexivity].
    cbn [console with_console console_error console_log fst snd].
    rewrite <- app_assoc. reflexivity.
  - intros addresses Hid Hprompt Hname Hemails Hconnector this create createResult.
    assert (Hflags : required_flags_given args = true).
    { unfold required_flags_given. rewrite Hid, Hprompt, Hname, Hemails.
      reflexivity. }
    split; [| split].
    + unfold requests_after. rewrite main_create.
      destruct (handleCreate_runs args (with_cli_client None w) o
                  Hsettings eq_refl Hkey Hflags Hconnector)
        as (earlier & w' & Hrun & Hrequests & _).
      cbv zeta in Hrun, Hrequests.
      change (configured_client o (with_cli_client None w)) with this in *.
      cbn [network requests with_cli_client] in Hrun, Hrequests.
      fold create in Hrun, Hrequests. fold createResult in Hrun, Hrequests.
      rewrite Hrun.
      destruct (success createResult && _); exact Hrequests.
    + unfold create_params. cbn [emailAddresses]. rewrite Hemails. reflexivity.
    + intros ->. unfold create_params. cbn [emailAddresses]. rewrite Hemails.
      reflexivity.
Qed.

(** X16.  [create], once the key, the four required flags and a connector
    id are there: it issues the create request and, only if that succeeds,
    the update request, and nothing else.  It returns (exit status 0) when
    both calls succeed and ends the process with status 1 otherwise.  The
    payload of the update request always has the status [STATUS_ACTIVE]: a
    [--status] flag is not read by [create]; apart from that it is the
    payload [update] submits for the same arguments, property by
    property. *)
Theorem create_issues_create_then_update
  (args : list string) (w : World) (o : list (string * JSValue))
  (Hsettings : loaded_config w = JObject o)
  (Hkey : truthy (resolved_apiKey o w) = true)
  (Hflags : required_flags_given args = true)
  (Hconnector : truthy (resolved_connector (flag args "--connector=") o) = true) :
  let this := configured_client o w in
  let create := create_request this (flag args "--id=") in
  let update := update_request this (updateRequest_of (create_params args o)) in
  let createResult := response_result (network w (requests w) create) in
  let updateResult :=
    response_result (network w (requests w ++ [create]) update) in
  (exists w',
      main ("create" :: args) w
      = ((if success createResult && success updateResult
          then Return tt else Exit 1), w')
      /\ requests w'
         = (requests w
            ++ create :: (if success createResult then [update] else []))%list)
  /\ opt_chain_prop (updateRequest_of (create_params args o)) "status"
     = JString "STATUS_ACTIVE"
  /\ (checked_status (flag args "--status=") = JUndefined ->
      updateRequest_of (create_params args o) = update_payload args o)
  /\ (exists properties,
        update_payload args o = JObject properties
        /\ updateRequest_of (create_params args o)
           = JObject (assoc_set "status" (JString "STATUS_ACTIVE") properties)).
Proof.
  intros this create update createResult updateResult.
  split; [| split; [| split]].
  - rewrite main_create.
    destruct (handleCreate_runs args (with_cli_client None w) o
                Hsettings eq_refl Hkey Hflags Hconnector)
      as (earlier & w' & Hrun & Hrequests & _).
    cbv zeta in Hrun, Hrequests.
    change (configured_client o (with_cli_client None w)) with this in *.
    cbn [network requests with_cli_client] in Hrun, Hrequests.
    fold create in Hrun, Hrequests. fold update in Hrun, Hrequests.
    fold createResult in Hrun, Hrequests. fold updateResult in Hrun.
    rewrite Hrun. exists w'.
    split; [| exact Hrequests].
    destruct (success createResult && success updateResult); reflexivity.
  - reflexivity.
  - intros Hstatus.
    destruct (required_flags_given_true args Hflags)
      as (Hid & Hprompt & Hname & Hemails).
    unfold updateRequest_of, update_payload, cli_updateRequest, create_params.
    cbn [prompt name playbookId emailAddresses status connectorId cronString
         default_to].
    rewrite Hstatus.
    rewrite (js_or_truthy _ _ Hprompt), (js_or_truthy _ _ Hname),
      (js_or_truthy _ _ Hemails).
    rewrite (default_to_truthy _ _ (truthy_resolved_cron _ o)).
    reflexivity.
  - destruct (required_flags_given_true args Hflags)
      as (Hid & Hprompt & Hname & Hemails).
    eexists. split; [reflexivity |].
    unfold updateRequest_of, create_params.
    cbn [prompt name playbookId emailAddresses status connectorId cronString
         default_to assoc_set String.eqb Ascii.eqb Bool.eqb].
    rewrite (js_or_truthy _ _ Hprompt), (js_or_truthy _ _ Hname),
      (js_or_truthy _ _ Hemails).
    rewrite (default_to_truthy _ _ (truthy_resolved_cron _ o)).
    reflexivity.
Qed.

(** What [handleUpdate] does once the key, the id and the connector are
    there, whatever the state of the settings file. *)
Lemma handleUpdate_runs (args : list string) (w : World)
  (o : list (string * JSValue)) :
  loaded_config w = JObject o ->
  cli_client w = None ->
  truthy (resolved_apiKey o w) = true ->
  truthy (flag args "--id=") = true ->
  truthy (resolved_connector (flag args "--connector=") o) = true ->
  let this := configured_client o w in
  let result :=
    response_result
      (network w (requests w) (update_request this (update_payload args o))) in
  exists earlier w',
    handleUpdate args w
    = ((if success result then Return tt else Exit 1), w')
    /\ console w'
       = (earlier
          ++ if success result
             then [console_log_call [CText "✅ Playbook updated successfully!"];
                   console_log_call [CText "📋 Updated playbook details:"];
                   console_log_call [stringified 2 (data result)]]
             else [console_error_call
                     [CText "❌ Failed to update playbook:";
                      CValue (opt_chain_prop (error result) "message")]])%list.
Proof.
  intros Hl Hnone Hkey Hid Hconn this result.
  unfold handleUpdate, bind.
  destruct (ensureClient_loaded w o Hl Hnone) as [c Hc]. rewrite Hc, Hkey.
  cbv zeta. rewrite Hid. cbn [negb]. cbv beta iota.
  match goal with
  | |- context [resolve_connectorId ?f ?w0] =>
      destruct (resolve_connectorId_loaded f w0 o Hl) as [c2 Hc2]; rewrite Hc2
  end.
  rewrite Hconn. cbn [negb]. cbv beta iota.
  unfold try_catch, bind.
  match goal with
  | |- context [resolve_cronString ?f ?w0] =>
      destruct (resolve_cronString_loaded f w0 o Hl) as [c3 Hc3]; rewrite Hc3
  end.
  unfold call_on. rewrite updatePlaybook_spec.
  fold (update_payload args o).
  cbn [network requests with_console with_cli_client].
  fold this. fold result.
  destruct (success result).
  - exists c3. eexists. split; [reflexivity |].
    simpl. rewrite <- !app_assoc. reflexivity.
  - exists c3. eexists. split; reflexivity.
Qed.

(** X17.  The exit status of [update] follows the Result of the update
    call: when the Result has [success: true] the command prints the data
    and returns (exit status 0); when it has [success: false] it prints the
    error message of the Result and ends the process with status 1. *)
Theorem update_exit_status_follows_the_result
  (args : list string) (w : World) (o : list (string * JSValue))
  (Hsettings : loaded_config w = JObject o)
  (Hkey : truthy (resolved_apiKey o w) = true)
  (Hid : truthy (flag args "--id=") = true)
  (Hconnector : truthy (resolved_connector (flag args "--connector=") o) = true) :
  let result :=
    response_result
      (network w (requests w)
         (update_request (configured_client o w) (update_payload args o))) in
  exists earlier w',
    main ("update" :: args) w
    = ((if success result then Return tt else Exit 1), w')
    /\ console w'
       = (earlier
          ++ if success result
             then [console_log_call [CText "✅ Playbook updated successfully!"];
                   console_log_call [CText "📋 Updated playbook details:"];
                   console_log_call [stringified 2 (data result)]]
             else [console_error_call
                     [CText "❌ Failed to update playbook:";
                      CValue (opt_chain_prop (error result) "message")]])%list.
Proof.
  intros result. rewrite main_update.
  destruct (handleUpdate_runs args (with_cli_client None w) o
              Hsettings eq_refl Hkey Hid Hconnector)
    as (earlier & w' & Hrun & Hconsole).
  cbv zeta in Hrun, Hconsole.
  change (configured_client o (with_cli_client None w))
    with (configured_client o w) in *.
  cbn [network requests with_cli_client] in Hrun, Hconsole.
  fold result in Hrun, Hconsole.
  rewrite Hrun. exists earlier, w'.
  split; [| exact Hconsole].
  destruct (success result); reflexivity.
Qed.

Lemma nan_connector_is_falsy (connectorFlag : JSValue)
  (o : list (string * JSValue)) :
  truthy connectorFlag = true ->
  parseInt (ToString connectorFlag) 0 = NaN ->
  truthy (resolved_connector connectorFlag o) = false.
Proof.
  intros Hflag Hnan. unfold resolved_connector. rewrite Hflag, Hnan. reflexivity.
Qed.

(** X18.  A [--connector] flag that is given but does not start with a
    number is not replaced by the persisted default connector: [create] and
    [update] end the process with status 1 on the missing-connector error,
    without a request, whatever [defaultConnectorId] the settings hold. *)
Theorem unparsable_connector_flag_hides_the_default
  (args : list string) (w : World) (o : list (string * JSValue))
  (Hsettings : loaded_config w = JObject o)
  (Hkey : truthy (resolved_apiKey o w) = true)
  (Hflag : truthy (flag args "--connector=") = true)
  (Hnan : parseInt (ToString (flag args "--connector=")) 0 = NaN) :
  (required_flags_given args = true ->
   exists earlier w',
     main ("create" :: args) w = (Exit 1, w')
     /\ console w'
        = (earlier ++ [console_error_call [CText no_connector_message]])%list
     /\ requests w' = requests w)
  /\ (truthy (flag args "--id=") = true ->
      exists earlier w',
        main ("update" :: args) w = (Exit 1, w')
        /\ console w'
           = (earlier ++ [console_error_call [CText no_connector_message]])%list
        /\ requests w' = requests w).
Proof.
  pose proof (nan_connector_is_falsy _ o Hflag Hnan) as Hfalsy.
  split.
  - intros Hflags.
    destruct (required_flags_given_true args Hflags)
      as (Hid & Hprompt & Hname & Hemails).
    rewrite main_create.
    destruct (handleCreate_zero_connector args (with_cli_client None w) o
                Hsettings eq_refl Hkey Hid Hprompt Hname Hemails Hfalsy)
      as (earlier & w' & Hrun & Hconsole & Hrequests).
    rewrite Hrun. exists earlier, w'. auto.
  - intros Hid. rewrite main_update.
    destruct (handleUpdate_zero_connector args (with_cli_client None w) o
                Hsettings eq_refl Hkey Hid Hfalsy)
      as (earlier & w' & Hrun & Hconsole & Hrequests).
    rewrite Hrun. exists earlier, w'. auto.
Qed.

Lemma split_first (sep : ascii) (s : string) :
  exists rest, split sep s = take_until sep s :: rest.
Proof.
  induction s as [| c s [rest IH]]; simpl.
  - exists []. reflexivity.
  - destruct (Ascii.eqb c sep); [eexists; reflexivity |].
    rewrite IH. eexists. reflexivity.
Qed.

Lemma split_after_key (sep : ascii) (key value : string) :
  lacks sep key = true ->
  split sep (key ++ String sep value) = key :: split sep value.
Proof.
  induction key as [| c key IH]; simpl; intros Hkey.
  - rewrite Ascii.eqb_refl. reflexivity.
  - apply andb_prop in Hkey. destruct Hkey as [Hc Hkey].
    apply negb_true_iff in Hc. rewrite Hc, (IH Hkey). reflexivity.
Qed.

Lemma find_after_rejected (A : Type) (p : A -> bool) (before after : list A)
  (x : A) :
  Forall (fun y => p y = false) before ->
  p x = true ->
  find p (before ++ x :: after) = Some x.
Proof.
  intros Hbefore Hx. induction Hbefore as [| y before Hy _ IH]; simpl.
  - rewrite Hx. reflexivity.
  - rewrite Hy. exact IH.
Qed.

(** X19.  How a flag is read.  With [key] free of ['='] (as in [--prompt]):
    when no argument starts with [key=] the flag is [undefined]; otherwise
    its value comes from the first argument that does, later ones are not
    looked at, and it is what follows [key=] up to the next ['=']: the rest
    of a value that contains ['='] is dropped. *)
Theorem flag_reads_first_occurrence_up_to_equals
  (key : string) (args : list string)
  (Hkey : lacks "=" key = true) :
  (Forall (fun arg => startsWith arg (key ++ "=") = false) args ->
   flag args (key ++ "=") = JUndefined)
  /\ (forall before value after,
        args = (before ++ (key ++ "=" ++ value)%string :: after)%list ->
        Forall (fun arg => startsWith arg (key ++ "=") = false) before ->
        flag args (key ++ "=") = JString (take_until "=" value)).
Proof.
  split.
  - intros Hnone. unfold flag. rewrite (find_all_rejected _ _ _ Hnone).
    reflexivity.
  - intros before value after -> Hbefore. unfold flag.
    assert (Hstarts : startsWith (key ++ "=" ++ value) (key ++ "=") = true).
    { unfold startsWith. apply prefix_is_append. exists value.
      clear. induction key as [| c key IH]; simpl; [reflexivity |].
      rewrite <- IH. reflexivity. }
    rewrite (find_after_rejected _ _ before after _ Hbefore Hstarts).
    change (key ++ "=" ++ value) with (key ++ String "=" value).
    rewrite (split_after_key "=" key value Hkey). cbn [nth_error].
    destruct (split_first "=" value) as [rest ->]. reflexivity.
Qed.

(** X20.  Where the CLI sends its requests.  The client the CLI builds at
    first use takes its base URL from the persisted [baseUrl] when that is a
    non-empty string and is [https://app.textql.com] otherwise (no
    [baseUrl], an empty one, or a settings file that could not be loaded);
    the URL of each of its requests is that base followed by the
    endpoint. *)
Theorem cli_requests_go_to_the_persisted_base_url
  (persistedUrl : option string) (w : World) (o : list (string * JSValue))
  (Hsettings : loaded_config w = JObject o)
  (Hfresh : cli_client w = None)
  (Hkey : truthy (resolved_apiKey o w) = true)
  (Hurl : assoc_get "baseUrl" o = optional_string persistedUrl) :
  let base :=
    match persistedUrl with
    | Some (String c s) => String c s
    | _ => "https://app.textql.com"
    end in
  exists this w',
    ensureClient w = (Return (Some this), w')
    /\ client_baseUrl this = JString base
    /\ (forall playbookId,
          req_url (create_request this playbookId) = base ++ CreatePlaybook_endpoint)
    /\ (forall playbook,
          req_url (update_request this playbook) = base ++ UpdatePlaybook_endpoint)
    /\ req_url (connectors_request this) = base ++ GetConnectors_endpoint.
Proof.
  intros base.
  destruct (ensureClient_loaded w o Hsettings Hfresh) as [c Hensure].
  rewrite Hkey in Hensure.
  assert (Hbase : client_baseUrl (configured_client o w) = JString base).
  { unfold configured_client, new_TextQLClient. cbn [baseUrl client_baseUrl].
    rewrite Hurl. unfold base.
    destruct persistedUrl as [[| c0 s] |]; reflexivity. }
  eexists. eexists. split; [exact Hensure |].
  split; [exact Hbase |].
  unfold create_request, update_request, connectors_request, request_of.
  cbn [req_url]. rewrite Hbase. repeat split.
Qed.












End Platform.

(* ===================================================================== *)
(** ** The properties on sample runs, with the reference platform *)
(* ===================================================================== *)

(** Numbers are doubles: [parseInt] rounds beyond [2^53] and overflows to
    an infinity, skips the white space of Unicode, and large numbers print
    with the fewest digits that read back as the same double. *)
Example parseInt_gives_doubles :
  parseInt "9007199254740993" 10 = Int 9007199254740992
  /\ parseInt "  42abc" 10 = Int 42
  /\ parseInt (String (ascii_of_nat 194) (String (ascii_of_nat 160) "0x1f")) 0
     = Int 31
  /\ parseInt "-17" 0 = Int (-17)
  /\ parseInt "prod" 0 = NaN
  /\ parseInt (numeral (repeat 9 309)) 10 = Infinity false
  /\ number_to_string (to_double (2 ^ 60)) = "1152921504606847000"
  /\ number_to_string (to_double (10 ^ 21)) = "1e+21"
  /\ number_to_string (to_double (2 ^ 70)) = "1.1805916207174113e+21"
  /\ number_to_string (Int 213) = "213".
Proof. repeat split; vm_compute; reflexivity. Qed.

(** A stub transport that fails the create call: the composite reports the
    creation error and the update request is never issued. *)
Example create_failure_skips_update :
  exists w',
    createCompletePlaybook json_parse json_stringify sample_client sample_params
      unauthorized_world
    = (Return {| success := false;
                 data := JUndefined;
                 error := JObject [("message", JString "invalid API key");
                                   ("code", JString "unauthenticated")] |}, w')
    /\ requests w'
       = [create_request json_stringify sample_client (JString "weekly-users")].
Proof. eexists. split; vm_compute; reflexivity. Qed.

(** C2, counterexample.  A 500 response whose body is the valid JSON document
    [{}]: [createPlaybook] resolves to [{success: false, error: {}}], an
    empty error object whose [message] is [undefined].  With the body
    [{"message": ""}], a well-typed [TextQLError], the message is there and
    empty. *)
Lemma error_body_without_message :
  (exists w',
      createPlaybook json_parse json_stringify sample_client
        (JString "weekly-users") empty_error_world
      = (Return {| success := false; data := JUndefined; error := JObject [] |}, w')
      /\ opt_chain_prop (JObject []) "message" = JUndefined
      /\ has_message (JObject []) = false)
  /\ (exists w',
        getConnectors json_parse json_stringify sample_client empty_message_world
        = (Return {| success := false;
                     data := JUndefined;
                     error := JObject [("message", JString "")] |}, w')
        /\ has_message (JObject [("message", JString "")]) = false).
Proof.
  split.
  - eexists. repeat split.
  - eexists. split; [vm_compute; reflexivity | reflexivity].
Qed.

(** An error body that is not JSON gives a non-empty message. *)
Lemma makeRequest_failures_become_results_witness :
  network plain_error_world (requests plain_error_world)
    (request_of json_stringify sample_client GetConnectors_endpoint "POST"
       (JObject []))
  = http_response 503 "Service Unavailable" "upstream timeout"
  /\ exists result,
       fst (makeRequest json_parse json_stringify sample_client
              GetConnectors_endpoint "POST" (JObject []) plain_error_world)
       = Return result
       /\ has_message (error result) = true.
Proof.
  split; [reflexivity |].
  destruct (makeRequest_failures_become_results json_parse json_stringify
              sample_client GetConnectors_endpoint "POST" (JObject [])
              plain_error_world) as (result & Hrun & Hbody & _).
  exists result. split; [rewrite Hrun; reflexivity |].
  specialize (Hbody _ "upstream timeout" eq_refl eq_refl eq_refl).
  assert (Hparse : json_parse "upstream timeout"
                   = inl (SyntaxError "Unexpected token in JSON"))
    by (vm_compute; reflexivity).
  rewrite Hparse in Hbody. apply Hbody.
Defined.

(** C3, counterexample.  When the server rejects the create call, the
    composite issues one request and the manual path two. *)
Lemma failed_create_separates_composite_from_manual :
  requests_after
    (createCompletePlaybook json_parse json_stringify sample_client sample_params)
    unauthorized_world
  <> requests_after
       (manual_create_then_update json_parse json_stringify sample_client
          sample_params)
       unauthorized_world.
Proof.
  intros H. apply (f_equal (@List.length Request)) in H.
  vm_compute in H. discriminate H.
Qed.

Lemma composite_matches_manual_after_successful_create_witness :
  success (response_result json_parse (http_response 200 "OK" "{}")) = true
  /\ createCompletePlaybook json_parse json_stringify sample_client sample_params
       (accepting_world NoFile None)
     = manual_create_then_update json_parse json_stringify sample_client
         sample_params (accepting_world NoFile None).
Proof.
  split; [reflexivity |].
  destruct (composite_matches_manual_after_successful_create
              json_parse json_stringify sample_client sample_params
              (accepting_world NoFile None))
    as (createResult & w1 & Hcreate & Hsuccess & _).
  rewrite createPlaybook_spec in Hcreate.
  injection Hcreate as Hresult _.
  apply Hsuccess. rewrite <- Hresult. reflexivity.
Defined.

Lemma listConnectors_raises_where_Result_fails_witness :
  success (response_result json_parse
             (network unauthorized_world []
                (request_of json_stringify sample_client GetConnectors_endpoint
                   "POST" (JObject []))))
  = false
  /\ fst (listConnectors json_parse json_stringify sample_client unauthorized_world)
     = Throw (JSError "Error" "invalid API key").
Proof.
  split; [reflexivity |].
  destruct (listConnectors_raises_where_Result_fails
              json_parse json_stringify ascii_toLowerCase sample_client
              unauthorized_world)
    as (result & w1 & Hget & Hfail & _).
  rewrite getConnectors_spec in Hget.
  injection Hget as Hresult _.
  destruct (Hfail (or_introl (eq_trans (f_equal success (eq_sym Hresult)) eq_refl)))
    as (Hthrow & _).
  rewrite Hthrow, <- Hresult. reflexivity.
Defined.

(** C4, counterexample.  [findConnectorByName] does not raise exactly when
    [listConnectors] raises.  On a 200 response with the body [{}],
    [listConnectors] returns [undefined] and [findConnectorByName] raises a
    [TypeError] on [connectors.find]; on a connector list that ends in
    [null], [listConnectors] returns the list and a search that no connector
    matches raises a [TypeError] on [connector.name]. *)
Lemma findConnectorByName_raises_where_listConnectors_returns :
  (exists w',
      listConnectors json_parse json_stringify sample_client
        (accepting_world NoFile None)
      = (Return JUndefined, w')
      /\ findConnectorByName json_parse json_stringify ascii_toLowerCase
           sample_client "postgres" (accepting_world NoFile None)
         = (Throw (TypeError "Cannot read properties of undefined (reading 'find')"),
            w'))
  /\ (exists w',
        listConnectors json_parse json_stringify sample_client trailing_null_world
        = (Return (JArray (map Connector_to_js sample_connectors ++ [JNull])), w')
        /\ findConnectorByName json_parse json_stringify ascii_toLowerCase
             sample_client "oracle" trailing_null_world
           = (Throw (TypeError "Cannot read properties of null (reading 'name')"),
              w')).
Proof.
  split; eexists; split; vm_compute; reflexivity.
Qed.

(** The example of the specification: ["postgres"] against [Postgres-Prod]
    and [MySQL]. *)
Lemma findConnectorByName_returns_first_match_witness :
  listConnectors json_parse json_stringify sample_client connectors_world
  = (Return (JArray (map Connector_to_js sample_connectors)),
     snd (listConnectors json_parse json_stringify sample_client connectors_world))
  /\ ((exists before c after,
          sample_connectors = (before ++ c :: after)%list
          /\ contains_ignoring_case ascii_toLowerCase (connector_name c) "postgres"
          /\ Forall (fun c' => ~ contains_ignoring_case ascii_toLowerCase
                                   (connector_name c') "postgres") before
          /\ findConnectorByName json_parse json_stringify ascii_toLowerCase
               sample_client "postgres" connectors_world
             = (Return (Connector_to_js c),
                snd (listConnectors json_parse json_stringify sample_client
                       connectors_world)))
      \/ (Forall (fun c' => ~ contains_ignoring_case ascii_toLowerCase
                               (connector_name c') "postgres") sample_connectors
          /\ findConnectorByName json_parse json_stringify ascii_toLowerCase
               sample_client "postgres" connectors_world
             = (Return JNull,
                snd (listConnectors json_parse json_stringify sample_client
                       connectors_world)))).
Proof.
  assert (Hlist :
            listConnectors json_parse json_stringify sample_client connectors_world
            = (Return (JArray (map Connector_to_js sample_connectors)),
               snd (listConnectors json_parse json_stringify sample_client
                      connectors_world)))
    by (vm_compute; reflexivity).
  split; [exact Hlist |].
  apply (findConnectorByName_returns_first_match json_parse json_stringify
           ascii_toLowerCase sample_client "postgres" sample_connectors
           connectors_world _ Hlist).
Defined.

Example findConnectorByName_postgres :
  fst (findConnectorByName json_parse json_stringify ascii_toLowerCase
         sample_client "postgres" connectors_world)
  = Return (Connector_to_js postgres_prod).
Proof. vm_compute. reflexivity. Qed.

Example findConnectorByName_no_match :
  fst (findConnectorByName json_parse json_stringify ascii_toLowerCase
         sample_client "oracle" connectors_world)
  = Return JNull.
Proof. vm_compute. reflexivity. Qed.

(** The example of the specification: persisted settings
    [{defaultCronString: "0 9 * * *"}] and no [--cron] flag. *)
Lemma update_submits_full_payload_from_local_defaults_witness :
  loaded_config json_parse
    (accepting_world (settings_file cron_settings) (Some "env-key"))
  = JObject cron_settings
  /\ requests_after
       (main json_parse json_stringify ("update" :: update_args))
       (accepting_world (settings_file cron_settings) (Some "env-key"))
     = [update_request json_stringify
          (configured_client cron_settings
             (accepting_world (settings_file cron_settings) (Some "env-key")))
          (update_payload update_args cron_settings)]
  /\ update_payload update_args cron_settings
     = JObject
         [("prompt", JString "SELECT 1;");
          ("name", JString "Updated Playbook");
          ("playbookId", JString "weekly-users");
          ("emailAddresses",
           JArray [JString "ann@example.com"; JString "bob@example.com"]);
          ("status", JString "STATUS_INACTIVE");
          ("paradigmType", JString "TYPE_SQL");
          ("paradigmOptions", JObject [("connectorId", JNumber (Int 7))]);
          ("triggerType", JString "TRIGGER_TYPE_CRON");
          ("cronString", JString "0 9 * * *")]
  /\ opt_chain_prop (update_payload update_args cron_settings) "cronString"
     = JString "0 9 * * *".
Proof.
  assert (Hsettings :
            loaded_config json_parse
              (accepting_world (settings_file cron_settings) (Some "env-key"))
            = JObject cron_settings)
    by (vm_compute; reflexivity).
  destruct (update_submits_full_payload_from_local_defaults
              json_parse json_stringify update_args
              (accepting_world (settings_file cron_settings) (Some "env-key"))
              cron_settings Hsettings)
    as (Hrequests & Hpayload & _ & Hcron & _).
  split; [exact Hsettings |].
  split; [exact Hrequests |].
  split; [rewrite Hpayload; reflexivity |].
  apply (Hcron "0 9 * * *"); [discriminate | reflexivity | reflexivity].
Defined.

Lemma no_api_key_exits_before_any_request_witness :
  requires_client "create"
  /\ no_persisted_apiKey json_parse (accepting_world NoFile None)
  /\ exists w',
       main json_parse json_stringify
         ["create"; "--id=weekly-users"; "--prompt=SELECT 1"; "--name=Users";
          "--emails=admin@example.com"; "--connector=213"]
         (accepting_world NoFile None)
       = (Exit 1, w')
       /\ requests w' = [].
Proof.
  assert (Hcommand : requires_client "create") by (right; left; reflexivity).
  assert (Hsettings : no_persisted_apiKey json_parse (accepting_world NoFile None))
    by reflexivity.
  split; [exact Hcommand |]. split; [exact Hsettings |].
  apply (no_api_key_exits_before_any_request json_parse json_stringify
           "create" _ (accepting_world NoFile None) Hcommand Hsettings eq_refl).
Defined.

Lemma getApiKey_prefers_settings_over_environment_witness :
  persisted json_parse
    (accepting_world (settings_file full_settings) (Some "env-key")) full_settings
  /\ getApiKey json_parse
       (accepting_world (settings_file full_settings) (Some "env-key"))
     = (Return (JString "file-key"),
        accepting_world (settings_file full_settings) (Some "env-key")).
Proof.
  assert (Hsettings :
            persisted json_parse
              (accepting_world (settings_file full_settings) (Some "env-key"))
              full_settings)
    by (vm_compute; reflexivity).
  split; [exact Hsettings |].
  destruct (getApiKey_prefers_settings_over_environment json_parse
              (Some "file-key") (Some "env-key")
              (accepting_world (settings_file full_settings) (Some "env-key"))
              full_settings Hsettings eq_refl eq_refl)
    as (_ & Hfile & _).
  apply (Hfile "file-key"); [reflexivity | discriminate].
Defined.

Lemma set_operation_rewrites_only_its_field_witness :
  persisted json_parse
    (accepting_world (settings_file full_settings) None) full_settings
  /\ perform json_parse json_stringify (SetDefaultCronString "0 9 * * *")
       (accepting_world (settings_file full_settings) None)
     = (Return tt,
        accepting_world
          (settings_file
             (assoc_set "defaultCronString" (JString "0 9 * * *") full_settings))
          None)
  /\ persisted json_parse
       (accepting_world
          (settings_file
             (assoc_set "defaultCronString" (JString "0 9 * * *") full_settings))
          None)
       [("apiKey", JString "file-key");
        ("baseUrl", JString "https://staging.textql.com");
        ("defaultConnectorId", JNumber (Int 213));
        ("defaultCronString", JString "0 9 * * *")].
Proof.
  assert (Hsettings :
            persisted json_parse
              (accepting_world (settings_file full_settings) None) full_settings)
    by (vm_compute; reflexivity).
  split; [exact Hsettings |].
  destruct (set_operation_rewrites_only_its_field json_parse json_stringify
              (SetDefaultCronString "0 9 * * *")
              (accepting_world (settings_file full_settings) None)
              full_settings Hsettings)
    as (Hwrite & _).
  destruct (Hwrite
              (json_text 2
                 (JObject (assoc_set "defaultCronString" (JString "0 9 * * *")
                             full_settings)))
              eq_refl eq_refl)
    as (Hrun & Hback).
  split; [exact Hrun |].
  apply Hback. vm_compute. reflexivity.
Defined.

Lemma zero_connector_id_is_treated_as_absent_witness :
  persisted json_parse
    (accepting_world (settings_file zero_connector_settings) None)
    zero_connector_settings
  /\ connector_resolves_to_zero (flag ["--id=weekly-users"] "--connector=")
       zero_connector_settings
  /\ getDefaultConnectorId json_parse
       (accepting_world (settings_file zero_connector_settings) None)
     = (Return JNull, accepting_world (settings_file zero_connector_settings) None)
  /\ exists w',
       main json_parse json_stringify ["update"; "--id=weekly-users"]
         (accepting_world (settings_file zero_connector_settings) None)
       = (Exit 1, w')
       /\ console w' = [console_error_call [CText no_connector_message]]
       /\ requests w' = [].
Proof.
  assert (Hsettings :
            persisted json_parse
              (accepting_world (settings_file zero_connector_settings) None)
              zero_connector_settings)
    by (vm_compute; reflexivity).
  assert (Hzero : connector_resolves_to_zero
                    (flag ["--id=weekly-users"] "--connector=")
                    zero_connector_settings)
    by (right; split; reflexivity).
  destruct (zero_connector_id_is_treated_as_absent json_parse json_stringify
              (accepting_world (settings_file zero_connector_settings) None)
              zero_connector_settings ["--id=weekly-users"]
              (persisted_loaded json_parse _ _ Hsettings) eq_refl Hzero)
    as (Hdefault & _ & Hupdate).
  destruct (Hupdate eq_refl) as (earlier & w' & Hrun & Hconsole & Hrequests & Hearlier).
  split; [exact Hsettings |]. split; [exact Hzero |].
  split; [apply Hdefault; [exact Hsettings | reflexivity] |].
  exists w'. split; [exact Hrun |].
  split; [| exact Hrequests].
  rewrite Hconsole, (Hearlier Hsettings). reflexivity.
Defined.

(** The connector id 0 given on the command line is refused the same way. *)
Example create_with_connector_flag_zero :
  exists w',
    main json_parse json_stringify
      ["create"; "--id=weekly-users"; "--prompt=SELECT 1"; "--name=Users";
       "--emails=admin@example.com"; "--connector=0"]
      (accepting_world (settings_file full_settings) None)
    = (Exit 1, w')
    /\ console w' = [console_error_call [CText no_connector_message]]
    /\ requests w' = [].
Proof. eexists. repeat split; vm_compute; reflexivity. Qed.

(* ===================================================================== *)
(** ** The further properties on sample runs *)
(* ===================================================================== *)

Lemma set_then_get_witness :
  persisted json_parse
    (accepting_world (settings_file full_settings) (Some "env-key")) full_settings
  /\ bind (perform json_parse json_stringify (SetDefaultConnectorId (Int 7)))
       (fun _ => getDefaultConnectorId json_parse)
       (accepting_world (settings_file full_settings) (Some "env-key"))
     = (Return (JNumber (Int 7)),
        accepting_world
          (settings_file
             (assoc_set "defaultConnectorId" (JNumber (Int 7)) full_settings))
          (Some "env-key"))
  /\ bind (perform json_parse json_stringify (SetDefaultConnectorId NaN))
       (fun _ => getDefaultConnectorId json_parse)
       (accepting_world (settings_file full_settings) (Some "env-key"))
     = (Return JNull,
        accepting_world
          (settings_file (assoc_set "defaultConnectorId" JNull full_settings))
          (Some "env-key")).
Proof.
  assert (Hsettings :
            persisted json_parse
              (accepting_world (settings_file full_settings) (Some "env-key"))
              full_settings)
    by (vm_compute; reflexivity).
  split; [exact Hsettings |]. split.
  - apply (set_then_get json_parse json_stringify (SetDefaultConnectorId (Int 7))
             (accepting_world (settings_file full_settings) (Some "env-key"))
             full_settings
             (json_text 2
                (JObject (assoc_set "defaultConnectorId" (JNumber (Int 7))
                            full_settings)))
             Hsettings eq_refl eq_refl).
    vm_compute. reflexivity.
  - apply (set_then_get json_parse json_stringify (SetDefaultConnectorId NaN)
             (accepting_world (settings_file full_settings) (Some "env-key"))
             full_settings
             (json_text 2
                (JObject (assoc_set "defaultConnectorId" JNull full_settings)))
             Hsettings eq_refl).
    + vm_compute. reflexivity.
    + vm_compute. reflexivity.
Defined.

Lemma set_operation_replaces_unloadable_file_witness :
  read_settings json_parse (config_file broken_file_world)
  = inl (SyntaxError "Unexpected token in JSON")
  /\ exists w',
       perform json_parse json_stringify (SetApiKey "new-key") broken_file_world
       = (Return tt, w')
       /\ config_file w' = settings_file [("apiKey", JString "new-key")].
Proof.
  assert (Hbroken : read_settings json_parse (config_file broken_file_world)
                    = inl (SyntaxError "Unexpected token in JSON"))
    by (vm_compute; reflexivity).
  split; [exact Hbroken |].
  eexists. split.
  - apply (set_operation_replaces_unloadable_file json_parse json_stringify
             (SetApiKey "new-key") broken_file_world _
             (json_text 2 (JObject [("apiKey", JString "new-key")]))
             Hbroken eq_refl eq_refl).
  - reflexivity.
Defined.

Lemma null_settings_file_breaks_every_operation_witness :
  read_settings json_parse (config_file null_file_world) = inr JNull
  /\ (exists message,
         getApiKey json_parse null_file_world
         = (Throw (TypeError message), null_file_world))
  /\ exists w',
       main json_parse json_stringify ["connectors"] null_file_world = (Exit 1, w')
       /\ requests w' = [].
Proof.
  assert (Hnull : read_settings json_parse (config_file null_file_world) = inr JNull)
    by (vm_compute; reflexivity).
  destruct (null_settings_file_breaks_every_operation json_parse json_stringify
              null_file_world Hnull) as (Hget & _ & Hmain).
  split; [exact Hnull |].
  split; [apply Hget; left; reflexivity |].
  destruct (Hmain "connectors" [] (or_introl eq_refl))
    as (w' & Hrun & Hrequests & _).
  exists w'. split; [exact Hrun | exact Hrequests].
Defined.

(** An ok response with an empty body is reported as a failure. *)
Lemma makeRequest_succeeds_exactly_on_parsed_ok_response_witness :
  exists result,
    fst (makeRequest json_parse json_stringify sample_client
           GetConnectors_endpoint "POST" (JObject []) empty_ok_world)
    = Return result
    /\ success result = false
    /\ data result = JUndefined.
Proof.
  destruct (makeRequest_succeeds_exactly_on_parsed_ok_response
              json_parse json_stringify sample_client GetConnectors_endpoint
              "POST" (JObject []) empty_ok_world)
    as (result & w' & Hrun & Hiff & _ & Hnodata).
  exists result. split; [rewrite Hrun; reflexivity |].
  assert (Hfail : success result = false).
  { destruct (success result) eqn:Hs; [| reflexivity].
    destruct (proj1 Hiff eq_refl) as (r & text & Hnet & _ & Htext & Hparse).
    injection Hnet as <-. injection Htext as <-.
    vm_compute in Hparse. discriminate Hparse. }
  split; [exact Hfail | exact (Hnodata Hfail)].
Defined.

Lemma createCompletePlaybook_succeeds_when_both_calls_do_witness :
  exists result,
    fst (createCompletePlaybook json_parse json_stringify sample_client
           sample_params (accepting_world NoFile None))
    = Return result
    /\ success result = true.
Proof.
  destruct (createCompletePlaybook_succeeds_when_both_calls_do
              json_parse json_stringify sample_client sample_params
              (accepting_world NoFile None))
    as (result & w' & Hrun & Hiff & _).
  exists result. split; [rewrite Hrun; reflexivity |].
  apply Hiff. split; reflexivity.
Defined.

Lemma findConnectorByName_on_empty_list_and_empty_name_witness :
  listConnectors json_parse json_stringify sample_client connectors_world
  = (Return (JArray (map Connector_to_js sample_connectors)),
     snd (listConnectors json_parse json_stringify sample_client connectors_world))
  /\ ascii_toLowerCase "" = ""
  /\ findConnectorByName json_parse json_stringify ascii_toLowerCase
       sample_client "" connectors_world
     = (Return (Connector_to_js postgres_prod),
        snd (listConnectors json_parse json_stringify sample_client
               connectors_world)).
Proof.
  assert (Hlist :
            listConnectors json_parse json_stringify sample_client connectors_world
            = (Return (JArray (map Connector_to_js sample_connectors)),
               snd (listConnectors json_parse json_stringify sample_client
                      connectors_world)))
    by (vm_compute; reflexivity).
  split; [exact Hlist |]. split; [reflexivity |].
  destruct (findConnectorByName_on_empty_list_and_empty_name
              json_parse json_stringify ascii_toLowerCase sample_client
              sample_connectors connectors_world _ Hlist) as (_ & Hempty).
  apply (Hempty eq_refl postgres_prod [mysql] eq_refl).
Defined.

Lemma findConnectorByName_ignores_case_of_query_witness :
  ascii_toLowerCase "POSTGRES" = ascii_toLowerCase "postgres"
  /\ findConnectorByName json_parse json_stringify ascii_toLowerCase
       sample_client "POSTGRES" connectors_world
     = findConnectorByName json_parse json_stringify ascii_toLowerCase
         sample_client "postgres" connectors_world.
Proof.
  split; [reflexivity |].
  apply (findConnectorByName_ignores_case_of_query json_parse json_stringify
           ascii_toLowerCase sample_client "POSTGRES" "postgres"
           connectors_world eq_refl).
Defined.

Lemma success_without_connectors_is_not_detected_witness :
  data (response_result json_parse (http_response 200 "OK" "{}")) = JObject []
  /\ exists w1,
       listConnectors json_parse json_stringify sample_client
         (accepting_world NoFile None)
       = (Return JUndefined, w1)
       /\ exists message,
            findConnectorByName json_parse json_stringify ascii_toLowerCase
              sample_client "postgres" (accepting_world NoFile None)
            = (Throw (TypeError message), w1).
Proof.
  split; [reflexivity |].
  destruct (success_without_connectors_is_not_detected
              json_parse json_stringify ascii_toLowerCase sample_client
              (accepting_world NoFile None) [] eq_refl eq_refl eq_refl)
    as (w1 & Hlist & Hfind).
  exists w1. split; [exact Hlist | apply Hfind].
Defined.

Lemma handleConnectors_lists_in_order_or_exits_witness :
  loaded_config json_parse listing_world = JObject full_settings
  /\ exists earlier w',
       handleConnectors json_parse json_stringify [] listing_world
       = (Return tt, w')
       /\ console w'
          = (earlier
             ++ [console_log_call [CText "🔌 Available connectors:"];
                 connector_line postgres_prod; connector_line mysql])%list.
Proof.
  assert (Hsettings : loaded_config json_parse listing_world
                      = JObject full_settings)
    by (vm_compute; reflexivity).
  split; [exact Hsettings |].
  destruct (handleConnectors_lists_in_order_or_exits json_parse json_stringify
              [] listing_world full_settings Hsettings eq_refl eq_refl)
    as (Hlisting & _).
  destruct (Hlisting [("connectors", JArray (map Connector_to_js sample_connectors))]
              sample_connectors)
    as (earlier & w' & Hrun & Hconsole & _);
    [vm_compute; reflexivity | vm_compute; reflexivity | reflexivity |].
  exists earlier, w'. split; [exact Hrun | exact Hconsole].
Defined.

Lemma commands_without_client_issue_no_request_witness :
  needs_no_client ["config"; "show"]
  /\ requests (snd (main json_parse json_stringify ["config"; "show"]
                      broken_file_world)) = [].
Proof.
  assert (Hcommand : needs_no_client ["config"; "show"]).
  { unfold needs_no_client, requires_client.
    intros [H | [H | H]]; discriminate H. }
  split; [exact Hcommand |].
  apply (commands_without_client_issue_no_request json_parse json_stringify
           ["config"; "show"] broken_file_world Hcommand).
Defined.

Lemma config_validation_failures_only_print_witness :
  argument_missing []
  /\ parseInt "abc" 10 = NaN
  /\ handleConfig json_parse json_stringify ["set-api-key"] broken_file_world
     = (Exit 1,
        with_console [console_error_call [CText "❌ Please provide an API key"]]
          broken_file_world)
  /\ handleConfig json_parse json_stringify ["set-connector"; "abc"]
       broken_file_world
     = (Exit 1,
        with_console
          [console_error_call [CText "❌ Please provide a valid connector ID"]]
          broken_file_world)
  /\ handleConfig json_parse json_stringify ["reset"] broken_file_world
     = (Exit 1,
        with_console
          [console_error_call [CText "❌ Unknown config command: reset"];
           console_log_call
             [CText "Available config commands: set-api-key, set-connector, set-cron, show"]]
          broken_file_world).
Proof.
  destruct (config_validation_failures_only_print json_parse json_stringify
              broken_file_world)
    as (Hmissing & Hnan & Hunknown & _).
  split; [left; reflexivity |]. split; [reflexivity |].
  split; [| split].
  - destruct (Hmissing [] (or_introl eq_refl)) as (Hrun & _). exact Hrun.
  - apply (Hnan "abc" []); [discriminate | reflexivity].
  - apply (Hunknown "reset" []).
    simpl. intros [H | [H | [H | [H | []]]]]; discriminate H.
Defined.

Lemma set_cron_then_update_submits_the_new_default_witness :
  persisted json_parse
    (accepting_world (settings_file full_settings) None) full_settings
  /\ truthy (flag ["--id=weekly-users"] "--cron=") = false
  /\ exists w1,
       main json_parse json_stringify ["config"; "set-cron"; "0 9 * * *"]
         (accepting_world (settings_file full_settings) None)
       = (Return tt, w1)
       /\ requests_after
            (main json_parse json_stringify ["update"; "--id=weekly-users"]) w1
          = [update_request json_stringify
               (configured_client
                  (assoc_set "defaultCronString" (JString "0 9 * * *") full_settings)
                  (accepting_world (settings_file full_settings) None))
               (update_payload ["--id=weekly-users"]
                  (assoc_set "defaultCronString" (JString "0 9 * * *")
                     full_settings))]
       /\ opt_chain_prop
            (update_payload ["--id=weekly-users"]
               (assoc_set "defaultCronString" (JString "0 9 * * *") full_settings))
            "cronString"
          = JString "0 9 * * *".
Proof.
  assert (Hsettings :
            persisted json_parse
              (accepting_world (settings_file full_settings) None) full_settings)
    by (vm_compute; reflexivity).
  split; [exact Hsettings |]. split; [reflexivity |].
  assert (Hread :
            json_parse
              (json_text 2
                 (JObject (assoc_set "defaultCronString" (JString "0 9 * * *")
                             full_settings)))
            = inr (JObject (assoc_set "defaultCronString" (JString "0 9 * * *")
                              full_settings)))
    by (vm_compute; reflexivity).
  destruct (set_cron_then_update_submits_the_new_default
              json_parse json_stringify "0 9 * * *" ["--id=weekly-users"]
              (accepting_world (settings_file full_settings) None)
              full_settings _ Hsettings eq_refl
              (fun H => match H with eq_refl => I end) eq_refl Hread eq_refl)
    as (w1 & Hset & _ & Hrequests & Hcron).
  exists w1. split; [exact Hset |]. split; [exact Hrequests | exact Hcron].
Defined.

Lemma create_without_a_required_flag_prints_usage_witness :
  loaded_config json_parse (accepting_world (settings_file full_settings) None)
  = JObject full_settings
  /\ missing_or_empty ["--id=weekly-users"; "--prompt="] "--prompt="
  /\ (exists w',
         main json_parse json_stringify ["create"; "--id=weekly-users"; "--prompt="]
           (accepting_world (settings_file full_settings) None)
         = (Exit 1, w')
         /\ requests w' = [])
  /\ flag empty_emails_args "--emails=" = JString ""
  /\ requests_after
       (main json_parse json_stringify ("create" :: empty_emails_args))
       (accepting_world (settings_file full_settings) None)
     = [create_request json_stringify
          (configured_client full_settings
             (accepting_world (settings_file full_settings) None))
          (JString "weekly-users");
        update_request json_stringify
          (configured_client full_settings
             (accepting_world (settings_file full_settings) None))
          (updateRequest_of (create_params empty_emails_args full_settings))]
  /\ emailAddresses (create_params empty_emails_args full_settings)
     = JArray [JString ""].
Proof.
  assert (Hsettings :
            loaded_config json_parse
              (accepting_world (settings_file full_settings) None)
            = JObject full_settings)
    by (vm_compute; reflexivity).
  split; [exact Hsettings |]. split; [right; reflexivity |].
  split.
  - destruct (create_without_a_required_flag_prints_usage json_parse json_stringify
                ["--id=weekly-users"; "--prompt="]
                (accepting_world (settings_file full_settings) None)
                full_settings Hsettings eq_refl)
      as (Husage & _).
    destruct (Husage (or_intror (or_introl (or_intror eq_refl))))
      as (earlier & w' & Hrun & _ & Hrequests & _).
    exists w'. split; [exact Hrun | exact Hrequests].
  - split; [reflexivity |].
    destruct (create_without_a_required_flag_prints_usage json_parse json_stringify
                empty_emails_args
                (accepting_world (settings_file full_settings) None)
                full_settings Hsettings eq_refl)
      as (_ & Hgoes).
    destruct (Hgoes "" eq_refl eq_refl eq_refl eq_refl eq_refl)
      as (Hrequests & _ & Hempty).
    split; [exact Hrequests | exact (Hempty eq_refl)].
Defined.

Lemma create_issues_create_then_update_witness :
  loaded_config json_parse (accepting_world (settings_file full_settings) None)
  = JObject full_settings
  /\ required_flags_given create_args = true
  /\ exists w',
       main json_parse json_stringify ("create" :: create_args)
         (accepting_world (settings_file full_settings) None)
       = (Return tt, w')
       /\ requests w'
          = [create_request json_stringify
               (configured_client full_settings
                  (accepting_world (settings_file full_settings) None))
               (JString "weekly-users");
             update_request json_stringify
               (configured_client full_settings
                  (accepting_world (settings_file full_settings) None))
               (update_payload create_args full_settings)].
Proof.
  assert (Hsettings :
            loaded_config json_parse
              (accepting_world (settings_file full_settings) None)
            = JObject full_settings)
    by (vm_compute; reflexivity).
  split; [exact Hsettings |]. split; [reflexivity |].
  destruct (create_issues_create_then_update json_parse json_stringify
              create_args (accepting_world (settings_file full_settings) None)
              full_settings Hsettings eq_refl eq_refl eq_refl)
    as ((w' & Hrun & Hrequests) & _ & Hsame & _).
  exists w'. split; [exact Hrun |].
  rewrite Hrequests, (Hsame eq_refl). reflexivity.
Defined.

Lemma update_exit_status_follows_the_result_witness :
  loaded_config json_parse
    (sample_world (settings_file full_settings) None
       (always (http_response 404 "Not Found" "no such playbook")))
  = JObject full_settings
  /\ exists earlier w',
       main json_parse json_stringify ["update"; "--id=weekly-users"]
         (sample_world (settings_file full_settings) None
            (always (http_response 404 "Not Found" "no such playbook")))
       = (Exit 1, w')
       /\ console w'
          = (earlier
             ++ [console_error_call [CText "❌ Failed to update playbook:";
                                     CValue (JString "no such playbook")]])%list.
Proof.
  assert (Hsettings :
            loaded_config json_parse
              (sample_world (settings_file full_settings) None
                 (always (http_response 404 "Not Found" "no such playbook")))
            = JObject full_settings)
    by (vm_compute; reflexivity).
  split; [exact Hsettings |].
  destruct (update_exit_status_follows_the_result json_parse json_stringify
              ["--id=weekly-users"] _ full_settings Hsettings eq_refl eq_refl
              eq_refl)
    as (earlier & w' & Hrun & Hconsole).
  exists earlier, w'. split; [exact Hrun | exact Hconsole].
Defined.

Lemma unparsable_connector_flag_hides_the_default_witness :
  loaded_config json_parse (accepting_world (settings_file full_settings) None)
  = JObject full_settings
  /\ parseInt (ToString (flag ["--id=weekly-users"; "--connector=prod"]
                           "--connector=")) 0 = NaN
  /\ assoc_get "defaultConnectorId" full_settings = JNumber (Int 213)
  /\ exists w',
       main json_parse json_stringify
         ["update"; "--id=weekly-users"; "--connector=prod"]
         (accepting_world (settings_file full_settings) None)
       = (Exit 1, w')
       /\ requests w' = [].
Proof.
  assert (Hsettings :
            loaded_config json_parse
              (accepting_world (settings_file full_settings) None)
            = JObject full_settings)
    by (vm_compute; reflexivity).
  split; [exact Hsettings |]. split; [reflexivity |]. split; [reflexivity |].
  destruct (unparsable_connector_flag_hides_the_default json_parse json_stringify
              ["--id=weekly-users"; "--connector=prod"]
              (accepting_world (settings_file full_settings) None)
              full_settings Hsettings eq_refl eq_refl eq_refl)
    as (_ & Hupdate).
  destruct (Hupdate eq_refl) as (earlier & w' & Hrun & _ & Hrequests).
  exists w'. split; [exact Hrun | exact Hrequests].
Defined.

(** A query with ['='] in it loses what follows the ['=']. *)
Lemma flag_reads_first_occurrence_up_to_equals_witness :
  lacks "=" "--prompt" = true
  /\ flag ["--id=weekly-users"; "--prompt=SELECT * FROM t WHERE a=1";
           "--prompt=SELECT 2"] "--prompt="
     = JString "SELECT * FROM t WHERE a".
Proof.
  split; [reflexivity |].
  destruct (flag_reads_first_occurrence_up_to_equals "--prompt"
              ["--id=weekly-users"; "--prompt=SELECT * FROM t WHERE a=1";
               "--prompt=SELECT 2"] eq_refl) as (_ & Hvalue).
  apply (Hvalue ["--id=weekly-users"] "SELECT * FROM t WHERE a=1"
           ["--prompt=SELECT 2"] eq_refl).
  constructor; [reflexivity | constructor].
Defined.

Lemma cli_requests_go_to_the_persisted_base_url_witness :
  loaded_config json_parse (accepting_world (settings_file full_settings) None)
  = JObject full_settings
  /\ exists this w',
       ensureClient json_parse
         (accepting_world (settings_file full_settings) None)
       = (Return (Some this), w')
       /\ req_url (connectors_request json_stringify this)
          = "https://staging.textql.com" ++ GetConnectors_endpoint.
Proof.
  assert (Hsettings :
            loaded_config json_parse
              (accepting_world (settings_file full_settings) None)
            = JObject full_settings)
    by (vm_compute; reflexivity).
  split; [exact Hsettings |].
  destruct (cli_requests_go_to_the_persisted_base_url json_parse json_stringify
              (Some "https://staging.textql.com")
              (accepting_world (settings_file full_settings) None)
              full_settings Hsettings eq_refl eq_refl eq_refl)
    as (this & w' & Hensure & _ & _ & _ & Hurl).
  exists this, w'. split; [exact Hensure | exact Hurl].
Defined.


Lemma findConnectorByName_does_not_look_past_the_first_match_witness :
  listConnectors json_parse json_stringify sample_client trailing_null_world
  = (Return (JArray (map Connector_to_js sample_connectors ++ [JNull])),
     snd (listConnectors json_parse json_stringify sample_client
            trailing_null_world))
  /\ find (connector_matches ascii_toLowerCase "mysql") sample_connectors
     = Some mysql
  /\ fst (findConnectorByName json_parse json_stringify ascii_toLowerCase
            sample_client "mysql" trailing_null_world)
     = Return (Connector_to_js mysql).
Proof.
  assert (Hlist :
            listConnectors json_parse json_stringify sample_client
              trailing_null_world
            = (Return (JArray (map Connector_to_js sample_connectors ++ [JNull])),
               snd (listConnectors json_parse json_stringify sample_client
                      trailing_null_world)))
    by (vm_compute; reflexivity).
  split; [exact Hlist |]. split; [reflexivity |].
  destruct (findConnectorByName_does_not_look_past_the_first_match
              json_parse json_stringify ascii_toLowerCase sample_client "mysql"
              sample_connectors [JNull] trailing_null_world _ Hlist)
    as (Hfirst & _).
  rewrite (Hfirst mysql eq_refl). reflexivity.
Defined.
